(** * Onboarding chatbot: a shallow embedding and its verified properties

    The repository holds two command-line entry points that drive a LangGraph
    state graph around a hosted chat model:

    - [onboardInstructor.ts] (second half of the file): the tool-calling entry
      point, where the model finishes the conversation by calling the
      [complete] tool whose argument is described by
      [onboardInstructorEssentialsSchema];
    - [onboarding-chatbot.ts]: the string-matching entry point, which fishes
      fields out of the model's free text with [parseResponseForData].

    Strings are sequences of code units below 256 ([ascii]); on that range
    [toLowerCase], [trim], [includes] and [split] below agree with the
    ECMAScript built-ins.  Calls to [debugLog] print only when the DEBUG
    environment variable is set and never influence control flow; they are
    left out of the embedding. *)

From Stdlib Require Import List String Ascii Bool Arith Lia ZArith QArith DecimalString.
Import ListNotations.
Close Scope Q_scope.
Open Scope string_scope.
Open Scope list_scope.

Set Warnings "-register-all".

(** ** ECMAScript string built-ins used by the sources *)

Module JsString.

Definition chr (n : nat) : string := String (ascii_of_nat n) EmptyString.

Definition dquote : string := chr 34.
Definition newline : string := chr 10.
Definition backslash : string := chr 92.

(** [String.prototype.toLowerCase] on one code unit below 256: the ASCII
    capitals and the Latin-1 capitals (U+00C0..U+00DE without U+00D7). *)
Definition toLowerCaseChar (c : ascii) : ascii :=
  let n := nat_of_ascii c in
  if (Nat.leb 65 n && Nat.leb n 90)
     || (Nat.leb 192 n && Nat.leb n 222 && negb (Nat.eqb n 215))
  then ascii_of_nat (n + 32)
  else c.

Fixpoint toLowerCase (s : string) : string :=
  match s with
  | EmptyString => EmptyString
  | String c s' => String (toLowerCaseChar c) (toLowerCase s')
  end.

(** WhiteSpace and LineTerminator code units below 256: TAB, LF, VT, FF,
    CR, SP and NBSP. *)
Definition isWhiteSpace (c : ascii) : bool :=
  let n := nat_of_ascii c in
  (Nat.leb 9 n && Nat.leb n 13) || Nat.eqb n 32 || Nat.eqb n 160.

Fixpoint trimStart (s : string) : string :=
  match s with
  | EmptyString => EmptyString
  | String c s' => if isWhiteSpace c then trimStart s' else s
  end.

Fixpoint trimEnd (s : string) : string :=
  match s with
  | EmptyString => EmptyString
  | String c s' =>
      match trimEnd s' with
      | EmptyString =>
          if isWhiteSpace c then EmptyString else String c EmptyString
      | t => String c t
      end
  end.

Definition trim (s : string) : string := trimEnd (trimStart s).

(** Every code unit of [s] is white space. *)
Fixpoint all_white (s : string) : bool :=
  match s with
  | EmptyString => true
  | String c s' => isWhiteSpace c && all_white s'
  end.

(** [s] starts, respectively ends, with white space. *)
Definition starts_white (s : string) : bool :=
  match s with
  | EmptyString => false
  | String c _ => isWhiteSpace c
  end.

Fixpoint ends_white (s : string) : bool :=
  match s with
  | EmptyString => false
  | String c EmptyString => isWhiteSpace c
  | String _ s' => ends_white s'
  end.

(** [hay.includes(needle)] *)
Fixpoint includes (hay needle : string) : bool :=
  match hay with
  | EmptyString => String.prefix needle hay
  | String _ hay' => String.prefix needle hay || includes hay' needle
  end.

(** [s.split(sep)] for a separator of one code unit. *)
Fixpoint split (sep : ascii) (s : string) : list string :=
  match s with
  | EmptyString => [EmptyString]
  | String c s' =>
      if Ascii.eqb c sep then EmptyString :: split sep s'
      else match split sep s' with
           | [] => [String c EmptyString]
           | piece :: pieces => String c piece :: pieces
           end
  end.

(** [piece] occurs in [s] as a substring. *)
Definition contains (s piece : string) : Prop :=
  exists before after, s = String.append before (String.append piece after).

(** How often the code unit [c] occurs in [s]. *)
Fixpoint occurrences (c : ascii) (s : string) : nat :=
  match s with
  | EmptyString => 0
  | String x s' => (if Ascii.eqb x c then 1 else 0) + occurrences c s'
  end.

(** Truthiness of a string value: only the empty string is falsy. *)
Definition truthy (s : string) : bool := negb (s =? EmptyString).

End JsString.

(** ** JSON values, as the JavaScript objects the sources build and receive *)

Inductive json : Type :=
| JNull
| JBool (b : bool)
| JNum (q : Q)
| JStr (s : string)
| JArr (items : list json)
| JObj (fields : list (string * json)).

(** Own-property lookup in an object's field list. *)
Fixpoint obj_get (k : string) (fields : list (string * json)) : option json :=
  match fields with
  | [] => None
  | (k', v) :: fields' => if k' =? k then Some v else obj_get k fields'
  end.

Definition obj_keys (fields : list (string * json)) : list string :=
  map fst fields.

Definition mem_string (k : string) (ks : list string) : bool :=
  existsb (String.eqb k) ks.

(** Property access [v[k]] on a JSON value; [None] stands for [undefined]. *)
Definition get_prop (k : string) (v : json) : option json :=
  match v with
  | JObj fields => obj_get k fields
  | _ => None
  end.

(** The own property names of a JSON value. *)
Definition prop_names (v : json) : list string :=
  match v with
  | JObj fields => obj_keys fields
  | _ => []
  end.

(** Deep equality of JSON values (objects compared as maps). *)
Fixpoint json_eqb (a b : json) {struct a} : bool :=
  match a, b with
  | JNull, JNull => true
  | JBool x, JBool y => Bool.eqb x y
  | JNum x, JNum y => Qeq_bool x y
  | JStr x, JStr y => x =? y
  | JArr xs, JArr ys =>
      (fix all2 (xs ys : list json) : bool :=
         match xs, ys with
         | [], [] => true
         | x :: xs', y :: ys' => json_eqb x y && all2 xs' ys'
         | _, _ => false
         end) xs ys
  | JObj xs, JObj ys =>
      Nat.eqb (List.length xs) (List.length ys)
      && (fix each (xs : list (string * json)) : bool :=
            match xs with
            | [] => true
            | (k, x) :: xs' =>
                match obj_get k ys with
                | Some y => json_eqb x y
                | None => false
                end && each xs'
            end) xs
  | _, _ => false
  end.

(** ** onboardInstructor.ts, lines 26-81: the schema object *)

Definition dayNames : list string :=
  ["Monday"; "Tuesday"; "Wednesday"; "Thursday"; "Friday"; "Saturday"; "Sunday"].

Definition typed (t : string) : json := JObj [("type", JStr t)].

Definition strings (l : list string) : json := JArr (map JStr l).

Definition serviceFields : list string :=
  ["serviceName"; "price"; "priceCurrency"; "durationInMinutes"].

Definition hoursFields : list string :=
  ["startTime24hr"; "endTime24hr"; "dayOfWeek"].

Definition requiredFields : list string :=
  ["businessName"; "firstServices"; "businessHours"; "yourEmailAddress";
   "doYouWantUsToTakePaymentsDirectlyFromYourCustomers"].

Definition onboardInstructorEssentialsSchema : json :=
  JObj
    [("type", JStr "object");
     ("properties",
      JObj
        [("businessName", typed "string");
         ("firstServices",
          JObj
            [("type", JStr "object");
             ("properties",
              JObj
                [("serviceName", typed "string");
                 ("price", typed "number");
                 ("priceCurrency", typed "string");
                 ("durationInMinutes", typed "number")]);
             ("required", strings serviceFields);
             ("additionalProperties", JBool false)]);
         ("businessHours",
          JObj
            [("type", JStr "array");
             ("items",
              JObj
                [("type", JStr "object");
                 ("properties",
                  JObj
                    [("startTime24hr", typed "string");
                     ("endTime24hr", typed "string");
                     ("dayOfWeek",
                      JObj [("type", JStr "string"); ("enum", strings dayNames)])]);
                 ("required", strings hoursFields);
                 ("additionalProperties", JBool false)])]);
         ("yourEmailAddress",
          JObj [("type", JStr "string"); ("format", JStr "email")]);
         ("doYouWantUsToTakePaymentsDirectlyFromYourCustomers", typed "boolean")]);
     ("required", strings requiredFields);
     ("additionalProperties", JBool false)].

(** ** Messages (@langchain/core/messages) *)

(** [MessageContent]: a string, or an array of content blocks. *)
Inductive content : Type :=
| CText (s : string)
| CComplex (blocks : json).

Record tool_call : Type := ToolCall {
  call_name : string;
  call_args : json;
  call_id : string
}.

Inductive message : Type :=
| HumanMessage (text : string)
| SystemMessage (text : string)
| AIMessage (c : content) (tool_calls : list tool_call)
| ToolMessage (text : string) (name : string) (tool_call_id : string).

Definition message_content (m : message) : content :=
  match m with
  | HumanMessage s | SystemMessage s | ToolMessage s _ _ => CText s
  | AIMessage c _ => c
  end.

(** What one request to the completion service comes back with. *)
Inductive response : Type :=
| Reply (c : content) (tool_calls : list tool_call)
| Failure (error : string).

(** ** The world outside the two programs

    [Number_toString] is the number printing of [JSON.stringify],
    [format_valid] the format assertions of the schema validator behind
    [tool(..., { schema })], and [service n msgs] the outcome of the [n]-th
    request (counted from 0) sent to the chat model with the messages [msgs].
    Nothing is assumed about any of them. *)
Class Environment : Type := {
  Number_toString : Q -> string;
  format_valid : string -> string -> bool;
  service : nat -> list message -> response
}.

(** ** JSON.stringify *)

Module JSON.
Import JsString.

Definition hexDigit (n : nat) : string :=
  String.substring n 1 "0123456789abcdef".

(** QuoteJSONString on one code unit. *)
Definition quoteChar (c : ascii) : string :=
  let n := nat_of_ascii c in
  if Nat.eqb n 8 then String.append backslash "b"
  else if Nat.eqb n 9 then String.append backslash "t"
  else if Nat.eqb n 10 then String.append backslash "n"
  else if Nat.eqb n 12 then String.append backslash "f"
  else if Nat.eqb n 13 then String.append backslash "r"
  else if Nat.eqb n 34 then String.append backslash dquote
  else if Nat.eqb n 92 then String.append backslash backslash
  else if Nat.ltb n 32
       then String.concat EmptyString
              [backslash; "u00"; hexDigit (n / 16); hexDigit (n mod 16)]
       else String c EmptyString.

Fixpoint quoteBody (s : string) : string :=
  match s with
  | EmptyString => EmptyString
  | String c s' => String.append (quoteChar c) (quoteBody s')
  end.

Definition quote (s : string) : string :=
  String.concat EmptyString [dquote; quoteBody s; dquote].

(** SerializeJSONProperty with the given [gap], at indentation [indent]. *)
Fixpoint serialize `{Environment} (gap indent : string) (v : json)
  {struct v} : string :=
  let inner := String.append indent gap in
  let wrap (opening closing : string) (parts : list string) : string :=
    match parts with
    | [] => String.append opening closing
    | _ =>
        if gap =? EmptyString then
          String.concat EmptyString [opening; String.concat "," parts; closing]
        else
          String.concat EmptyString
            [opening; newline; inner;
             String.concat (String.concat EmptyString [","; newline; inner]) parts;
             newline; indent; closing]
    end in
  match v with
  | JNull => "null"
  | JBool true => "true"
  | JBool false => "false"
  | JNum q => Number_toString q
  | JStr s => quote s
  | JArr items =>
      wrap "[" "]"
        ((fix elements (l : list json) : list string :=
            match l with
            | [] => []
            | x :: l' => serialize gap inner x :: elements l'
            end) items)
  | JObj fields =>
      wrap "{" "}"
        ((fix members (l : list (string * json)) : list string :=
            match l with
            | [] => []
            | (k, x) :: l' =>
                String.concat EmptyString
                  [quote k; if gap =? EmptyString then ":" else ": ";
                   serialize gap inner x]
                :: members l'
            end) fields)
  end.

(** [JSON.stringify(v)] *)
Definition stringify `{Environment} (v : json) : string :=
  serialize EmptyString EmptyString v.

(** [JSON.stringify(v, null, 2)] *)
Definition stringify2 `{Environment} (v : json) : string :=
  serialize "  " EmptyString v.

End JSON.

(** ** Schema validation

    The [tool] wrapper checks the argument of a call against the tool's JSON
    schema before the tool body runs.  The validator is library code; what
    follows is the JSON Schema meaning of the keywords that
    [onboardInstructorEssentialsSchema] uses. *)

Definition has_type (t : string) (v : json) : bool :=
  match v with
  | JNull => t =? "null"
  | JBool _ => t =? "boolean"
  | JNum _ => t =? "number"
  | JStr _ => t =? "string"
  | JArr _ => t =? "array"
  | JObj _ => t =? "object"
  end.

(** The property names a schema object declares under [properties]. *)
Definition declared (keywords : list (string * json)) : list string :=
  match obj_get "properties" keywords with
  | Some (JObj props) => obj_keys props
  | _ => []
  end.

(** What one keyword [kw: arg] of a schema object asks of an instance;
    [keywords] is the whole schema object, which [additionalProperties]
    consults for its sibling [properties]. *)
Definition keyword_holds `{Environment} (validate : json -> json -> bool)
  (keywords : list (string * json)) (instance : json) (kw : string) (arg : json)
  : bool :=
  if kw =? "type" then
    match arg with
    | JStr t => has_type t instance
    | _ => true
    end
  else if kw =? "enum" then
    match arg with
    | JArr allowed => existsb (json_eqb instance) allowed
    | _ => true
    end
  else if kw =? "format" then
    match arg, instance with
    | JStr f, JStr s => format_valid f s
    | _, _ => true
    end
  else if kw =? "required" then
    match arg, instance with
    | JArr names, JObj fields =>
        forallb
          (fun n =>
             match n with
             | JStr k => mem_string k (obj_keys fields)
             | _ => true
             end) names
    | _, _ => true
    end
  else if kw =? "properties" then
    match arg, instance with
    | JObj props, JObj fields =>
        forallb
          (fun ps : string * json =>
             match obj_get (fst ps) fields with
             | Some x => validate (snd ps) x
             | None => true
             end) props
    | _, _ => true
    end
  else if kw =? "additionalProperties" then
    match instance with
    | JObj fields =>
        forallb
          (fun kx : string * json =>
             mem_string (fst kx) (declared keywords) || validate arg (snd kx))
          fields
    | _ => true
    end
  else if kw =? "items" then
    match instance with
    | JArr elements => forallb (validate arg) elements
    | _ => true
    end
  else true.

(** A schema is [true], [false] or an object whose keywords must all hold. *)
Fixpoint validate `{Environment} (schema instance : json) {struct schema} : bool :=
  match schema with
  | JBool b => b
  | JObj keywords =>
      forallb
        (fun ka : string * json =>
           keyword_holds validate keywords instance (fst ka) (snd ka))
        keywords
  | _ => true
  end.

(** ** Effects: a state-and-exception monad over an observable trace *)

Inductive exn : Type :=
| ServiceError (error : string)       (* [model.invoke] rejected *)
| ToolInputParsingException           (* tool input did not match the schema *)
| ToolNotFound (name : string)
| ToolNodeInput                       (* the tool node found no AI message *)
| TypeError
| GraphRecursionError.

Definition exn_message (e : exn) : string :=
  match e with
  | ServiceError error => error
  | ToolInputParsingException =>
      "Received tool input did not match expected schema"
  | ToolNotFound name =>
      String.concat EmptyString
        ["Tool "; JsString.dquote; name; JsString.dquote; " not found."]
  | ToolNodeInput => "ToolNode only accepts AIMessages as input."
  | TypeError => "TypeError"
  | GraphRecursionError => "Recursion limit of 25 reached"
  end.

Inductive colour : Type := Yellow | Green.

Inductive event : Type :=
| EvRead (line : string)              (* [rl.question] resolved with a line *)
| EvSubmit (m : message)              (* a message handed to [app.invoke] *)
| EvInvoke (msgs : list message)      (* [model.invoke(msgs)] sent *)
| EvReply (m : message)               (* the model's answer *)
| EvTool (input : json)               (* the body of the [complete] tool ran *)
| EvToolMsg (m : message)             (* a message produced by the tool node *)
| EvPrint (c : colour) (text : string)
| EvClose                             (* [rl.close()] *)
| EvError (e : exn).                  (* [console.error] of the top-level catch *)

Inductive result (A : Type) : Type :=
| Ok (a : A)
| Throw (e : exn).
Arguments Ok {A} a.
Arguments Throw {A} e.

(** [store] is the program's own mutable state, [invocations] the number of
    requests sent to the completion service so far. *)
Record world (St : Type) : Type := World {
  store : St;
  invocations : nat;
  trace : list event
}.
Arguments World {St} _ _ _.
Arguments store {St} _.
Arguments invocations {St} _.
Arguments trace {St} _.

Definition M (St A : Type) : Type := world St -> result A * world St.

Definition ret {St A} (a : A) : M St A := fun w => (Ok a, w).

Definition bind {St A B} (c : M St A) (k : A -> M St B) : M St B :=
  fun w =>
    match c w with
    | (Ok a, w') => k a w'
    | (Throw e, w') => (Throw e, w')
    end.

Definition throw {St A} (e : exn) : M St A := fun w => (Throw e, w).

Definition try_catch {St A} (c : M St A) (handler : exn -> M St A) : M St A :=
  fun w =>
    match c w with
    | (Ok a, w') => (Ok a, w')
    | (Throw e, w') => handler e w'
    end.

Definition gets {St A} (f : St -> A) : M St A := fun w => (Ok (f (store w)), w).

Definition modify {St} (f : St -> St) : M St unit :=
  fun w => (Ok tt, World (f (store w)) (invocations w) (trace w)).

Definition record {St} (evs : list event) (w : world St) : world St :=
  World (store w) (invocations w) (trace w ++ evs).

Definition log {St} (e : event) : M St unit := fun w => (Ok tt, record [e] w).

Definition log_all {St} (evs : list event) : M St unit :=
  fun w => (Ok tt, record evs w).

Notation "x <- c1 ;; c2" := (bind c1 (fun x => c2))
  (at level 61, c1 at next level, right associativity).
Notation "c1 ;; c2" := (bind c1 (fun _ => c2))
  (at level 61, right associativity).

(** [await model.invoke(msgs)]: one request to the completion service. *)
Definition model_invoke `{Environment} {St} (msgs : list message) : M St message :=
  fun w =>
    let sent := World (store w) (S (invocations w)) (trace w ++ [EvInvoke msgs]) in
    match service (invocations w) msgs with
    | Reply c calls =>
        let answer := AIMessage c calls in
        (Ok answer, record [EvReply answer] sent)
    | Failure error => (Throw (ServiceError error), sent)
    end.

(** [messages[messages.length - 1].content]; reading [content] of
    [undefined] is a TypeError. *)
Definition last_content (msgs : list message) : result content :=
  match rev msgs with
  | m :: _ => Ok (message_content m)
  | [] => Throw TypeError
  end.

Definition lift {St A} (r : result A) : M St A := fun w => (r, w).

(** [typeof botResponse === 'string' ? botResponse : JSON.stringify(botResponse)] *)
Definition botText `{Environment} (botResponse : content) : string :=
  match botResponse with
  | CText s => s
  | CComplex blocks => JSON.stringify blocks
  end.

(** [userMessage.toLowerCase() === 'exit'] *)
Definition is_exit (userMessage : string) : bool :=
  JsString.toLowerCase userMessage =? "exit".

(** How the input loop stopped: the user typed the sentinel, the completion
    flag was found set, or standard input ran dry. *)
Inductive ending : Type := Exited | Completed | InputClosed.

Definition END : string := "__end__".

(** ** The tool-calling entry point (onboardInstructor.ts, second half) *)

Module Instructor.

(** [typeof StateAnnotation.State] *)
Record State : Type := { messages : list message }.

(** The reducer of the [messages] channel: [(x, y) => x.concat(y)]. *)
Definition messages_reducer (x y : list message) : list message := x ++ y.

Definition update (state : State) (returned : list message) : State :=
  {| messages := messages_reducer (messages state) returned |}.

(** The process state: the module-level flag [isCompleted], what the
    [MemorySaver] holds for the session's thread, and [main]'s local
    [conversationHistory]. *)
Record Process : Type := {
  isCompleted : bool;
  checkpointer : State;
  conversationHistory : list message
}.

Definition set_isCompleted (b : bool) (p : Process) : Process :=
  {| isCompleted := b;
     checkpointer := checkpointer p;
     conversationHistory := conversationHistory p |}.

Definition save (state : State) (p : Process) : Process :=
  {| isCompleted := isCompleted p;
     checkpointer := state;
     conversationHistory := conversationHistory p |}.

Definition push (m : message) (p : Process) : Process :=
  {| isCompleted := isCompleted p;
     checkpointer := checkpointer p;
     conversationHistory := conversationHistory p ++ [m] |}.

(** The tool [complete] (lines 120-130): the wrapper validates the input
    against the schema, then the body sets the flag and returns the input. *)
Definition onboardingCompleted `{Environment} (input : json) : M Process json :=
  if validate onboardInstructorEssentialsSchema input then
    log (EvTool input) ;;
    modify (set_isCompleted true) ;;
    ret input
  else throw ToolInputParsingException.

(** [ToolNode]: one tool call.  Errors raised by the tool, also a rejected
    input, are caught and turned into a tool message. *)
Definition runToolCall `{Environment} (call : tool_call) : M Process message :=
  try_catch
    (if call_name call =? "complete" then
       output <- onboardingCompleted (call_args call) ;;
       ret (ToolMessage (JSON.stringify output) "complete" (call_id call))
     else throw (ToolNotFound (call_name call)))
    (fun e =>
       ret (ToolMessage
              (String.concat EmptyString
                 ["Error: "; exn_message e; JsString.newline;
                  " Please fix your mistakes."])
              (call_name call) (call_id call))).

Fixpoint runToolCalls `{Environment} (calls : list tool_call)
  : M Process (list message) :=
  match calls with
  | [] => ret []
  | call :: calls' =>
      output <- runToolCall call ;;
      outputs <- runToolCalls calls' ;;
      ret (output :: outputs)
  end.

(** The ids of the tool calls that already have their tool message in the
    state: the [tool_call_id]s of the messages of type ["tool"]. *)
Definition toolMessageIds (msgs : list message) : list string :=
  flat_map (fun m => match m with
                     | ToolMessage _ _ tool_call_id => [tool_call_id]
                     | _ => []
                     end) msgs.

(** The tool calls that the tool node still has to run: those whose id has
    no tool message yet. *)
Definition unanswered (msgs : list message) (calls : list tool_call)
  : list tool_call :=
  filter (fun call => negb (mem_string (call_id call) (toolMessageIds msgs))) calls.

(** The tool calls of the last AI message of the state, looked for from the
    end. *)
Fixpoint lastToolCalls (reversed : list message) : option (list tool_call) :=
  match reversed with
  | [] => None
  | AIMessage _ calls :: _ => Some calls
  | _ :: earlier => lastToolCalls earlier
  end.

(** [toolNodeForGraph = new ToolNode(tools)] (line 141; the node is library
    code): runs the tool calls of the last AI message, except those whose id
    already has a tool message in the state, and returns one tool message
    for every call it ran. *)
Definition toolNodeForGraph `{Environment} (state : State)
  : M Process (list message) :=
  match lastToolCalls (rev (messages state)) with
  | Some calls =>
      outputs <- runToolCalls (unanswered (messages state) calls) ;;
      log_all (map EvToolMsg outputs) ;;
      ret outputs
  | None => throw ToolNodeInput
  end.

(** Lines 144-159. *)
Definition shouldContinue (state : State) : result string :=
  match rev (messages state) with
  | [] => Throw TypeError
  | AIMessage _ (_ :: _) :: _ => Ok "tools"
  | _ => Ok END
  end.

(** The system message of lines 167-175. *)
Definition systemMessage `{Environment} : message :=
  SystemMessage
    (String.concat JsString.newline
       [EmptyString; "You are an onboarding assistant for a business management platform.";
        "Your task is to collect the information from the user, based on the following schema:";
        EmptyString;
        JSON.stringify2 onboardInstructorEssentialsSchema;
        EmptyString;
        "Please ask for any missing information one at a time.";
        "Don't follow user question not related to onboarding.";
        "Be conversational, short but friendly."]).

(** Lines 162-190. *)
Definition callModel `{Environment} (state : State) : M Process (list message) :=
  let modelMessages := systemMessage :: messages state in
  response <- model_invoke modelMessages ;;
  ret [response].

(** [app.invoke({ messages: input }, { configurable: { thread_id } })] on
    the compiled graph START -> agent -> (tools -> END | END), with the
    thread's checkpoint loaded first and saved after every step. *)
Definition app_invoke `{Environment} (input : list message) : M Process State :=
  saved <- gets checkpointer ;;
  let state := update saved input in
  log_all (map EvSubmit input) ;;
  modify (save state) ;;
  returned <- callModel state ;;
  let state := update state returned in
  modify (save state) ;;
  route <- lift (shouldContinue state) ;;
  if route =? "tools" then
    returned <- toolNodeForGraph state ;;
    let state := update state returned in
    modify (save state) ;;
    ret state
  else ret state.

(** The body of [while (continueConversation)] (lines 240-279), run on the
    lines that standard input will deliver. *)
Fixpoint conversation `{Environment} (inputs : list string) : M Process ending :=
  match inputs with
  | [] => ret InputClosed
  | userMessage :: inputs' =>
      log (EvRead userMessage) ;;
      if is_exit userMessage then
        log EvClose ;;
        ret Exited
      else
        let userHumanMessage := HumanMessage userMessage in
        modify (push userHumanMessage) ;;
        finalState <- app_invoke [userHumanMessage] ;;
        botResponse <- lift (last_content (messages finalState)) ;;
        log (EvPrint Yellow (String.append "Bot: " (botText botResponse))) ;;
        modify (push (AIMessage botResponse [])) ;;
        completed <- gets isCompleted ;;
        if completed then
          log (EvPrint Green "Onboarding completed!") ;;
          log EvClose ;;
          ret Completed
        else conversation inputs'
  end.

(** Lines 212-282. *)
Definition main `{Environment} (inputs : list string) : M Process ending :=
  finalState <- app_invoke [HumanMessage "Start onboarding"] ;;
  botResponse <- lift (last_content (messages finalState)) ;;
  log (EvPrint Yellow (String.append "Bot: " (botText botResponse))) ;;
  conversation inputs.

Definition initial : world Process :=
  World {| isCompleted := false;
           checkpointer := {| messages := [] |};
           conversationHistory := [] |} 0 [].

(** [main().catch((error) => console.error('An error occurred:', error))] *)
Definition program `{Environment} (inputs : list string)
  : result ending * world Process :=
  match main inputs initial with
  | (Ok e, w) => (Ok e, w)
  | (Throw e, w) => (Throw e, record [EvError e] w)
  end.

End Instructor.

(** ** The string-matching entry point (onboarding-chatbot.ts) *)

Module Chatbot.

(** Lines 41-56: [OnboardTenantEssentials], and its [Partial]. *)
Record ServiceEssentials : Type := {
  serviceName : string;
  price : Q;
  priceCurrency : string;
  durationInMinutes : Q
}.

Record HoursForDay : Type := {
  startTime24hr : string;
  endTime24hr : string;
  dayOfWeek : string
}.

Record PartialEssentials : Type := {
  businessName : option string;
  firstServices : option ServiceEssentials;
  businessHours : option (list HoursForDay);
  yourEmailAddress : option string;
  doYouWantUsToTakePaymentsDirectlyFromYourCustomers : option bool
}.

(** The object literal [{}]. *)
Definition empty : PartialEssentials :=
  {| businessName := None; firstServices := None; businessHours := None;
     yourEmailAddress := None;
     doYouWantUsToTakePaymentsDirectlyFromYourCustomers := None |}.

Definition spread {A} (prev next : option A) : option A :=
  match next with
  | Some x => Some x
  | None => prev
  end.

(** The reducer of [onboardingData]: [(prev, next) => ({ ...prev, ...next })]. *)
Definition onboardingData_reducer (prev next : PartialEssentials)
  : PartialEssentials :=
  {| businessName := spread (businessName prev) (businessName next);
     firstServices := spread (firstServices prev) (firstServices next);
     businessHours := spread (businessHours prev) (businessHours next);
     yourEmailAddress := spread (yourEmailAddress prev) (yourEmailAddress next);
     doYouWantUsToTakePaymentsDirectlyFromYourCustomers :=
       spread (doYouWantUsToTakePaymentsDirectlyFromYourCustomers prev)
              (doYouWantUsToTakePaymentsDirectlyFromYourCustomers next) |}.

(** The reducer of [messages]: [(x, y) => x.concat(y)]. *)
Definition messages_reducer (x y : list message) : list message := x ++ y.

(** [typeof StateAnnotation.State] *)
Record State : Type := {
  messages : list message;
  onboardingData : PartialEssentials
}.

Definition update (state returned : State) : State :=
  {| messages := messages_reducer (messages state) (messages returned);
     onboardingData :=
       onboardingData_reducer (onboardingData state) (onboardingData returned) |}.

(** The record as the JavaScript object that [JSON.stringify] sees; absent
    properties are left out. *)
Definition property (k : string) (v : option json) : list (string * json) :=
  match v with
  | Some x => [(k, x)]
  | None => []
  end.

Definition service_json (s : ServiceEssentials) : json :=
  JObj [("serviceName", JStr (serviceName s)); ("price", JNum (price s));
        ("priceCurrency", JStr (priceCurrency s));
        ("durationInMinutes", JNum (durationInMinutes s))].

Definition hours_json (h : HoursForDay) : json :=
  JObj [("startTime24hr", JStr (startTime24hr h));
        ("endTime24hr", JStr (endTime24hr h));
        ("dayOfWeek", JStr (dayOfWeek h))].

Definition to_json (d : PartialEssentials) : json :=
  JObj
    (property "businessName" (option_map JStr (businessName d))
     ++ property "firstServices" (option_map service_json (firstServices d))
     ++ property "businessHours"
          (option_map (fun l => JArr (map hours_json l)) (businessHours d))
     ++ property "yourEmailAddress" (option_map JStr (yourEmailAddress d))
     ++ property "doYouWantUsToTakePaymentsDirectlyFromYourCustomers"
          (option_map JBool
             (doYouWantUsToTakePaymentsDirectlyFromYourCustomers d))).

(** Truthiness of an optional string property. *)
Definition truthy_string (v : option string) : bool :=
  match v with
  | Some s => JsString.truthy s
  | None => false
  end.

Definition defined {A} (v : option A) : bool :=
  match v with
  | Some _ => true
  | None => false
  end.

(** Lines 68-84. *)
Definition shouldContinue (state : State) : string :=
  let onboardingData := onboardingData state in
  if truthy_string (businessName onboardingData)
     && defined (firstServices onboardingData)
     && defined (businessHours onboardingData)
     && defined (yourEmailAddress onboardingData)
     && defined (doYouWantUsToTakePaymentsDirectlyFromYourCustomers onboardingData)
  then "__end__"
  else "__end__".

(** [typeof content === 'object' ? JSON.stringify(content) : content] *)
Definition contentString `{Environment} (c : content) : string :=
  match c with
  | CText s => s
  | CComplex blocks => JSON.stringify blocks
  end.

(** Lines 129-145.  Calling [trim] on a missing second piece would be a
    TypeError. *)
Definition parseResponseForData `{Environment} (c : content)
  : result PartialEssentials :=
  let contentString := contentString c in
  if JsString.includes contentString "business name"
     && JsString.includes contentString ":"
  then
    match nth_error (JsString.split ":" contentString) 1 with
    | Some piece =>
        Ok {| businessName := Some (JsString.trim piece);
              firstServices := None; businessHours := None;
              yourEmailAddress := None;
              doYouWantUsToTakePaymentsDirectlyFromYourCustomers := None |}
    | None => Throw TypeError
    end
  else Ok empty.

(** The system message of lines 93-104. *)
Definition systemMessage `{Environment} (onboardingData : PartialEssentials)
  : message :=
  SystemMessage
    (String.concat JsString.newline
       ["You are an onboarding assistant for a business management platform. Your task is to collect the following information from the user:";
        EmptyString;
        "1. Business name";
        "2. First service details (name, price, currency, duration in minutes)";
        "3. Business hours for each day of the week";
        "4. Email address";
        "5. Whether they want us to take payments directly from customers";
        EmptyString;
        "Current progress:";
        JSON.stringify2 (to_json onboardingData);
        EmptyString;
        "Please ask for any missing information one at a time. Be conversational and friendly."]).

(** The process state: what the [MemorySaver] holds for the session's
    thread, and [main]'s local [conversationHistory]. *)
Record Process : Type := {
  checkpointer : State;
  conversationHistory : list message
}.

Definition save (state : State) (p : Process) : Process :=
  {| checkpointer := state; conversationHistory := conversationHistory p |}.

Definition push (m : message) (p : Process) : Process :=
  {| checkpointer := checkpointer p;
     conversationHistory := conversationHistory p ++ [m] |}.

(** Lines 87-127. *)
Definition callModel `{Environment} (state : State) : M Process State :=
  let modelMessages := systemMessage (onboardingData state) :: messages state in
  response <- model_invoke modelMessages ;;
  newData <- lift (parseResponseForData (message_content response)) ;;
  ret {| messages := [response]; onboardingData := newData |}.

Definition recursionLimit : nat := 25.

(** The compiled graph __start__ -> agent -> shouldContinue: the agent node
    runs, its return value goes through the reducers, the checkpoint is
    saved, and the conditional edge picks the next node, for at most
    [recursionLimit] steps. *)
Fixpoint agent `{Environment} (steps : nat) (state : State) : M Process State :=
  match steps with
  | O => throw GraphRecursionError
  | S steps' =>
      returned <- callModel state ;;
      let state := update state returned in
      modify (save state) ;;
      let route := shouldContinue state in
      if route =? "__end__" then ret state
      else if route =? "agent" then agent steps' state
      else throw TypeError
  end.

(** [app.invoke({ messages: input, onboardingData: {} }, ...)] *)
Definition app_invoke `{Environment} (input : State) : M Process State :=
  saved <- gets checkpointer ;;
  let state := update saved input in
  log_all (map EvSubmit (messages input)) ;;
  modify (save state) ;;
  agent recursionLimit state.

(** The body of [while (continueConversation)] (lines 181-218). *)
Fixpoint conversation `{Environment} (inputs : list string) : M Process ending :=
  match inputs with
  | [] => ret InputClosed
  | userMessage :: inputs' =>
      log (EvRead userMessage) ;;
      if is_exit userMessage then
        log EvClose ;;
        ret Exited
      else
        let userHumanMessage := HumanMessage userMessage in
        modify (push userHumanMessage) ;;
        finalState <-
          app_invoke {| messages := [userHumanMessage]; onboardingData := empty |} ;;
        botResponse <- lift (last_content (messages finalState)) ;;
        log (EvPrint Yellow (String.append "Bot: " (botText botResponse))) ;;
        modify (push (AIMessage botResponse [])) ;;
        conversation inputs'
  end.

(** Lines 165-221. *)
Definition main `{Environment} (inputs : list string) : M Process ending :=
  conversation inputs.

Definition initial : world Process :=
  World {| checkpointer := {| messages := []; onboardingData := empty |};
           conversationHistory := [] |} 0 [].

(** [main().catch((error) => console.error('An error occurred:', error))] *)
Definition program `{Environment} (inputs : list string)
  : result ending * world Process :=
  match main inputs initial with
  | (Ok e, w) => (Ok e, w)
  | (Throw e, w) => (Throw e, record [EvError e] w)
  end.

End Chatbot.

(** ** Reading a trace *)

(** The messages an event adds to the conversation. *)
Definition said (e : event) : list message :=
  match e with
  | EvSubmit m | EvReply m | EvToolMsg m => [m]
  | _ => []
  end.

(** The conversation so far: every message submitted, answered by the model
    or produced by the tool node, in order. *)
Definition transcript_of (tr : list event) : list message := flat_map said tr.

Definition is_invoke (e : event) : bool :=
  match e with
  | EvInvoke _ => true
  | _ => false
  end.

(** The number of requests sent to the completion service. *)
Definition requests (tr : list event) : nat := List.length (filter is_invoke tr).

Definition is_tool_run (e : event) : bool :=
  match e with
  | EvTool _ => true
  | _ => false
  end.

Definition is_system (m : message) : bool :=
  match m with
  | SystemMessage _ => true
  | _ => false
  end.

(** Every request of the trace, the [n]-th being the first, was answered by
    the service (none of them failed). *)
Fixpoint answered `{Environment} (n : nat) (tr : list event) : Prop :=
  match tr with
  | [] => True
  | EvInvoke msgs :: tr' =>
      (exists c calls, service n msgs = Reply c calls) /\ answered (S n) tr'
  | _ :: tr' => answered n tr'
  end.

(** Every request of the trace carried the system message of the moment
    followed by the whole conversation up to that moment.  [d] is what the
    system message is built from, [learn] how an event changes it, and
    [history] the conversation before the trace starts. *)
Fixpoint well_sent {D : Type} (sys_of : D -> message) (learn : D -> event -> D)
  (d : D) (history : list message) (tr : list event) : Prop :=
  match tr with
  | [] => True
  | e :: tr' =>
      match e with
      | EvInvoke msgs => msgs = sys_of d :: history
      | _ => True
      end
      /\ well_sent sys_of learn (learn d e) (history ++ said e) tr'
  end.

(** The message that [main] of the tool-calling entry point starts with. *)
Definition seed : message := HumanMessage "Start onboarding".

(** A tool call that the [complete] tool accepts. *)
Definition completes `{Environment} (call : tool_call) : bool :=
  (call_name call =? "complete")
  && validate onboardInstructorEssentialsSchema (call_args call).

(** The runs of the [complete] tool body that a list of tool calls causes. *)
Definition tool_runs `{Environment} (calls : list tool_call) : list event :=
  map (fun call => EvTool (call_args call)) (filter completes calls).

Definition is_tool_message (m : message) : bool :=
  match m with
  | ToolMessage _ _ _ => true
  | _ => false
  end.

(** [parseResponseForData] as a total function (it never throws). *)
Definition parsed `{Environment} (c : content) : Chatbot.PartialEssentials :=
  match Chatbot.parseResponseForData c with
  | Ok newData => newData
  | Throw _ => Chatbot.empty
  end.

(** How the chatbot's [onboardingData] moves with the events of a trace:
    every answer of the model is parsed and merged. *)
Definition learn `{Environment} (d : Chatbot.PartialEssentials) (e : event)
  : Chatbot.PartialEssentials :=
  match e with
  | EvReply m => Chatbot.onboardingData_reducer d (parsed (message_content m))
  | _ => d
  end.

(** The [onboardingData] collected by the end of a trace. *)
Definition progress_of `{Environment} (tr : list event) : Chatbot.PartialEssentials :=
  fold_left learn tr Chatbot.empty.

(** Events that neither send a request nor bring an answer. *)
Definition idle (e : event) : bool :=
  match e with
  | EvInvoke _ | EvReply _ => false
  | _ => true
  end.

Definition not_system (m : message) : bool := negb (is_system m).

(** The trace and the state agree: the request counter counts the requests
    of the trace, the saved messages are the conversation of the trace, the
    saved data is what the trace taught, every request was sent with the
    system message in front of the whole conversation, and the conversation
    holds no system message. *)
Definition sound {St D : Type} (saved_messages : St -> list message)
  (saved_data : St -> D) (sys_of : D -> message) (learn : D -> event -> D) (d0 : D)
  (w : world St) : Prop :=
  invocations w = requests (trace w)
  /\ saved_messages (store w) = transcript_of (trace w)
  /\ saved_data (store w) = fold_left learn (trace w) d0
  /\ well_sent sys_of learn d0 [] (trace w)
  /\ forallb not_system (transcript_of (trace w)) = true.

(** The trace ends with a request that the service failed, and every
    request before it was answered. *)
Definition failed_last `{Environment} (tr : list event) (error : string) : Prop :=
  exists before msgs,
    tr = before ++ [EvInvoke msgs]
    /\ answered 0 before
    /\ service (requests before) msgs = Failure error.

(** A computation stopped either normally with every request answered, or
    with the error of the request that failed last. *)
Definition settled `{Environment} {A : Type} (r : result A) (tr : list event) : Prop :=
  match r with
  | Ok _ => answered 0 tr
  | Throw e => exists error, e = ServiceError error /\ failed_last tr error
  end.

Definition instructor_sound `{Environment} : world Instructor.Process -> Prop :=
  sound (fun p => Instructor.messages (Instructor.checkpointer p))
        (fun _ => tt) (fun _ : unit => Instructor.systemMessage)
        (fun d _ => d) tt.

Definition chatbot_sound `{Environment} : world Chatbot.Process -> Prop :=
  sound (fun p => Chatbot.messages (Chatbot.checkpointer p))
        (fun p => Chatbot.onboardingData (Chatbot.checkpointer p))
        Chatbot.systemMessage learn Chatbot.empty.

(** After every run of the [complete] tool body in the trace, no request to
    the completion service follows. *)
Fixpoint quiet_after_tool (tr : list event) : Prop :=
  match tr with
  | [] => True
  | EvTool _ :: tr' => requests tr' = 0 /\ quiet_after_tool tr'
  | _ :: tr' => quiet_after_tool tr'
  end.

(** The session ends at the line [line] with the outcome [r], the line being
    read by the loop [conversation] in the world [w]: whatever lines are
    waiting behind it, the loop stops in the turn of [line] with [r] and
    reads none of them. *)
Definition stops_at {St : Type} (conversation : list string -> M St ending)
  (line : string) (w : world St) (r : result ending) : Prop :=
  exists w' : world St, forall rest, conversation (line :: rest) w = (r, w').

(** ** onboardInstructor.ts, lines 3-24: the record types *)

Module Essentials.

Inductive DayOfWeek : Type :=
| Monday | Tuesday | Wednesday | Thursday | Friday | Saturday | Sunday.

(** A value of one of the interfaces is an object that has the declared
    properties with the declared types.  An interface does not forbid further
    properties: the records keep them apart from the declared ones, in the
    order in which they follow them in the object.  The numbers are the
    finite ones, which are those that a JSON payload can carry. *)
Record ServiceEssentials : Type := {
  serviceName : string;
  durationInMinutes : Q;
  price : Q;
  priceCurrency : string;
  serviceFurther : list (string * json)
}.

Record HoursForDay : Type := {
  startTime24hr : string;
  endTime24hr : string;
  dayOfWeek : DayOfWeek;
  hoursFurther : list (string * json)
}.

Record OnboardTenantEssentials : Type := {
  businessName : string;
  firstServices : ServiceEssentials;
  businessHours : list HoursForDay;
  yourEmailAddress : string;
  doYouWantUsToTakePaymentsDirectlyFromYourCustomers : bool;
  further : list (string * json)
}.

(** The string literal that a member of the union type [DayOfWeek] is. *)
Definition day_name (d : DayOfWeek) : string :=
  match d with
  | Monday => "Monday"
  | Tuesday => "Tuesday"
  | Wednesday => "Wednesday"
  | Thursday => "Thursday"
  | Friday => "Friday"
  | Saturday => "Saturday"
  | Sunday => "Sunday"
  end.

(** A value of each type as the JavaScript object it is: the declared
    properties in the order of the interface, then the further ones. *)
Definition service_json (s : ServiceEssentials) : json :=
  JObj ([("serviceName", JStr (serviceName s));
         ("durationInMinutes", JNum (durationInMinutes s));
         ("price", JNum (price s));
         ("priceCurrency", JStr (priceCurrency s))]
          ++ serviceFurther s).

Definition hours_json (h : HoursForDay) : json :=
  JObj ([("startTime24hr", JStr (startTime24hr h));
         ("endTime24hr", JStr (endTime24hr h));
         ("dayOfWeek", JStr (day_name (dayOfWeek h)))]
          ++ hoursFurther h).

Definition to_json (r : OnboardTenantEssentials) : json :=
  JObj ([("businessName", JStr (businessName r));
         ("firstServices", service_json (firstServices r));
         ("businessHours", JArr (map hours_json (businessHours r)));
         ("yourEmailAddress", JStr (yourEmailAddress r));
         ("doYouWantUsToTakePaymentsDirectlyFromYourCustomers",
          JBool (doYouWantUsToTakePaymentsDirectlyFromYourCustomers r))]
          ++ further r).

(** The names of further properties differ from the declared names: an
    object has one property of a name. *)
Definition other_names (names : list string) (more : list (string * json)) : bool :=
  forallb (fun kx : string * json => negb (mem_string (fst kx) names)) more.

Definition well_formed (r : OnboardTenantEssentials) : bool :=
  other_names requiredFields (further r)
  && other_names serviceFields (serviceFurther (firstServices r))
  && forallb (fun h => other_names hoursFields (hoursFurther h)) (businessHours r).

(** The object has the declared properties and no other, at the top, in
    [firstServices] and in every entry of [businessHours]. *)
Definition none (more : list (string * json)) : bool :=
  match more with
  | [] => true
  | _ :: _ => false
  end.

Definition exact (r : OnboardTenantEssentials) : bool :=
  none (further r)
  && none (serviceFurther (firstServices r))
  && forallb (fun h => none (hoursFurther h)) (businessHours r).

End Essentials.

(** ** More ways to read a trace and a state *)

(** The payloads with which the body of the [complete] tool ran. *)
Definition tool_payloads (tr : list event) : list json :=
  flat_map (fun e => match e with EvTool input => [input] | _ => [] end) tr.

(** The lines read from the user, in order. *)
Definition lines_read (tr : list event) : list string :=
  flat_map (fun e => match e with EvRead line => [line] | _ => [] end) tr.

Definition not_exit (line : string) : bool := negb (is_exit line).

(** The business names that [parseResponseForData] finds in the answers of
    a trace, in order. *)
Definition names_parsed `{Environment} (tr : list event) : list string :=
  flat_map (fun e => match e with
                     | EvReply (AIMessage c _) =>
                         match Chatbot.businessName (parsed c) with
                         | Some name => [name]
                         | None => []
                         end
                     | _ => []
                     end) tr.

(** [new AIMessage(content)]: the message without its tool calls; the other
    messages as they are. *)
Definition without_tool_calls (m : message) : message :=
  match m with
  | AIMessage c _ => AIMessage c []
  | _ => m
  end.

(** The completion flag is set exactly when the body of the [complete]
    tool ran, and it only ever ran on payloads that the schema accepts. *)
Definition flag_agrees `{Environment} (w : world Instructor.Process) : Prop :=
  Instructor.isCompleted (store w) = existsb is_tool_run (trace w)
  /\ forallb (validate onboardInstructorEssentialsSchema) (tool_payloads (trace w))
     = true.

(** How the way a loop stopped relates to the lines it read, [inputs] being
    the lines that were there to read and [consumed] the lines read.  After
    the sentinel the loop read nothing more; it found the input closed only
    after reading every line, none of them the sentinel; it reported
    completion or failed only in a turn, with no sentinel among the lines. *)
Definition reads_explain (inputs consumed : list string) (r : result ending) : Prop :=
  match r with
  | Ok Exited =>
      exists before line,
        consumed = before ++ [line]
        /\ forallb not_exit before = true /\ is_exit line = true
  | Ok InputClosed => consumed = inputs /\ forallb not_exit inputs = true
  | Ok Completed => consumed <> [] /\ forallb not_exit consumed = true
  | Throw _ => forallb not_exit consumed = true
  end.

(** ** Concrete environments and inputs for the examples *)

Module Examples.

(** The payload of the specification's scenario. *)
Definition acme : json :=
  JObj
    [("businessName", JStr "Acme Cuts");
     ("firstServices",
      JObj [("serviceName", JStr "Haircut"); ("durationInMinutes", JNum (30 # 1));
            ("price", JNum (20 # 1)); ("priceCurrency", JStr "USD")]);
     ("businessHours",
      JArr [JObj [("startTime24hr", JStr "09:00"); ("endTime24hr", JStr "17:00");
                  ("dayOfWeek", JStr "Monday")]]);
     ("yourEmailAddress", JStr "a@b.com");
     ("doYouWantUsToTakePaymentsDirectlyFromYourCustomers", JBool true)].

(** The same record as a value of the type [OnboardTenantEssentials], with
    the further properties [more] at the top. *)
Definition acme_with (more : list (string * json))
  : Essentials.OnboardTenantEssentials :=
  {| Essentials.businessName := "Acme Cuts";
     Essentials.firstServices :=
       {| Essentials.serviceName := "Haircut";
          Essentials.durationInMinutes := 30 # 1;
          Essentials.price := 20 # 1;
          Essentials.priceCurrency := "USD";
          Essentials.serviceFurther := [] |};
     Essentials.businessHours :=
       [{| Essentials.startTime24hr := "09:00";
           Essentials.endTime24hr := "17:00";
           Essentials.dayOfWeek := Essentials.Monday;
           Essentials.hoursFurther := [] |}];
     Essentials.yourEmailAddress := "a@b.com";
     Essentials.doYouWantUsToTakePaymentsDirectlyFromYourCustomers := true;
     Essentials.further := more |}.

Definition acme_record : Essentials.OnboardTenantEssentials := acme_with [].

(** The record with a note that the interface does not declare. *)
Definition acme_noted : Essentials.OnboardTenantEssentials :=
  acme_with [("note", JStr "walk-ins welcome")].

(** The same payload with a day that is not a day. *)
Definition acme_funday : json :=
  JObj
    [("businessName", JStr "Acme Cuts");
     ("firstServices",
      JObj [("serviceName", JStr "Haircut"); ("durationInMinutes", JNum (30 # 1));
            ("price", JNum (20 # 1)); ("priceCurrency", JStr "USD")]);
     ("businessHours",
      JArr [JObj [("startTime24hr", JStr "09:00"); ("endTime24hr", JStr "17:00");
                  ("dayOfWeek", JStr "Funday")]]);
     ("yourEmailAddress", JStr "a@b.com");
     ("doYouWantUsToTakePaymentsDirectlyFromYourCustomers", JBool true)].

(** A number printing that is right on the integers of the examples. *)
Definition print_number (q : Q) : string :=
  NilEmpty.string_of_int (Z.to_int (Qnum q / Zpos (Qden q))).

(** A format check that asks an email address for an at sign. *)
Definition has_at (format value : string) : bool := JsString.includes value "@".

(** An environment around a given completion service. *)
Definition around (svc : nat -> list message -> response) : Environment :=
  {| Number_toString := print_number; format_valid := has_at; service := svc |}.

(** A model that greets, whatever it is sent. *)
Definition greeter (n : nat) (msgs : list message) : response :=
  Reply (CText "Hello! What is your business name?") [].

(** A model that calls [complete] with the scenario's payload in its very
    first answer, and talks afterwards. *)
Definition eager (n : nat) (msgs : list message) : response :=
  match n with
  | O => Reply (CText EmptyString) [ToolCall "complete" acme "call_1"]
  | _ => Reply (CText "Is there anything else?") []
  end.

(** A model that calls [complete] with a day that is not a day. *)
Definition careless (n : nat) (msgs : list message) : response :=
  Reply (CText EmptyString) [ToolCall "complete" acme_funday "call_1"].

(** A model that greets, then calls [complete] with a day that is not a
    day, and then calls it with the scenario's payload under the id of the
    call that was turned down. *)
Definition repeater (n : nat) (msgs : list message) : response :=
  match n with
  | 0 => Reply (CText "Hello! What is your business name?") []
  | 1 => Reply (CText EmptyString) [ToolCall "complete" acme_funday "call_1"]
  | _ => Reply (CText "All set.") [ToolCall "complete" acme "call_1"]
  end.

(** A model that greets, then completes on its second request. *)
Definition finisher (n : nat) (msgs : list message) : response :=
  match n with
  | O => Reply (CText "Hello! What is your business name?") []
  | _ => Reply (CText EmptyString) [ToolCall "complete" acme "call_1"]
  end.

(** A model that echoes a business name in its first answer. *)
Definition namer (n : nat) (msgs : list message) : response :=
  match n with
  | O => Reply (CText "Your business name: Acme") []
  | _ => Reply (CText "What services do you offer?") []
  end.

(** The run of the string-matching entry point with [namer] on the lines
    "hi" and "there": what happens before the second request, the messages
    of that request, and what happens after it. *)
Definition namer_first : list message :=
  [@Chatbot.systemMessage (around namer) Chatbot.empty; HumanMessage "hi"].

Definition namer_before : list event :=
  [EvRead "hi"; EvSubmit (HumanMessage "hi"); EvInvoke namer_first;
   EvReply (AIMessage (CText "Your business name: Acme") []);
   EvPrint Yellow "Bot: Your business name: Acme";
   EvRead "there"; EvSubmit (HumanMessage "there")].

Definition namer_second : list message :=
  [@Chatbot.systemMessage (around namer)
     {| Chatbot.businessName := Some "Acme";
        Chatbot.firstServices := None; Chatbot.businessHours := None;
        Chatbot.yourEmailAddress := None;
        Chatbot.doYouWantUsToTakePaymentsDirectlyFromYourCustomers := None |};
   HumanMessage "hi";
   AIMessage (CText "Your business name: Acme") [];
   HumanMessage "there"].

Definition namer_after : list event :=
  [EvReply (AIMessage (CText "What services do you offer?") []);
   EvPrint Yellow "Bot: What services do you offer?"].

(** A service whose second request fails. *)
Definition flaky (n : nat) (msgs : list message) : response :=
  match n with
  | 1 => Failure "503 overloaded"
  | _ => Reply (CText "Hello! What is your business name?") []
  end.

(** The run of the string-matching entry point with [flaky]: what happens
    before the second request, and the messages of that request. *)
Definition flaky_before : list event :=
  [EvRead "hi"; EvSubmit (HumanMessage "hi");
   EvInvoke [@Chatbot.systemMessage (around flaky) Chatbot.empty; HumanMessage "hi"];
   EvReply (AIMessage (CText "Hello! What is your business name?") []);
   EvPrint Yellow "Bot: Hello! What is your business name?";
   EvRead "again"; EvSubmit (HumanMessage "again")].

Definition flaky_second : list message :=
  [@Chatbot.systemMessage (around flaky) Chatbot.empty;
   HumanMessage "hi";
   AIMessage (CText "Hello! What is your business name?") [];
   HumanMessage "again"].

(** The run of the tool-calling entry point with [greeter], up to the
    first prompt. *)
Definition greeter_before : list event :=
  [EvSubmit seed;
   EvInvoke [@Instructor.systemMessage (around greeter); seed];
   EvReply (AIMessage (CText "Hello! What is your business name?") []);
   EvPrint Yellow "Bot: Hello! What is your business name?"].

(** A model that asks for the business name with a colon at the end. *)
Definition asker (n : nat) (msgs : list message) : response :=
  Reply (CText "What is your business name: ") [].

(** A state of the string-matching entry point in which a business name
    has been collected. *)
Definition knows_acme : world Chatbot.Process :=
  World {| Chatbot.checkpointer :=
             {| Chatbot.messages :=
                  [HumanMessage "hello";
                   AIMessage (CText "Your business name: Acme") []];
                Chatbot.onboardingData :=
                  {| Chatbot.businessName := Some "Acme";
                     Chatbot.firstServices := None; Chatbot.businessHours := None;
                     Chatbot.yourEmailAddress := None;
                     Chatbot.doYouWantUsToTakePaymentsDirectlyFromYourCustomers :=
                       None |} |};
           Chatbot.conversationHistory :=
             [HumanMessage "hello";
              AIMessage (CText "Your business name: Acme") []] |}
        1 [].

End Examples.

(** * Properties *)

(** ** Schema validation of the [complete] tool *)

Lemma mem_string_In (k : string) (ks : list string) :
  mem_string k ks = true <-> In k ks.
Proof.
  unfold mem_string. rewrite existsb_exists. split.
  - intros [x [Hx He]]. apply String.eqb_eq in He. now subst.
  - intros Hk. exists k. split; [assumption | apply String.eqb_refl].
Qed.

Lemma obj_get_keys (k : string) (fields : list (string * json)) :
  In k (obj_keys fields) <-> exists v, obj_get k fields = Some v.
Proof.
  induction fields as [|[k' v] fields IH]; simpl.
  - split; [tauto | intros [v Hv]; discriminate].
  - destruct (String.eqb_spec k' k) as [->|Hne].
    + split; [intros _; now exists v | now left].
    + rewrite IH. split; [intros [Hk|Hk]; [contradiction | assumption] | now right].
Qed.

Section KeywordLemmas.
Context `{Environment}.

Lemma validate_keyword keywords instance (kw : string) (arg : json) :
  validate (JObj keywords) instance = true ->
  In (kw, arg) keywords ->
  keyword_holds validate keywords instance kw arg = true.
Proof.
  intros V Hin. simpl in V. rewrite forallb_forall in V.
  exact (V (kw, arg) Hin).
Qed.

Lemma validate_type keywords instance (t : string) :
  validate (JObj keywords) instance = true ->
  In ("type", JStr t) keywords -> has_type t instance = true.
Proof. intros V Hin. exact (validate_keyword _ _ _ _ V Hin). Qed.

Lemma validate_required keywords (names : list json) fields (k : string) :
  validate (JObj keywords) (JObj fields) = true ->
  In ("required", JArr names) keywords ->
  In (JStr k) names -> In k (obj_keys fields).
Proof.
  intros V Hin Hk. apply (validate_keyword _ _ _ _ V) in Hin.
  cbn in Hin. rewrite forallb_forall in Hin.
  apply mem_string_In. exact (Hin (JStr k) Hk).
Qed.

Lemma validate_closed keywords fields (k : string) :
  validate (JObj keywords) (JObj fields) = true ->
  In ("additionalProperties", JBool false) keywords ->
  In k (obj_keys fields) -> In k (declared keywords).
Proof.
  intros V Hin Hk. apply (validate_keyword _ _ _ _ V) in Hin.
  cbn in Hin. rewrite forallb_forall in Hin.
  apply in_map_iff in Hk. destruct Hk as [[k' x] [<- Hx]].
  specialize (Hin _ Hx). cbn in Hin. rewrite orb_false_r in Hin.
  now apply mem_string_In.
Qed.

Lemma validate_property keywords props fields (p : string) (sub x : json) :
  validate (JObj keywords) (JObj fields) = true ->
  In ("properties", JObj props) keywords ->
  In (p, sub) props -> obj_get p fields = Some x -> validate sub x = true.
Proof.
  intros V Hin Hp Hx. apply (validate_keyword _ _ _ _ V) in Hin.
  cbn in Hin. rewrite forallb_forall in Hin.
  specialize (Hin _ Hp). cbn in Hin. now rewrite Hx in Hin.
Qed.

Lemma validate_items keywords (sub : json) elements (e : json) :
  validate (JObj keywords) (JArr elements) = true ->
  In ("items", sub) keywords ->
  In e elements -> validate sub e = true.
Proof.
  intros V Hin He. apply (validate_keyword _ _ _ _ V) in Hin.
  cbn in Hin. rewrite forallb_forall in Hin. exact (Hin e He).
Qed.

Lemma validate_enum keywords instance (allowed : list json) :
  validate (JObj keywords) instance = true ->
  In ("enum", JArr allowed) keywords ->
  exists a, In a allowed /\ json_eqb instance a = true.
Proof.
  intros V Hin. apply (validate_keyword _ _ _ _ V) in Hin.
  cbn in Hin. now apply existsb_exists in Hin.
Qed.

Lemma json_eqb_string (v : json) (s : string) :
  json_eqb v (JStr s) = true -> v = JStr s.
Proof.
  destruct v; simpl; try discriminate.
  intros Heq. apply String.eqb_eq in Heq. now subst.
Qed.

Lemma has_type_object (v : json) :
  has_type "object" v = true -> exists fields, v = JObj fields.
Proof. destruct v; simpl; try discriminate. intros _. now eexists. Qed.

Lemma has_type_array (v : json) :
  has_type "array" v = true -> exists elements, v = JArr elements.
Proof. destruct v; simpl; try discriminate. intros _. now eexists. Qed.

(** What an accepted payload looks like. *)
Lemma accepted_shape (payload : json) :
  validate onboardInstructorEssentialsSchema payload = true ->
  (forall k, In k requiredFields -> get_prop k payload <> None)
  /\ (forall k, In k (prop_names payload) -> In k requiredFields)
  /\ (forall fs k, get_prop "firstServices" payload = Some fs ->
                   In k (prop_names fs) -> In k serviceFields)
  /\ (forall hours e, get_prop "businessHours" payload = Some (JArr hours) ->
                      In e hours ->
                      (forall k, In k (prop_names e) -> In k hoursFields)
                      /\ (forall d, get_prop "dayOfWeek" e = Some d ->
                                    exists name, In name dayNames /\ d = JStr name)).
Proof.
  intros V. unfold onboardInstructorEssentialsSchema in V.
  destruct (has_type_object _ (validate_type _ _ _ V (or_introl eq_refl)))
    as [fields ->].
  simpl get_prop. simpl prop_names.
  split; [ | split; [ | split; [ | intros hours e H0 H1; split ] ] ].
  - intros k Hk Hnone.
    assert (Hin : In k (obj_keys fields)).
    { eapply (validate_required _ _ _ _ V); [ simpl; tauto | ].
      unfold strings. now apply in_map. }
    apply obj_get_keys in Hin. destruct Hin as [v Hv]. congruence.
  - intros k Hk.
    eapply (validate_closed _ _ _ V) in Hk; [ exact Hk | simpl; tauto ].
  - intros fs k Hfs Hk.
    eapply (validate_property _ _ _ _ _ _ V) in Hfs;
      [ | simpl; right; left; reflexivity | simpl; right; left; reflexivity ].
    destruct (has_type_object _ (validate_type _ _ _ Hfs (or_introl eq_refl)))
      as [sfields ->].
    eapply (validate_closed _ _ _ Hfs) in Hk; [ exact Hk | simpl; tauto ].
  - intros k Hk.
    eapply (validate_property _ _ _ _ _ _ V) in H0;
      [ | simpl; right; left; reflexivity | simpl; right; right; left; reflexivity ].
    eapply (validate_items _ _ _ _ H0) in H1; [ | simpl; right; left; reflexivity ].
    destruct (has_type_object _ (validate_type _ _ _ H1 (or_introl eq_refl)))
      as [efields ->].
    eapply (validate_closed _ _ _ H1) in Hk; [ exact Hk | simpl; tauto ].
  - intros d Hd.
    eapply (validate_property _ _ _ _ _ _ V) in H0;
      [ | simpl; right; left; reflexivity | simpl; right; right; left; reflexivity ].
    eapply (validate_items _ _ _ _ H0) in H1; [ | simpl; right; left; reflexivity ].
    destruct (has_type_object _ (validate_type _ _ _ H1 (or_introl eq_refl)))
      as [efields ->].
    simpl in Hd.
    eapply (validate_property _ _ _ _ _ _ H1) in Hd;
      [ | simpl; right; left; reflexivity | simpl; right; right; left; reflexivity ].
    destruct (validate_enum _ _ _ Hd (or_intror (or_introl eq_refl)))
      as [a [Ha Heq]].
    unfold strings in Ha. apply in_map_iff in Ha. destruct Ha as [name [<- Hname]].
    exists name. split; [ assumption | now apply json_eqb_string ].
Qed.

End KeywordLemmas.

(** ** String built-ins *)

Local Notation "a +++ b" := (String.append a b) (at level 60, right associativity).

Lemma append_assoc (a b c : string) : (a +++ b) +++ c = a +++ (b +++ c).
Proof. induction a as [|x a IH]; simpl; [ reflexivity | now rewrite IH ]. Qed.

Lemma append_nil_r (a : string) : a +++ EmptyString = a.
Proof. induction a as [|x a IH]; simpl; [ reflexivity | now rewrite IH ]. Qed.

Lemma occurrences_append (c : ascii) (a b : string) :
  JsString.occurrences c (a +++ b)
  = JsString.occurrences c a + JsString.occurrences c b.
Proof. induction a as [|x a IH]; simpl; [ reflexivity | rewrite IH; lia ]. Qed.

Lemma prefix_append (needle hay : string) :
  String.prefix needle hay = true <-> exists post, hay = needle +++ post.
Proof.
  revert hay. induction needle as [|a needle IH]; intros hay.
  - destruct hay; simpl; split; intros _; try reflexivity; now eexists.
  - destruct hay as [|b hay]; simpl.
    + split; [ discriminate | intros [post Hpost]; discriminate ].
    + destruct (ascii_dec a b) as [->|Hne].
      * rewrite IH. split; intros [post Hpost]; exists post; congruence.
      * split; [ discriminate | intros [post Hpost]; congruence ].
Qed.

Lemma includes_contains (hay needle : string) :
  JsString.includes hay needle = true <-> JsString.contains hay needle.
Proof.
  unfold JsString.contains. induction hay as [|c hay IH]; cbn [JsString.includes].
  - rewrite prefix_append. split.
    + intros [post Hpost]. now exists EmptyString, post.
    + intros [pre [post Heq]]. destruct pre; simpl in Heq.
      * now exists post.
      * discriminate.
  - rewrite orb_true_iff, IH, prefix_append. split.
    + intros [[post Hpost] | [pre [post Heq]]].
      * now exists EmptyString, post.
      * exists (String c pre), post. simpl. now rewrite Heq.
    + intros [pre [post Heq]]. destruct pre as [|c' pre]; simpl in Heq.
      * left. now exists post.
      * right. exists pre, post. simpl. congruence.
Qed.

(** The first piece of a split holds no separator; the remaining pieces are
    the split of what follows the first separator. *)
Lemma split_first (sep : ascii) (s : string) :
  exists piece pieces,
    JsString.split sep s = piece :: pieces
    /\ ~ JsString.contains piece (String sep EmptyString)
    /\ ((pieces = [] /\ s = piece)
        \/ exists s', s = piece +++ String sep s' /\ pieces = JsString.split sep s').
Proof.
  induction s as [|c s IH]; simpl.
  - exists EmptyString, []. split; [ reflexivity | ]. split.
    + intros [pre [post Heq]]. destruct pre; discriminate.
    + now left.
  - destruct (Ascii.eqb_spec c sep) as [->|Hne].
    + exists EmptyString, (JsString.split sep s). split; [ reflexivity | ]. split.
      * intros [pre [post Heq]]. destruct pre; discriminate.
      * right. now exists s.
    + destruct IH as [piece [pieces [Hsplit [Hfree Hrest]]]]. rewrite Hsplit.
      exists (String c piece), pieces. split; [ reflexivity | ]. split.
      * intros [pre [post Heq]]. destruct pre as [|c' pre]; simpl in Heq.
        -- congruence.
        -- apply Hfree. exists pre, post. simpl. congruence.
      * destruct Hrest as [[-> ->] | [s' [-> ->]]]; [ now left | right ].
        now exists s'.
Qed.

(** [trimStart] removes the longest prefix of white space. *)
Lemma trimStart_spec (s : string) :
  exists lead,
    s = lead +++ JsString.trimStart s
    /\ JsString.all_white lead = true
    /\ JsString.starts_white (JsString.trimStart s) = false.
Proof.
  induction s as [|c s IH]; cbn [JsString.trimStart].
  - now exists EmptyString.
  - destruct (JsString.isWhiteSpace c) eqn:Hc.
    + destruct IH as [lead [Hs [Hlead Hstart]]].
      exists (String c lead). cbn. rewrite Hc, Hlead. repeat split; try assumption.
      now rewrite <- Hs.
    + exists EmptyString. cbn. now rewrite Hc.
Qed.

(** [trimEnd] removes the longest suffix of white space. *)
Lemma trimEnd_spec (s : string) :
  exists trail,
    s = JsString.trimEnd s +++ trail
    /\ JsString.all_white trail = true
    /\ JsString.ends_white (JsString.trimEnd s) = false.
Proof.
  induction s as [|c s IH]; cbn [JsString.trimEnd].
  - now exists EmptyString.
  - destruct IH as [trail [Hs [Htrail Hend]]].
    destruct (JsString.trimEnd s) as [|d t] eqn:Ht.
    + destruct (JsString.isWhiteSpace c) eqn:Hc.
      * exists (String c trail). cbn in *. rewrite Hc, Htrail. subst s.
        repeat split.
      * exists trail. cbn in *. rewrite Hc. subst s. repeat split. assumption.
    + exists trail. repeat split; try assumption.
      rewrite Hs at 1. reflexivity.
Qed.

Lemma trimEnd_keeps_start (s : string) :
  JsString.starts_white s = false ->
  JsString.starts_white (JsString.trimEnd s) = false.
Proof.
  destruct s as [|c s]; [ easy | ]. cbn [JsString.starts_white JsString.trimEnd].
  intros Hc. destruct (JsString.trimEnd s); [ rewrite Hc | ]; cbn; auto.
Qed.

(** [trim] strips the white space around a string and nothing else. *)
Lemma trim_spec (s : string) :
  exists lead trail,
    s = lead +++ JsString.trim s +++ trail
    /\ JsString.all_white lead = true
    /\ JsString.all_white trail = true
    /\ JsString.starts_white (JsString.trim s) = false
    /\ JsString.ends_white (JsString.trim s) = false.
Proof.
  unfold JsString.trim.
  destruct (trimStart_spec s) as [lead [Hs [Hlead Hstart]]].
  destruct (trimEnd_spec (JsString.trimStart s)) as [trail [Ht [Htrail Hend]]].
  exists lead, trail. repeat split; try assumption.
  - now rewrite <- Ht.
  - now apply trimEnd_keeps_start.
Qed.

(** ** The string-matching entry point: routing and parsing *)

Lemma shouldContinue_end (state : Chatbot.State) :
  Chatbot.shouldContinue state = "__end__".
Proof.
  unfold Chatbot.shouldContinue.
  now destruct (_ && _).
Qed.

(** What [parseResponseForData] returns: it never throws, it leaves the four
    fields other than [businessName] out, and [businessName] is the trimmed
    second piece of the content split at [":"]. *)
Lemma parseResponseForData_shape `{Environment} (c : content) :
  exists newData,
    Chatbot.parseResponseForData c = Ok newData
    /\ Chatbot.firstServices newData = None
    /\ Chatbot.businessHours newData = None
    /\ Chatbot.yourEmailAddress newData = None
    /\ Chatbot.doYouWantUsToTakePaymentsDirectlyFromYourCustomers newData = None
    /\ (Chatbot.businessName newData <> None <->
        JsString.contains (Chatbot.contentString c) "business name"
        /\ JsString.contains (Chatbot.contentString c) ":")
    /\ (forall name, Chatbot.businessName newData = Some name ->
        exists before between rest,
          Chatbot.contentString c = (before ++ ":" ++ between ++ rest)%string
          /\ ~ JsString.contains before ":"
          /\ ~ JsString.contains between ":"
          /\ (rest = EmptyString \/ exists rest', rest = (":" ++ rest')%string)
          /\ name = JsString.trim between).
Proof.
  unfold Chatbot.parseResponseForData.
  set (s := Chatbot.contentString c).
  destruct (JsString.includes s "business name") eqn:Hname;
    destruct (JsString.includes s ":") eqn:Hcolon; cbn [andb].
  2-4: exists Chatbot.empty; repeat (split; [ reflexivity | ]); split;
    [ split; [ intros Habs; now elim Habs
             | intros [Hn Hc]; apply includes_contains in Hn, Hc; congruence ]
    | discriminate ].
  apply includes_contains in Hname, Hcolon.
  destruct (split_first ":" s) as [before [pieces [Hsplit [Hbefore Hrest]]]].
  destruct Hrest as [[-> Hs] | [s' [Hs ->]]]; [ now rewrite Hs in Hcolon | ].
  destruct (split_first ":" s') as [between [pieces' [Hsplit' [Hbetween Hrest']]]].
  rewrite Hsplit, Hsplit'. cbn [nth_error].
  eexists. repeat (split; [ reflexivity | ]). cbn [Chatbot.businessName]. split.
  - split; [ now intros _ | discriminate ].
  - intros name [= <-]. exists before, between.
    destruct Hrest' as [[_ Hs'] | [s'' [Hs' _]]].
    + exists EmptyString. rewrite Hs, Hs'. repeat split; try assumption; try now left.
      now rewrite append_nil_r.
    + exists (String ":" s''). rewrite Hs, Hs'.
      repeat split; try assumption. right. now exists s''.
Qed.

Lemma parseResponseForData_parsed `{Environment} (c : content) :
  Chatbot.parseResponseForData c = Ok (parsed c).
Proof.
  destruct (parseResponseForData_shape c) as [newData [Hparse _]].
  unfold parsed. now rewrite Hparse.
Qed.

(** ** Traces *)

Lemma transcript_of_app (a b : list event) :
  transcript_of (a ++ b) = transcript_of a ++ transcript_of b.
Proof. unfold transcript_of. apply flat_map_app. Qed.

Lemma requests_app (a b : list event) : requests (a ++ b) = requests a + requests b.
Proof. unfold requests. now rewrite filter_app, length_app. Qed.

Lemma answered_app `{Environment} (a b : list event) (n : nat) :
  answered n (a ++ b) <-> answered n a /\ answered (n + requests a) b.
Proof.
  revert n. induction a as [|e a IH]; intros n; simpl.
  - rewrite Nat.add_0_r. tauto.
  - destruct e; simpl; rewrite ?IH; unfold requests; simpl;
      rewrite ?Nat.add_succ_r; tauto.
Qed.

Lemma well_sent_app {D} (sys_of : D -> message) (learn : D -> event -> D)
  (a b : list event) (d : D) (history : list message) :
  well_sent sys_of learn d history (a ++ b) <->
  well_sent sys_of learn d history a
  /\ well_sent sys_of learn (fold_left learn a d) (history ++ transcript_of a) b.
Proof.
  revert d history. induction a as [|e a IH]; intros d history; simpl.
  - rewrite app_nil_r. tauto.
  - rewrite IH, <- app_assoc. tauto.
Qed.

(** A request found anywhere in a well-sent trace. *)
Lemma well_sent_at {D} (sys_of : D -> message) (learn : D -> event -> D)
  (tr before after : list event) (msgs : list message) (d : D) :
  well_sent sys_of learn d [] tr ->
  tr = before ++ EvInvoke msgs :: after ->
  msgs = sys_of (fold_left learn before d) :: transcript_of before.
Proof.
  intros Hsent ->. apply well_sent_app in Hsent. destruct Hsent as [_ Hsent].
  simpl in Hsent. tauto.
Qed.

(** A request found anywhere in an answered trace. *)
Lemma answered_at `{Environment} (tr before after : list event) (msgs : list message) :
  answered 0 tr ->
  tr = before ++ EvInvoke msgs :: after ->
  exists c calls, service (requests before) msgs = Reply c calls.
Proof.
  intros Hans ->. apply answered_app in Hans. destruct Hans as [_ Hans].
  simpl in Hans. tauto.
Qed.

(** Splitting a trace that ends with a known event. *)
Lemma snoc_split {A} (before after tr : list A) (x y : A) :
  before ++ x :: after = tr ++ [y] ->
  (after = [] /\ before = tr /\ x = y)
  \/ exists after', after = after' ++ [y] /\ tr = before ++ x :: after'.
Proof.
  intros Heq. destruct after as [|a after].
  - left. apply app_inj_tail in Heq. tauto.
  - right. destruct (exists_last (l := a :: after)) as [after' [z' Hz']];
      [ discriminate | ].
    rewrite Hz' in Heq. rewrite app_comm_cons, app_assoc in Heq.
    apply app_inj_tail in Heq. destruct Heq as [<- <-].
    exists after'. now rewrite Hz'.
Qed.

(** ** The tool-calling entry point, step by step *)

Lemma bind_ok {St A B} (c : M St A) (k : A -> M St B) (w w' : world St) (a : A) :
  c w = (Ok a, w') -> bind c k w = k a w'.
Proof. intros Hc. unfold bind. now rewrite Hc. Qed.

Lemma bind_throw {St A B} (c : M St A) (k : A -> M St B) (w w' : world St) (e : exn) :
  c w = (Throw e, w') -> bind c k w = (Throw e, w').
Proof. intros Hc. unfold bind. now rewrite Hc. Qed.

Lemma last_content_snoc (msgs : list message) (m : message) :
  last_content (msgs ++ [m]) = Ok (message_content m).
Proof. unfold last_content. now rewrite rev_app_distr. Qed.

Lemma last_content_answer (before : list message) (answer : message)
  (outputs : list message) :
  exists botResponse, last_content (before ++ answer :: outputs) = Ok botResponse.
Proof.
  destruct (exists_last (l := answer :: outputs)) as [front [m Hm]];
    [ discriminate | ].
  rewrite Hm, app_assoc, last_content_snoc. now eexists.
Qed.


Section InstructorSteps.
Context `{Environment}.
Import Instructor.

Lemma runToolCall_spec (call : tool_call) (w : world Process) :
  exists text name,
    runToolCall call w
    = (Ok (ToolMessage text name (call_id call)),
       World (if completes call then set_isCompleted true (store w) else store w)
             (invocations w)
             (trace w ++ tool_runs [call])).
Proof.
  unfold runToolCall, try_catch, tool_runs, onboardingCompleted.
  cbn [filter]. unfold completes. destruct w as [p n tr].
  destruct (call_name call =? "complete") eqn:Hname;
    [ destruct (validate onboardInstructorEssentialsSchema (call_args call)) | ];
    cbn; rewrite ?app_nil_r; do 2 eexists; reflexivity.
Qed.

Lemma tool_runs_cons (call : tool_call) (calls : list tool_call) :
  tool_runs (call :: calls) = tool_runs [call] ++ tool_runs calls.
Proof. unfold tool_runs. simpl. now destruct (completes call). Qed.

Lemma runToolCalls_spec (calls : list tool_call) (w : world Process) :
  exists outputs,
    forallb is_tool_message outputs = true
    /\ runToolCalls calls w
       = (Ok outputs,
          World (if existsb completes calls
                 then set_isCompleted true (store w) else store w)
                (invocations w)
                (trace w ++ tool_runs calls)).
Proof.
  revert w. induction calls as [|call calls IH]; intros w.
  - exists []. split; [ reflexivity | ]. destruct w. unfold tool_runs. simpl.
    now rewrite app_nil_r.
  - destruct (runToolCall_spec call w) as [text [name Hcall]].
    cbn [runToolCalls]. rewrite (bind_ok _ _ _ _ _ Hcall).
    match goal with |- context [bind (runToolCalls calls) _ ?w'] =>
      destruct (IH w') as [outputs [Htools Hcalls]] end.
    rewrite (bind_ok _ _ _ _ _ Hcalls). unfold ret.
    exists (ToolMessage text name (call_id call) :: outputs).
    split; [ exact Htools | ].
    rewrite (tool_runs_cons call calls). cbn [store invocations trace existsb].
    rewrite app_assoc.
    destruct w as [[flag saved history] n tr].
    destruct (completes call), (existsb completes calls); reflexivity.
Qed.

Lemma toolMessageIds_app (a b : list message) :
  toolMessageIds (a ++ b) = toolMessageIds a ++ toolMessageIds b.
Proof. unfold toolMessageIds. now rewrite flat_map_app. Qed.

(** The answer that the tool node works on does not count among the tool
    messages it looks for. *)
Lemma unanswered_answer (before : list message) (c : content)
  (calls asked : list tool_call) :
  unanswered (before ++ [AIMessage c calls]) asked = unanswered before asked.
Proof.
  unfold unanswered. rewrite toolMessageIds_app. cbn [toolMessageIds flat_map app].
  now rewrite app_nil_r.
Qed.

Lemma unanswered_line (saved : list message) (line : string)
  (asked : list tool_call) :
  unanswered (saved ++ [HumanMessage line]) asked = unanswered saved asked.
Proof.
  unfold unanswered. rewrite toolMessageIds_app. cbn [toolMessageIds flat_map app].
  now rewrite app_nil_r.
Qed.

(** With no tool message in the state every call is run. *)
Lemma unanswered_all (msgs : list message) (asked : list tool_call) :
  toolMessageIds msgs = [] -> unanswered msgs asked = asked.
Proof.
  intros Hnone. unfold unanswered. rewrite Hnone.
  induction asked as [|call asked IH]; [ reflexivity | ].
  cbn [filter mem_string existsb negb]. unfold mem_string. cbn [existsb negb].
  now f_equal.
Qed.

Ltac run_steps :=
  cbv beta iota zeta
    delta [app_invoke bind gets log_all log modify callModel model_invoke record
           lift ret throw store invocations trace update messages
           messages_reducer save push checkpointer isCompleted
           conversationHistory].

Lemma instructor_app_invoke_failure (input : list message) (w : world Process) (error : string) :
  let saved := messages (checkpointer (store w)) in
  let msgs := systemMessage :: saved ++ input in
  service (invocations w) msgs = Failure error ->
  app_invoke input w
  = (Throw (ServiceError error),
     World (save {| messages := saved ++ input |} (store w))
           (S (invocations w))
           (trace w ++ map EvSubmit input ++ [EvInvoke msgs])).
Proof.
  intros saved msgs Hfail. subst saved msgs. destruct w as [[flag [saved] history] n tr].
  run_steps. cbv beta iota zeta delta [store invocations trace checkpointer messages] in Hfail.
  rewrite Hfail. cbv beta iota. now rewrite <- app_assoc.
Qed.

Lemma instructor_app_invoke_reply (input : list message) (w : world Process)
  (c : content) (calls : list tool_call) :
  let saved := messages (checkpointer (store w)) in
  let msgs := systemMessage :: saved ++ input in
  service (invocations w) msgs = Reply c calls ->
  exists run outputs,
    run = unanswered (saved ++ input) calls
    /\ forallb is_tool_message outputs = true
    /\ app_invoke input w
       = (Ok {| messages := saved ++ input ++ AIMessage c calls :: outputs |},
          World {| isCompleted := isCompleted (store w) || existsb completes run;
                   checkpointer :=
                     {| messages := saved ++ input ++ AIMessage c calls :: outputs |};
                   conversationHistory := conversationHistory (store w) |}
                (S (invocations w))
                (trace w ++ map EvSubmit input
                   ++ [EvInvoke msgs; EvReply (AIMessage c calls)]
                   ++ tool_runs run ++ map EvToolMsg outputs)).
Proof.
  intros saved msgs Hreply. subst saved msgs. destruct w as [[flag [saved] history] n tr].
  run_steps. cbv beta iota zeta delta [store invocations trace checkpointer messages] in Hreply.
  rewrite Hreply. cbv beta iota.
  unfold shouldContinue, toolNodeForGraph. cbn [messages].
  rewrite rev_app_distr. cbn [rev app lastToolCalls].
  destruct calls as [|call calls].
  - exists [], []. split; [ reflexivity | ]. split; [ reflexivity | ].
    cbn [String.eqb Ascii.eqb Bool.eqb END].
    cbn [existsb map tool_runs filter app]. unfold tool_runs. cbn [filter map].
    rewrite orb_false_r, <- !app_assoc, ?app_nil_r. reflexivity.
  - cbn [String.eqb Ascii.eqb Bool.eqb].
    rewrite unanswered_answer.
    match goal with |- context [runToolCalls ?cs] =>
      match goal with |- context [bind (runToolCalls cs) _ ?w'] =>
        destruct (runToolCalls_spec cs w') as [outputs [Htools Hcalls]] end end.
    exists (unanswered (saved ++ input) (call :: calls)), outputs.
    split; [ reflexivity | ]. split; [ exact Htools | ].
    rewrite (bind_ok _ _ _ _ _ Hcalls). run_steps.
    rewrite <- !app_assoc. cbn [app].
    destruct (existsb completes (unanswered (saved ++ input) (call :: calls)));
      cbn [set_isCompleted]; rewrite ?orb_true_r, ?orb_false_r; reflexivity.
Qed.

(** One pass through the loop body when the line is the sentinel. *)
Lemma instructor_conversation_exit (line : string) (rest : list string) (w : world Process) :
  is_exit line = true ->
  conversation (line :: rest) w = (Ok Exited, record [EvRead line; EvClose] w).
Proof.
  intros Hexit. cbn [conversation]. rewrite Hexit. destruct w as [p n tr].
  run_steps. now rewrite <- app_assoc.
Qed.

(** One pass through the loop body when the service fails. *)
Lemma instructor_conversation_failure (line : string) (rest : list string)
  (w : world Process) (error : string) :
  let saved := messages (checkpointer (store w)) in
  let msgs := systemMessage :: saved ++ [HumanMessage line] in
  is_exit line = false ->
  service (invocations w) msgs = Failure error ->
  conversation (line :: rest) w
  = (Throw (ServiceError error),
     World {| isCompleted := isCompleted (store w);
              checkpointer := {| messages := saved ++ [HumanMessage line] |};
              conversationHistory :=
                conversationHistory (store w) ++ [HumanMessage line] |}
           (S (invocations w))
           (trace w ++ [EvRead line]
              ++ [EvSubmit (HumanMessage line); EvInvoke msgs])).
Proof.
  intros saved msgs Hexit Hfail. cbn [conversation]. rewrite Hexit.
  cbv beta iota zeta delta [bind log modify].
  match goal with |- context [app_invoke ?input ?w'] =>
    pose proof (instructor_app_invoke_failure input w' error Hfail) as Hstep end.
  cbv zeta in Hstep. rewrite Hstep. destruct w as [[flag [old] history] n tr].
  subst saved msgs. cbn. now rewrite <- !app_assoc.
Qed.

(** One pass through the loop body when the service answers; what the turn
    does is the same whatever lines wait behind the one it read. *)
Lemma instructor_conversation_turn (line : string)
  (w : world Process) (c : content) (calls : list tool_call) :
  let saved := messages (checkpointer (store w)) in
  let msgs := systemMessage :: saved ++ [HumanMessage line] in
  let answer := AIMessage c calls in
  is_exit line = false ->
  service (invocations w) msgs = Reply c calls ->
  exists run outputs botResponse,
    run = unanswered saved calls
    /\ forallb is_tool_message outputs = true
    /\ let w' :=
         World {| isCompleted := isCompleted (store w) || existsb completes run;
                  checkpointer :=
                    {| messages := saved ++ [HumanMessage line] ++ answer :: outputs |};
                  conversationHistory :=
                    conversationHistory (store w)
                      ++ [HumanMessage line; AIMessage botResponse []] |}
               (S (invocations w))
               (trace w ++ [EvRead line]
                  ++ [EvSubmit (HumanMessage line); EvInvoke msgs; EvReply answer]
                  ++ (tool_runs run ++ map EvToolMsg outputs
                        ++ [EvPrint Yellow (String.append "Bot: " (botText botResponse))]))
       in
       forall rest,
         conversation (line :: rest) w
         = if isCompleted (store w) || existsb completes run
           then (Ok Completed,
                 record [EvPrint Green "Onboarding completed!"; EvClose] w')
           else conversation rest w'.
Proof.
  intros saved msgs answer Hexit Hreply.
  destruct (instructor_app_invoke_reply [HumanMessage line]
              (World (push (HumanMessage line) (store w)) (invocations w)
                     (trace w ++ [EvRead line])) c calls Hreply)
    as [run [outputs [Hrun [Htools Hstep]]]].
  cbv zeta in Hstep.
  destruct w as [[flag [old] history] n tr]. subst saved msgs answer.
  cbn [store invocations trace checkpointer messages push isCompleted
       conversationHistory record map app] in *.
  destruct (last_content_answer (old ++ [HumanMessage line]) (AIMessage c calls) outputs)
    as [botResponse Hlast].
  rewrite <- app_assoc in Hlast. cbn [app] in Hlast.
  exists run, outputs, botResponse.
  split; [ now rewrite Hrun, unanswered_line | ]. split; [ exact Htools | ].
  intros rest. cbn [conversation]. rewrite Hexit.
  cbv beta iota zeta delta [bind log modify].
  cbn [store invocations trace checkpointer messages push isCompleted
       conversationHistory record map app].
  rewrite Hstep.
  cbv beta iota zeta delta [lift gets ret messages]. rewrite Hlast.
  cbn [store invocations trace checkpointer messages push isCompleted
       conversationHistory record map app].
  cbv beta iota zeta
    delta [bind log ret record push store invocations trace isCompleted
           checkpointer conversationHistory].
  destruct (flag || existsb completes run);
    cbv beta iota zeta delta [bind log ret record store invocations trace];
    repeat (rewrite <- app_assoc; cbn [app]); reflexivity.
Qed.

Lemma instructor_conversation_reply (line : string) (rest : list string)
  (w : world Process) (c : content) (calls : list tool_call) :
  let saved := messages (checkpointer (store w)) in
  let msgs := systemMessage :: saved ++ [HumanMessage line] in
  let answer := AIMessage c calls in
  is_exit line = false ->
  service (invocations w) msgs = Reply c calls ->
  exists run outputs botResponse,
    run = unanswered saved calls
    /\ forallb is_tool_message outputs = true
    /\ let w' :=
         World {| isCompleted := isCompleted (store w) || existsb completes run;
                  checkpointer :=
                    {| messages := saved ++ [HumanMessage line] ++ answer :: outputs |};
                  conversationHistory :=
                    conversationHistory (store w)
                      ++ [HumanMessage line; AIMessage botResponse []] |}
               (S (invocations w))
               (trace w ++ [EvRead line]
                  ++ [EvSubmit (HumanMessage line); EvInvoke msgs; EvReply answer]
                  ++ (tool_runs run ++ map EvToolMsg outputs
                        ++ [EvPrint Yellow (String.append "Bot: " (botText botResponse))]))
       in
       conversation (line :: rest) w
       = if isCompleted (store w) || existsb completes run
         then (Ok Completed,
               record [EvPrint Green "Onboarding completed!"; EvClose] w')
         else conversation rest w'.
Proof.
  intros saved msgs answer Hexit Hreply.
  destruct (instructor_conversation_turn line w c calls Hexit Hreply)
    as [run [outputs [botResponse [Hrun [Htools Hturn]]]]].
  exists run, outputs, botResponse. split; [ exact Hrun | ].
  split; [ exact Htools | ]. exact (Hturn rest).
Qed.

End InstructorSteps.

Section InstructorMain.
Context `{Environment}.
Import Instructor.

(** [main] when the request made for the seed message fails. *)
Lemma instructor_main_failure (inputs : list string) (error : string) :
  service 0 [systemMessage; seed] = Failure error ->
  main inputs initial
  = (Throw (ServiceError error),
     World {| isCompleted := false;
              checkpointer := {| messages := [seed] |};
              conversationHistory := [] |}
           1 [EvSubmit seed; EvInvoke [systemMessage; seed]]).
Proof.
  intros Hfail. unfold main.
  pose proof (instructor_app_invoke_failure [seed] initial error Hfail) as Hstep.
  cbv zeta in Hstep. fold seed. now rewrite (bind_throw _ _ _ _ _ Hstep).
Qed.

(** [main] when the request made for the seed message is answered. *)
Lemma instructor_main_reply (inputs : list string) (c : content) (calls : list tool_call) :
  let answer := AIMessage c calls in
  service 0 [systemMessage; seed] = Reply c calls ->
  exists outputs botResponse,
    forallb is_tool_message outputs = true
    /\ main inputs initial
       = conversation inputs
           (World {| isCompleted := existsb completes calls;
                     checkpointer := {| messages := [seed] ++ answer :: outputs |};
                     conversationHistory := [] |}
                  1
                  ([EvSubmit seed; EvInvoke [systemMessage; seed]; EvReply answer]
                     ++ (tool_runs calls ++ map EvToolMsg outputs
                           ++ [EvPrint Yellow
                                 (String.append "Bot: " (botText botResponse))]))).
Proof.
  intros answer Hreply. unfold main.
  destruct (instructor_app_invoke_reply [seed] initial c calls Hreply)
    as [run [outputs [Hrun [Htools Hstep]]]].
  cbv zeta in Hrun. rewrite unanswered_all in Hrun by reflexivity. subst run.
  cbv zeta in Hstep. fold seed. rewrite (bind_ok _ _ _ _ _ Hstep).
  destruct (last_content_answer [seed] (AIMessage c calls) outputs)
    as [botResponse Hlast].
  exists outputs, botResponse. split; [ exact Htools | ].
  cbn [messages store checkpointer initial app] in *.
  cbv beta iota zeta delta [bind lift log record]. rewrite Hlast.
  cbn [store invocations trace initial isCompleted conversationHistory map app orb].
  repeat (rewrite <- app_assoc; cbn [app]). reflexivity.
Qed.

End InstructorMain.

(** ** The string-matching entry point, step by step *)

Section ChatbotSteps.
Context `{Environment}.
Import Chatbot.

Lemma onboardingData_reducer_empty (d : PartialEssentials) :
  onboardingData_reducer d empty = d.
Proof. now destruct d. Qed.

Ltac run_steps :=
  cbv beta iota zeta
    delta [app_invoke agent recursionLimit bind gets log_all log modify callModel
           model_invoke record lift ret throw store invocations trace update
           messages onboardingData messages_reducer save push checkpointer
           conversationHistory message_content].

Lemma chatbot_app_invoke_failure (input : State) (w : world Process) (error : string) :
  let saved := checkpointer (store w) in
  let state := update saved input in
  let msgs := systemMessage (onboardingData state) :: messages state in
  service (invocations w) msgs = Failure error ->
  app_invoke input w
  = (Throw (ServiceError error),
     World (save state (store w))
           (S (invocations w))
           (trace w ++ map EvSubmit (messages input) ++ [EvInvoke msgs])).
Proof.
  intros saved state msgs Hfail. subst saved state msgs.
  destruct w as [[[old data] history] n tr], input as [new given].
  run_steps.
  cbv beta iota zeta
    delta [store invocations trace checkpointer messages onboardingData update
           messages_reducer] in Hfail.
  rewrite Hfail. cbv beta iota. now rewrite <- app_assoc.
Qed.

Lemma chatbot_app_invoke_reply (input : State) (w : world Process)
  (c : content) (calls : list tool_call) :
  let saved := checkpointer (store w) in
  let state := update saved input in
  let msgs := systemMessage (onboardingData state) :: messages state in
  let answer := AIMessage c calls in
  let final :=
    {| messages := messages state ++ [answer];
       onboardingData := onboardingData_reducer (onboardingData state) (parsed c) |} in
  service (invocations w) msgs = Reply c calls ->
  app_invoke input w
  = (Ok final,
     World (save final (store w))
           (S (invocations w))
           (trace w ++ map EvSubmit (messages input)
              ++ [EvInvoke msgs; EvReply answer])).
Proof.
  intros saved state msgs answer final Hreply. subst saved state msgs answer final.
  destruct w as [[[old data] history] n tr], input as [new given].
  run_steps.
  cbv beta iota zeta
    delta [store invocations trace checkpointer messages onboardingData update
           messages_reducer] in Hreply.
  rewrite Hreply. cbv beta iota. rewrite parseResponseForData_parsed.
  cbv beta iota. rewrite shouldContinue_end. cbn [String.eqb Ascii.eqb Bool.eqb].
  now rewrite <- !app_assoc.
Qed.

Lemma chatbot_conversation_exit (line : string) (rest : list string) (w : world Process) :
  is_exit line = true ->
  conversation (line :: rest) w = (Ok Exited, record [EvRead line; EvClose] w).
Proof.
  intros Hexit. cbn [conversation]. rewrite Hexit. destruct w as [p n tr].
  run_steps. now rewrite <- app_assoc.
Qed.

Lemma chatbot_conversation_failure (line : string) (rest : list string)
  (w : world Process) (error : string) :
  let saved := checkpointer (store w) in
  let msgs :=
    systemMessage (onboardingData saved) :: messages saved ++ [HumanMessage line] in
  is_exit line = false ->
  service (invocations w) msgs = Failure error ->
  conversation (line :: rest) w
  = (Throw (ServiceError error),
     World {| checkpointer :=
                {| messages := messages saved ++ [HumanMessage line];
                   onboardingData := onboardingData saved |};
              conversationHistory :=
                conversationHistory (store w) ++ [HumanMessage line] |}
           (S (invocations w))
           (trace w ++ [EvRead line]
              ++ [EvSubmit (HumanMessage line); EvInvoke msgs])).
Proof.
  intros saved msgs Hexit Hfail. subst saved msgs.
  cbn [conversation]. rewrite Hexit.
  cbv beta iota zeta delta [bind log modify].
  destruct w as [[[old data] history] n tr].
  cbn [store invocations trace checkpointer messages onboardingData] in Hfail.
  match goal with |- context [app_invoke ?input ?w'] =>
    pose proof (chatbot_app_invoke_failure input w' error) as Hstep end.
  cbv zeta in Hstep.
  cbn [store invocations trace checkpointer messages onboardingData update
       messages_reducer push record] in Hstep.
  rewrite onboardingData_reducer_empty in Hstep. specialize (Hstep Hfail).
  cbn [store invocations trace checkpointer messages onboardingData update
       messages_reducer push record].
  rewrite Hstep. unfold update, save, push, messages_reducer.
  cbn [messages onboardingData checkpointer conversationHistory map].
  rewrite onboardingData_reducer_empty.
  repeat (rewrite <- app_assoc; cbn [app]). reflexivity.
Qed.

Lemma chatbot_conversation_reply (line : string) (rest : list string)
  (w : world Process) (c : content) (calls : list tool_call) :
  let saved := checkpointer (store w) in
  let msgs :=
    systemMessage (onboardingData saved) :: messages saved ++ [HumanMessage line] in
  let answer := AIMessage c calls in
  is_exit line = false ->
  service (invocations w) msgs = Reply c calls ->
  conversation (line :: rest) w
  = conversation rest
      (World {| checkpointer :=
                  {| messages := messages saved ++ [HumanMessage line] ++ [answer];
                     onboardingData :=
                       onboardingData_reducer (onboardingData saved) (parsed c) |};
                conversationHistory :=
                  conversationHistory (store w)
                    ++ [HumanMessage line; AIMessage c []] |}
             (S (invocations w))
             (trace w ++ [EvRead line]
                ++ [EvSubmit (HumanMessage line); EvInvoke msgs; EvReply answer]
                ++ [EvPrint Yellow (String.append "Bot: " (botText c))])).
Proof.
  intros saved msgs answer Hexit Hreply. subst saved msgs answer.
  cbn [conversation]. rewrite Hexit.
  cbv beta iota zeta delta [bind log modify].
  destruct w as [[[old data] history] n tr].
  cbn [store invocations trace checkpointer messages onboardingData] in Hreply.
  match goal with |- context [app_invoke ?input ?w'] =>
    pose proof (chatbot_app_invoke_reply input w' c calls) as Hstep end.
  cbv zeta in Hstep.
  cbn [store invocations trace checkpointer messages onboardingData update
       messages_reducer push record] in Hstep.
  rewrite onboardingData_reducer_empty in Hstep. specialize (Hstep Hreply).
  cbn [store invocations trace checkpointer messages onboardingData update
       messages_reducer push record].
  rewrite Hstep. unfold update, save, push, messages_reducer.
  cbn [messages onboardingData checkpointer conversationHistory map].
  rewrite ?onboardingData_reducer_empty, last_content_snoc.
  cbv beta iota zeta delta [lift]. cbn [message_content].
  cbn [store invocations trace checkpointer messages onboardingData
       conversationHistory record].
  repeat (rewrite <- app_assoc; cbn [app]). reflexivity.
Qed.

End ChatbotSteps.

(** ** Keeping the trace and the state in agreement *)

Lemma requests_idle (evs : list event) :
  forallb idle evs = true -> requests evs = 0.
Proof.
  unfold requests. induction evs as [|e evs IH]; [ reflexivity | ].
  simpl. intros Hidle. apply andb_prop in Hidle. destruct Hidle as [He Hevs].
  destruct e; try discriminate; simpl; auto.
Qed.

Lemma answered_idle `{Environment} (evs : list event) (n : nat) :
  forallb idle evs = true -> answered n evs.
Proof.
  induction evs as [|e evs IH]; [ easy | ].
  simpl. intros Hidle. apply andb_prop in Hidle. destruct Hidle as [He Hevs].
  destruct e; try discriminate; simpl; auto.
Qed.

Section Soundness.
Context `{Environment} {St D : Type}.
Variables (saved_messages : St -> list message) (saved_data : St -> D).
Variables (sys_of : D -> message) (learn : D -> event -> D) (d0 : D).
Hypothesis learn_idle : forall d e, idle e = true -> learn d e = d.
Hypothesis learn_invoke : forall d msgs, learn d (EvInvoke msgs) = d.

Lemma fold_idle (evs : list event) (d : D) :
  forallb idle evs = true -> fold_left learn evs d = d.
Proof.
  revert d. induction evs as [|e evs IH]; intros d; [ reflexivity | ].
  simpl. intros Hidle. apply andb_prop in Hidle. destruct Hidle as [He Hevs].
  now rewrite learn_idle, IH.
Qed.

Lemma well_sent_idle (evs : list event) (d : D) (history : list message) :
  forallb idle evs = true -> well_sent sys_of learn d history evs.
Proof.
  revert d history. induction evs as [|e evs IH]; intros d history; [ easy | ].
  simpl. intros Hidle. apply andb_prop in Hidle. destruct Hidle as [He Hevs].
  split; [ destruct e; try discriminate; exact I | now apply IH ].
Qed.

(** Appending idle events that say nothing. *)
Lemma sound_idle (w : world St) (p' : St) (evs : list event) :
  sound saved_messages saved_data sys_of learn d0 w -> forallb idle evs = true -> transcript_of evs = [] ->
  saved_messages p' = saved_messages (store w) ->
  saved_data p' = saved_data (store w) ->
  sound saved_messages saved_data sys_of learn d0 (World p' (invocations w) (trace w ++ evs)).
Proof.
  intros [Hcount [Hsaved [Hdata [Hsent Hsys]]]] Hidle Hquiet Hm Hd.
  unfold sound. cbn [store invocations trace].
  rewrite requests_app, transcript_of_app, fold_left_app, Hquiet, app_nil_r.
  rewrite (requests_idle _ Hidle), (fold_idle _ _ Hidle), Nat.add_0_r.
  repeat split; try congruence.
  apply well_sent_app. split; [ assumption | now apply well_sent_idle ].
Qed.

Lemma answered_then_idle (tr evs : list event) :
  answered 0 tr -> forallb idle evs = true -> answered 0 (tr ++ evs).
Proof.
  intros Hans Hidle. apply answered_app. split; [ assumption | ].
  now apply answered_idle.
Qed.

(** A turn in which the service answers: idle events [pre], the message
    [h] submitted, the request, the answer, and idle events [post]. *)
Lemma sound_reply (w : world St) (p' : St) (pre post : list event)
  (h : message) (msgs : list message) (c : content) (calls : list tool_call) :
  sound saved_messages saved_data sys_of learn d0 w -> answered 0 (trace w) ->
  forallb idle pre = true -> transcript_of pre = [] ->
  forallb idle post = true ->
  forallb not_system (h :: transcript_of post) = true ->
  msgs = sys_of (saved_data (store w)) :: saved_messages (store w) ++ [h] ->
  service (invocations w) msgs = Reply c calls ->
  saved_messages p'
  = saved_messages (store w) ++ [h] ++ AIMessage c calls :: transcript_of post ->
  saved_data p' = learn (saved_data (store w)) (EvReply (AIMessage c calls)) ->
  let w' :=
    World p' (S (invocations w))
          (trace w ++ pre
             ++ [EvSubmit h; EvInvoke msgs; EvReply (AIMessage c calls)] ++ post) in
  sound saved_messages saved_data sys_of learn d0 w' /\ answered 0 (trace w').
Proof.
  intros [Hcount [Hsaved [Hdata [Hsent Hsys]]]] Hans Hpre Hquiet Hpost Hnosys
    Hmsgs Hreply Hm Hd w'.
  subst w'. unfold sound. cbn [store invocations trace].
  rewrite !requests_app, !transcript_of_app, !fold_left_app.
  rewrite (requests_idle _ Hpre), (requests_idle _ Hpost), Hquiet.
  rewrite (fold_idle pre _ Hpre), (fold_idle post _ Hpost).
  cbn [fold_left transcript_of flat_map said app requests filter is_invoke length].
  rewrite (learn_idle _ (EvSubmit h) eq_refl), learn_invoke.
  split; [ | apply answered_app; split; [ assumption | ];
             apply answered_app; split; [ now apply answered_idle | ];
             rewrite (requests_idle _ Hpre), Nat.add_0_r; cbn [app answered];
             rewrite <- Hcount; split; [ now exists c, calls | ];
             now apply answered_idle ].
  change (requests [EvSubmit h; EvInvoke msgs; EvReply (AIMessage c calls)]) with 1.
  repeat split.
  - lia.
  - rewrite Hm, Hsaved. reflexivity.
  - rewrite Hd, Hdata. reflexivity.
  - apply well_sent_app. split; [ assumption | ].
    apply well_sent_app. split; [ now apply well_sent_idle | ].
    rewrite (fold_idle pre _ Hpre), Hquiet, app_nil_r. cbn [app well_sent said].
    rewrite (learn_idle _ (EvSubmit h) eq_refl), learn_invoke.
    repeat split.
    + rewrite Hmsgs, Hdata, Hsaved. reflexivity.
    + now apply well_sent_idle.
  - rewrite forallb_app, Hsys. cbn [forallb] in *.
    apply andb_prop in Hnosys. destruct Hnosys as [Hh Hout].
    now rewrite Hh, Hout.
Qed.

(** A turn in which the service fails. *)
Lemma sound_failure (w : world St) (p' : St) (pre : list event)
  (h : message) (msgs : list message) (error : string) :
  sound saved_messages saved_data sys_of learn d0 w -> answered 0 (trace w) ->
  forallb idle pre = true -> transcript_of pre = [] ->
  not_system h = true ->
  msgs = sys_of (saved_data (store w)) :: saved_messages (store w) ++ [h] ->
  service (invocations w) msgs = Failure error ->
  saved_messages p' = saved_messages (store w) ++ [h] ->
  saved_data p' = saved_data (store w) ->
  let w' :=
    World p' (S (invocations w)) (trace w ++ pre ++ [EvSubmit h; EvInvoke msgs]) in
  sound saved_messages saved_data sys_of learn d0 w' /\ failed_last (trace w') error.
Proof.
  intros [Hcount [Hsaved [Hdata [Hsent Hsys]]]] Hans Hpre Hquiet Hnosys
    Hmsgs Hfail Hm Hd w'.
  subst w'. unfold sound. cbn [store invocations trace].
  rewrite !requests_app, !transcript_of_app, !fold_left_app.
  rewrite (requests_idle _ Hpre), Hquiet, (fold_idle pre _ Hpre).
  cbn [fold_left transcript_of flat_map said app requests filter is_invoke length].
  rewrite (learn_idle _ (EvSubmit h) eq_refl), learn_invoke.
  change (requests [EvSubmit h; EvInvoke msgs]) with 1.
  split.
  - repeat split.
    + lia.
    + rewrite Hm, Hsaved. reflexivity.
    + rewrite Hd, Hdata. reflexivity.
    + apply well_sent_app. split; [ assumption | ].
      apply well_sent_app. split; [ now apply well_sent_idle | ].
      rewrite (fold_idle pre _ Hpre), Hquiet, app_nil_r. cbn [app well_sent said].
      rewrite (learn_idle _ (EvSubmit h) eq_refl).
      repeat split. rewrite Hmsgs, Hdata, Hsaved. reflexivity.
    + rewrite forallb_app, Hsys. cbn [forallb]. now rewrite Hnosys.
  - exists (trace w ++ pre ++ [EvSubmit h]), msgs. repeat split.
    + now rewrite <- !app_assoc.
    + apply answered_app. split; [ assumption | ].
      apply answered_idle. rewrite forallb_app, Hpre. reflexivity.
    + rewrite !requests_app, (requests_idle _ Hpre). cbn. rewrite <- Hcount.
      now rewrite !Nat.add_0_r.
Qed.

Hypothesis sys_is_system : forall d, is_system (sys_of d) = true.

Lemma no_system_filter (l : list message) :
  forallb not_system l = true -> filter is_system l = [].
Proof.
  induction l as [|m l IH]; [ reflexivity | ].
  cbn [forallb filter]. intros Hl. apply andb_prop in Hl. destruct Hl as [Hm Hl].
  unfold not_system in Hm. apply negb_true_iff in Hm. rewrite Hm. now apply IH.
Qed.

(** Every request of a sound trace, also when a quiet tail follows it:
    the system message of the moment, once, then the whole conversation. *)
Lemma sound_request_shape (w : world St) (tail before after : list event)
  (msgs : list message) :
  sound saved_messages saved_data sys_of learn d0 w -> forallb idle tail = true -> transcript_of tail = [] ->
  trace w ++ tail = before ++ EvInvoke msgs :: after ->
  msgs = sys_of (fold_left learn before d0) :: transcript_of before
  /\ filter is_system msgs = [sys_of (fold_left learn before d0)].
Proof.
  intros [_ [_ [_ [Hsent Hsys]]]] Hidle Hquiet Heq.
  assert (Hall : well_sent sys_of learn d0 [] (trace w ++ tail)).
  { apply well_sent_app. split; [ assumption | now apply well_sent_idle ]. }
  pose proof (well_sent_at _ _ _ _ _ _ _ Hall Heq) as Hmsgs.
  split; [ exact Hmsgs | ].
  rewrite Hmsgs. cbn [filter]. rewrite sys_is_system. f_equal.
  apply no_system_filter.
  assert (Hsame : transcript_of (trace w)
                  = transcript_of before ++ transcript_of (EvInvoke msgs :: after)).
  { rewrite <- transcript_of_app, <- Heq, transcript_of_app, Hquiet.
    now rewrite app_nil_r. }
  rewrite Hsame, forallb_app in Hsys. apply andb_prop in Hsys. tauto.
Qed.

End Soundness.

(** ** Every run of the tool-calling entry point is sound *)

Section InstructorRuns.
Context `{Environment}.
Import Instructor.

Lemma tool_runs_idle (calls : list tool_call) :
  forallb idle (tool_runs calls) = true.
Proof. unfold tool_runs. induction (filter completes calls); simpl; auto. Qed.

Lemma tool_runs_quiet (calls : list tool_call) :
  transcript_of (tool_runs calls) = [].
Proof. unfold tool_runs. induction (filter completes calls); simpl; auto. Qed.

Lemma tool_messages_idle (outputs : list message) :
  forallb idle (map EvToolMsg outputs) = true.
Proof. induction outputs; simpl; auto. Qed.

Lemma tool_messages_said (outputs : list message) :
  transcript_of (map EvToolMsg outputs) = outputs.
Proof. induction outputs as [|m outputs IH]; simpl; [ | rewrite IH ]; auto. Qed.

Lemma tool_messages_not_system (outputs : list message) :
  forallb is_tool_message outputs = true -> forallb not_system outputs = true.
Proof.
  induction outputs as [|m outputs IH]; simpl; [ reflexivity | ].
  intros Htools. apply andb_prop in Htools. destruct Htools as [Hm Hrest].
  rewrite (IH Hrest). now destruct m.
Qed.

(** What follows the answer in a turn: tool runs, tool messages, a print. *)
Lemma after_answer_idle (calls : list tool_call) (outputs : list message)
  (text : string) :
  forallb idle (tool_runs calls ++ map EvToolMsg outputs ++ [EvPrint Yellow text])
  = true.
Proof. now rewrite !forallb_app, tool_runs_idle, tool_messages_idle. Qed.

Lemma after_answer_said (calls : list tool_call) (outputs : list message)
  (text : string) :
  transcript_of (tool_runs calls ++ map EvToolMsg outputs ++ [EvPrint Yellow text])
  = outputs.
Proof.
  now rewrite !transcript_of_app, tool_runs_quiet, tool_messages_said, app_nil_r.
Qed.

Lemma instructor_conversation_sound (inputs : list string) (w : world Process) :
  instructor_sound w -> answered 0 (trace w) ->
  instructor_sound (snd (conversation inputs w))
  /\ settled (fst (conversation inputs w)) (trace (snd (conversation inputs w))).
Proof.
  revert w. induction inputs as [|line rest IH]; intros w Hsound Hans.
  - split; assumption.
  - destruct (is_exit line) eqn:Hexit.
    + rewrite (instructor_conversation_exit _ _ _ Hexit). cbn [fst snd record].
      split.
      * now apply (sound_idle _ _ _ _ _ (fun d e _ => eq_refl) w (store w)).
      * now apply answered_then_idle.
    + destruct (service (invocations w)
                  (systemMessage :: messages (checkpointer (store w))
                     ++ [HumanMessage line])) as [c calls|error] eqn:Hservice.
      * destruct (instructor_conversation_reply line rest w c calls Hexit Hservice)
          as [run [outputs [botResponse [_ [Htools Hturn]]]]].
        cbv zeta in Hturn. rewrite Hturn. clear Hturn.
        match goal with |- context [conversation rest ?w1] => set (w' := w1) end.
        assert (Hw' : instructor_sound w' /\ answered 0 (trace w')).
        { apply (sound_reply _ _ _ _ _ (fun d e _ => eq_refl) (fun d m => eq_refl)
                   w _ [EvRead line] _ (HumanMessage line) _ c calls);
            try assumption; try reflexivity.
          - apply after_answer_idle.
          - rewrite after_answer_said. cbn [forallb]. 
            now rewrite tool_messages_not_system.
          - cbn [store checkpointer messages]. now rewrite after_answer_said. }
        destruct Hw' as [Hsound' Hans'].
        destruct (isCompleted (store w) || existsb completes run).
        -- cbn [fst snd record]. split.
           ++ now apply (sound_idle _ _ _ _ _ (fun d e _ => eq_refl) w' (store w')).
           ++ now apply answered_then_idle.
        -- now apply IH.
      * rewrite (instructor_conversation_failure line rest w error Hexit Hservice).
        cbn [fst snd settled].
        match goal with |- instructor_sound ?w1 /\ _ => set (w' := w1) end.
        assert (Hw' : instructor_sound w' /\ failed_last (trace w') error).
        { apply (sound_failure _ _ _ _ _ (fun d e _ => eq_refl) (fun d m => eq_refl)
                   w _ [EvRead line] (HumanMessage line) _ error);
            try assumption; reflexivity. }
        destruct Hw' as [Hsound' Hfailed]. split; [ assumption | ].
        now exists error.
Qed.

Lemma instructor_initial_sound : instructor_sound initial.
Proof. repeat split. Qed.

Lemma instructor_main_sound (inputs : list string) :
  instructor_sound (snd (main inputs initial))
  /\ settled (fst (main inputs initial)) (trace (snd (main inputs initial))).
Proof.
  destruct (service 0 [systemMessage; seed]) as [c calls|error] eqn:Hservice.
  - destruct (instructor_main_reply inputs c calls Hservice)
      as [outputs [botResponse [Htools Hmain]]].
    cbv zeta in Hmain. rewrite Hmain. clear Hmain.
    match goal with |- context [conversation inputs ?w1] => set (w' := w1) end.
    assert (Hw' : instructor_sound w' /\ answered 0 (trace w')).
    { apply (sound_reply _ _ _ _ _ (fun d e _ => eq_refl) (fun d m => eq_refl)
               initial _ [] _ seed _ c calls);
        try (exact instructor_initial_sound); try reflexivity; try exact I;
        try assumption.
      - apply after_answer_idle.
      - rewrite after_answer_said. cbn [forallb].
        now rewrite tool_messages_not_system.
      - cbn [store checkpointer messages]. now rewrite after_answer_said. }
    destruct Hw' as [Hsound' Hans']. now apply instructor_conversation_sound.
  - rewrite (instructor_main_failure inputs error Hservice). cbn [fst snd settled].
    match goal with |- instructor_sound ?w1 /\ _ => set (w' := w1) end.
    assert (Hw' : instructor_sound w' /\ failed_last (trace w') error).
    { apply (sound_failure _ _ _ _ _ (fun d e _ => eq_refl) (fun d m => eq_refl)
               initial _ [] seed _ error);
        try (exact instructor_initial_sound); try reflexivity; try exact I;
        assumption. }
    destruct Hw' as [Hsound' Hfailed]. split; [ assumption | ]. now exists error.
Qed.

End InstructorRuns.

(** ** Every run of the string-matching entry point is sound *)

Section ChatbotRuns.
Context `{Environment}.
Import Chatbot.

Lemma learn_idle (d : PartialEssentials) (e : event) :
  idle e = true -> learn d e = d.
Proof. destruct e; simpl; intros; try discriminate; reflexivity. Qed.

Lemma chatbot_conversation_sound (inputs : list string) (w : world Process) :
  chatbot_sound w -> answered 0 (trace w) ->
  chatbot_sound (snd (conversation inputs w))
  /\ settled (fst (conversation inputs w)) (trace (snd (conversation inputs w))).
Proof.
  revert w. induction inputs as [|line rest IH]; intros w Hsound Hans.
  - split; assumption.
  - destruct (is_exit line) eqn:Hexit.
    + rewrite (chatbot_conversation_exit _ _ _ Hexit). cbn [fst snd record].
      split.
      * now apply (sound_idle _ _ _ _ _ learn_idle w (store w)).
      * now apply answered_then_idle.
    + destruct (service (invocations w)
                  (systemMessage (onboardingData (checkpointer (store w)))
                     :: messages (checkpointer (store w)) ++ [HumanMessage line]))
        as [c calls|error] eqn:Hservice.
      * rewrite (chatbot_conversation_reply line rest w c calls Hexit Hservice).
        match goal with |- context [conversation rest ?w1] => set (w' := w1) end.
        assert (Hw' : chatbot_sound w' /\ answered 0 (trace w')).
        { apply (sound_reply _ _ _ _ _ learn_idle (fun d m => eq_refl)
                   w _ [EvRead line] _ (HumanMessage line) _ c calls);
            try assumption; reflexivity. }
        destruct Hw' as [Hsound' Hans']. now apply IH.
      * rewrite (chatbot_conversation_failure line rest w error Hexit Hservice).
        cbn [fst snd settled].
        match goal with |- chatbot_sound ?w1 /\ _ => set (w' := w1) end.
        assert (Hw' : chatbot_sound w' /\ failed_last (trace w') error).
        { apply (sound_failure _ _ _ _ _ learn_idle (fun d m => eq_refl)
                   w _ [EvRead line] (HumanMessage line) _ error);
            try assumption; reflexivity. }
        destruct Hw' as [Hsound' Hfailed]. split; [ assumption | ].
        now exists error.
Qed.

Lemma chatbot_initial_sound : chatbot_sound initial.
Proof. repeat split. Qed.

Lemma chatbot_main_sound (inputs : list string) :
  chatbot_sound (snd (main inputs initial))
  /\ settled (fst (main inputs initial)) (trace (snd (main inputs initial))).
Proof.
  apply chatbot_conversation_sound; [ exact chatbot_initial_sound | exact I ].
Qed.

End ChatbotRuns.

(** ** What soundness says about whole programs *)

Section Programs.
Context `{Environment}.

(** The top-level catch only adds the [console.error]. *)
Lemma instructor_program_trace (inputs : list string) :
  trace (snd (Instructor.program inputs))
  = trace (snd (Instructor.main inputs Instructor.initial))
      ++ match fst (Instructor.main inputs Instructor.initial) with
         | Ok _ => []
         | Throw e => [EvError e]
         end.
Proof.
  unfold Instructor.program.
  destruct (Instructor.main inputs Instructor.initial) as [[e|e] w]; cbn;
    now rewrite ?app_nil_r.
Qed.

Lemma chatbot_program_trace (inputs : list string) :
  trace (snd (Chatbot.program inputs))
  = trace (snd (Chatbot.main inputs Chatbot.initial))
      ++ match fst (Chatbot.main inputs Chatbot.initial) with
         | Ok _ => []
         | Throw e => [EvError e]
         end.
Proof.
  unfold Chatbot.program.
  destruct (Chatbot.main inputs Chatbot.initial) as [[e|e] w]; cbn;
    now rewrite ?app_nil_r.
Qed.

(** In a settled run, a request that the service failed is the last thing
    before the error is logged. *)
Lemma failed_request_is_last {A} (r : result A) (tr before after : list event)
  (msgs : list message) (error : string) :
  settled r tr ->
  tr ++ match r with Ok _ => [] | Throw e => [EvError e] end
  = before ++ EvInvoke msgs :: after ->
  service (requests before) msgs = Failure error ->
  r = Throw (ServiceError error) /\ after = [EvError (ServiceError error)].
Proof.
  intros Hsettled Heq Hfail. destruct r as [a|e]; cbn [settled] in Hsettled.
  - rewrite app_nil_r in Heq.
    destruct (answered_at _ _ _ _ Hsettled Heq) as [c [calls Hreply]]. congruence.
  - destruct Hsettled as [error' [-> [front [sent [Htr [Hans Hfail']]]]]].
    symmetry in Heq. apply snoc_split in Heq.
    destruct Heq as [[_ [_ Habs]] | [after' [-> Htr']]]; [ discriminate | ].
    rewrite Htr in Htr'. symmetry in Htr'. apply snoc_split in Htr'.
    destruct Htr' as [[-> [<- [= <-]]] | [after'' [-> Hfront]]].
    + assert (error' = error) as -> by congruence. now split.
    + destruct (answered_at _ _ _ _ Hans Hfront) as [c [calls Hreply]]. congruence.
Qed.

End Programs.

(** ** Traces and transcripts only grow *)

Section Growth.
Context `{Environment}.

Lemma instructor_app_invoke_grows (input : list message)
  (w : world Instructor.Process) :
  (exists ext, trace (snd (Instructor.app_invoke input w)) = trace w ++ ext)
  /\ exists more,
       Instructor.messages
         (Instructor.checkpointer (store (snd (Instructor.app_invoke input w))))
       = Instructor.messages (Instructor.checkpointer (store w)) ++ more.
Proof.
  destruct (service (invocations w)
              (Instructor.systemMessage
                 :: Instructor.messages (Instructor.checkpointer (store w)) ++ input))
    as [c calls|error] eqn:Hservice.
  - destruct (instructor_app_invoke_reply input w c calls Hservice)
      as [run [outputs [_ [_ Hstep]]]].
    cbv zeta in Hstep. rewrite Hstep. cbn. split; eexists; reflexivity.
  - rewrite (instructor_app_invoke_failure input w error Hservice).
    cbn. split; eexists; reflexivity.
Qed.

Lemma chatbot_app_invoke_grows (input : Chatbot.State) (w : world Chatbot.Process) :
  (exists ext, trace (snd (Chatbot.app_invoke input w)) = trace w ++ ext)
  /\ exists more,
       Chatbot.messages
         (Chatbot.checkpointer (store (snd (Chatbot.app_invoke input w))))
       = Chatbot.messages (Chatbot.checkpointer (store w)) ++ more.
Proof.
  destruct (service (invocations w)
              (Chatbot.systemMessage
                 (Chatbot.onboardingData
                    (Chatbot.update (Chatbot.checkpointer (store w)) input))
                 :: Chatbot.messages
                      (Chatbot.update (Chatbot.checkpointer (store w)) input)))
    as [c calls|error] eqn:Hservice.
  - rewrite (chatbot_app_invoke_reply input w c calls Hservice).
    cbn. unfold Chatbot.messages_reducer. rewrite <- app_assoc.
    split; eexists; reflexivity.
  - rewrite (chatbot_app_invoke_failure input w error Hservice).
    cbn. split; eexists; reflexivity.
Qed.

Lemma instructor_conversation_grows (inputs : list string)
  (w : world Instructor.Process) :
  (exists ext, trace (snd (Instructor.conversation inputs w)) = trace w ++ ext)
  /\ exists more,
       Instructor.messages
         (Instructor.checkpointer (store (snd (Instructor.conversation inputs w))))
       = Instructor.messages (Instructor.checkpointer (store w)) ++ more.
Proof.
  revert w. induction inputs as [|line rest IH]; intros w.
  - split; exists []; cbn; now rewrite app_nil_r.
  - destruct (is_exit line) eqn:Hexit.
    + rewrite (instructor_conversation_exit _ _ _ Hexit). cbn.
      split; [ eexists; reflexivity | exists []; now rewrite app_nil_r ].
    + destruct (service (invocations w)
                  (Instructor.systemMessage
                     :: Instructor.messages (Instructor.checkpointer (store w))
                     ++ [HumanMessage line])) as [c calls|error] eqn:Hservice.
      * destruct (instructor_conversation_reply line rest w c calls Hexit Hservice)
          as [run [outputs [botResponse [_ [_ Hturn]]]]].
        cbv zeta in Hturn. rewrite Hturn. clear Hturn.
        destruct (Instructor.isCompleted (store w) || existsb completes run).
        -- cbn. rewrite <- app_assoc. split; eexists; reflexivity.
        -- match goal with |- context [Instructor.conversation rest ?w1] =>
             destruct (IH w1) as [[ext Hext] [more Hmore]] end.
           rewrite Hext, Hmore. cbn [trace store Instructor.checkpointer
                                      Instructor.messages].
           rewrite <- !app_assoc. split; eexists; reflexivity.
      * rewrite (instructor_conversation_failure line rest w error Hexit Hservice).
        cbn. split; eexists; reflexivity.
Qed.

Lemma chatbot_conversation_grows (inputs : list string)
  (w : world Chatbot.Process) :
  (exists ext, trace (snd (Chatbot.conversation inputs w)) = trace w ++ ext)
  /\ exists more,
       Chatbot.messages
         (Chatbot.checkpointer (store (snd (Chatbot.conversation inputs w))))
       = Chatbot.messages (Chatbot.checkpointer (store w)) ++ more.
Proof.
  revert w. induction inputs as [|line rest IH]; intros w.
  - split; exists []; cbn; now rewrite app_nil_r.
  - destruct (is_exit line) eqn:Hexit.
    + rewrite (chatbot_conversation_exit _ _ _ Hexit). cbn.
      split; [ eexists; reflexivity | exists []; now rewrite app_nil_r ].
    + destruct (service (invocations w)
                  (Chatbot.systemMessage
                     (Chatbot.onboardingData (Chatbot.checkpointer (store w)))
                     :: Chatbot.messages (Chatbot.checkpointer (store w))
                     ++ [HumanMessage line])) as [c calls|error] eqn:Hservice.
      * rewrite (chatbot_conversation_reply line rest w c calls Hexit Hservice).
        match goal with |- context [Chatbot.conversation rest ?w1] =>
          destruct (IH w1) as [[ext Hext] [more Hmore]] end.
        rewrite Hext, Hmore. cbn [trace store Chatbot.checkpointer
                                   Chatbot.messages].
        rewrite <- !app_assoc. split; eexists; reflexivity.
      * rewrite (chatbot_conversation_failure line rest w error Hexit Hservice).
        cbn. split; eexists; reflexivity.
Qed.

End Growth.

(** * The claims *)

(** ** Schema validation *)

(** C1. The [complete] tool validates its payload against
    [onboardInstructorEssentialsSchema]: a payload is rejected, and the tool
    body does not run, when one of the five required top-level fields is
    missing, when a property that the schema does not declare is present at
    the top level, inside [firstServices] or inside an entry of
    [businessHours], or when an entry of [businessHours] has a [dayOfWeek]
    that is not one of the seven day names. *)
Theorem complete_rejects_malformed_payload `{Environment} (payload : json) :
  (exists k, In k requiredFields /\ get_prop k payload = None)
  \/ (exists k, In k (prop_names payload) /\ ~ In k requiredFields)
  \/ (exists fs k, get_prop "firstServices" payload = Some fs
                   /\ In k (prop_names fs) /\ ~ In k serviceFields)
  \/ (exists hours e k, get_prop "businessHours" payload = Some (JArr hours)
                        /\ In e hours /\ In k (prop_names e) /\ ~ In k hoursFields)
  \/ (exists hours e d, get_prop "businessHours" payload = Some (JArr hours)
                        /\ In e hours /\ get_prop "dayOfWeek" e = Some d
                        /\ forall name, In name dayNames -> d <> JStr name) ->
  validate onboardInstructorEssentialsSchema payload = false
  /\ forall w, Instructor.onboardingCompleted payload w
               = (Throw ToolInputParsingException, w).
Proof.
  intros Hbad.
  assert (Hrej : validate onboardInstructorEssentialsSchema payload = false).
  { destruct (validate onboardInstructorEssentialsSchema payload) eqn:V;
      [ exfalso | reflexivity ].
    destruct (accepted_shape _ V) as [Hreq [Htop [Hsvc Hhours]]].
    destruct Hbad as [[k [Hk Hnone]] | [[k [Hk Hnot]] | [[fs [k [Hfs [Hk Hnot]]]]
      | [[hours [e [k [Hh [He [Hk Hnot]]]]]] | [hours [e [d [Hh [He [Hd Hnot]]]]]]]]]].
    - exact (Hreq k Hk Hnone).
    - exact (Hnot (Htop k Hk)).
    - exact (Hnot (Hsvc fs k Hfs Hk)).
    - exact (Hnot (proj1 (Hhours hours e Hh He) k Hk)).
    - destruct (proj2 (Hhours hours e Hh He) d Hd) as [name [Hname ->]].
      exact (Hnot name Hname eq_refl). }
  split; [ exact Hrej | ].
  intros w. unfold Instructor.onboardingCompleted. now rewrite Hrej.
Qed.

Lemma complete_rejects_malformed_payload_witness :
  @validate (Examples.around Examples.greeter)
     onboardInstructorEssentialsSchema Examples.acme_funday = false
  /\ forall w,
       @Instructor.onboardingCompleted (Examples.around Examples.greeter)
          Examples.acme_funday w
       = (Throw ToolInputParsingException, w).
Proof.
  apply (@complete_rejects_malformed_payload
           (Examples.around Examples.greeter) Examples.acme_funday).
  do 4 right.
  exists [JObj [("startTime24hr", JStr "09:00"); ("endTime24hr", JStr "17:00");
                ("dayOfWeek", JStr "Funday")]].
  eexists. exists (JStr "Funday").
  split; [ reflexivity | ]. split; [ left; reflexivity | ]. split; [ reflexivity | ].
  intros name Hname Heq. simpl in Hname.
  repeat (destruct Hname as [<- | Hname]; [ discriminate Heq | ]). exact Hname.
Defined.

(** The payload of the specification's scenario is accepted. *)
Example complete_accepts_scenario_payload :
  @validate (Examples.around Examples.greeter)
     onboardInstructorEssentialsSchema Examples.acme = true.
Proof. reflexivity. Qed.

(** ** Routing and parsing in the string-matching entry point *)

(** C2. [shouldContinue] of onboarding-chatbot.ts answers ['__end__'] in
    every state, whether the collected [onboardingData] is complete or not. *)
Theorem chatbot_shouldContinue_always_ends (state : Chatbot.State) :
  Chatbot.shouldContinue state = "__end__".
Proof. exact (shouldContinue_end state). Qed.

(** C9, as amended.  [parseResponseForData] never throws and fills in at
    most [businessName]: the four other fields are absent; [businessName] is
    present exactly when the content contains ["business name"] and [":"];
    and it is then the trimmed text that follows the first [":"] and runs up
    to the second [":"], or to the end of the content when there is no
    second one. *)
Theorem parseResponseForData_only_businessName `{Environment} (c : content) :
  exists newData,
    Chatbot.parseResponseForData c = Ok newData
    /\ Chatbot.firstServices newData = None
    /\ Chatbot.businessHours newData = None
    /\ Chatbot.yourEmailAddress newData = None
    /\ Chatbot.doYouWantUsToTakePaymentsDirectlyFromYourCustomers newData = None
    /\ (Chatbot.businessName newData <> None <->
        JsString.contains (Chatbot.contentString c) "business name"
        /\ JsString.contains (Chatbot.contentString c) ":")
    /\ (forall name, Chatbot.businessName newData = Some name ->
        exists before between rest,
          Chatbot.contentString c = (before ++ ":" ++ between ++ rest)%string
          /\ ~ JsString.contains before ":"
          /\ ~ JsString.contains between ":"
          /\ (rest = EmptyString \/ exists rest', rest = (":" ++ rest')%string)
          /\ name = JsString.trim between).
Proof. exact (parseResponseForData_shape c). Qed.

Lemma parseResponseForData_only_businessName_witness :
  exists before between rest,
    "Your business name: Acme Cuts : welcome!"
    = (before ++ ":" ++ between ++ rest)%string
    /\ ~ JsString.contains before ":"
    /\ ~ JsString.contains between ":"
    /\ (rest = EmptyString \/ exists rest', rest = (":" ++ rest')%string)
    /\ "Acme Cuts" = JsString.trim between.
Proof.
  destruct (@parseResponseForData_only_businessName
              (Examples.around Examples.greeter)
              (CText "Your business name: Acme Cuts : welcome!"))
    as [newData [Hparse [_ [_ [_ [_ [_ Hname]]]]]]].
  apply Hname. vm_compute in Hparse. injection Hparse as <-. reflexivity.
Defined.

(** C9 as stated fails on a content with a single [":"]: the name is
    extracted although no second [":"] closes it. *)
Lemma parseResponseForData_single_colon_counterexample :
  @Chatbot.parseResponseForData (Examples.around Examples.greeter)
     (CText "business name: Acme")
  = Ok {| Chatbot.businessName := Some "Acme";
          Chatbot.firstServices := None; Chatbot.businessHours := None;
          Chatbot.yourEmailAddress := None;
          Chatbot.doYouWantUsToTakePaymentsDirectlyFromYourCustomers := None |}
  /\ ~ exists before between rest,
         "business name: Acme" = (before ++ ":" ++ between ++ ":" ++ rest)%string.
Proof.
  split; [ reflexivity | ].
  intros [before [between [rest Heq]]].
  apply (f_equal (JsString.occurrences ":")) in Heq.
  rewrite !occurrences_append in Heq. cbn in Heq. lia.
Qed.

(** ** The exit sentinel *)

Lemma toLowerCaseChar_exit (c : ascii) :
  (JsString.toLowerCaseChar c = "e"%char -> c = "e"%char \/ c = "E"%char)
  /\ (JsString.toLowerCaseChar c = "x"%char -> c = "x"%char \/ c = "X"%char)
  /\ (JsString.toLowerCaseChar c = "i"%char -> c = "i"%char \/ c = "I"%char)
  /\ (JsString.toLowerCaseChar c = "t"%char -> c = "t"%char \/ c = "T"%char).
Proof.
  destruct c as [[] [] [] [] [] [] [] []]; vm_compute;
    repeat split; intros Heq; try discriminate Heq; auto.
Qed.

(** The lines that the loop takes for the sentinel: the four letters of
    "exit", each in either case, and nothing else. *)
Lemma is_exit_spelling (line : string) :
  is_exit line = true <->
  exists e x i t,
    line = String e (String x (String i (String t EmptyString)))
    /\ (e = "e"%char \/ e = "E"%char) /\ (x = "x"%char \/ x = "X"%char)
    /\ (i = "i"%char \/ i = "I"%char) /\ (t = "t"%char \/ t = "T"%char).
Proof.
  unfold is_exit. rewrite String.eqb_eq. split.
  - intros Hlow.
    destruct line as [|e [|x [|i [|t [|more line]]]]]; try discriminate Hlow.
    cbn [JsString.toLowerCase] in Hlow. injection Hlow as He Hx Hi Ht.
    exists e, x, i, t. split; [ reflexivity | ].
    repeat split.
    + now apply (toLowerCaseChar_exit e).
    + now apply (toLowerCaseChar_exit x).
    + now apply (toLowerCaseChar_exit i).
    + now apply (toLowerCaseChar_exit t).
  - intros [e [x [i [t [-> [He [Hx [Hi Ht]]]]]]]].
    destruct He as [-> | ->], Hx as [-> | ->], Hi as [-> | ->], Ht as [-> | ->];
      reflexivity.
Qed.

(** What one turn of the loop of the tool-calling entry point comes to,
    whatever lines wait behind the line it reads. *)
Lemma instructor_turn_cases `{Environment} (line : string)
  (w : world Instructor.Process) :
  let saved := Instructor.messages (Instructor.checkpointer (store w)) in
  let msgs := Instructor.systemMessage :: saved ++ [HumanMessage line] in
  (is_exit line = true
   /\ forall rest,
        Instructor.conversation (line :: rest) w
        = (Ok Exited, World (store w) (invocations w)
                            (trace w ++ [EvRead line; EvClose])))
  \/ (is_exit line = false
      /\ exists error w1,
           service (invocations w) msgs = Failure error
           /\ forall rest,
                Instructor.conversation (line :: rest) w
                = (Throw (ServiceError error), w1))
  \/ (is_exit line = false
      /\ exists c calls w1,
           service (invocations w) msgs = Reply c calls
           /\ Instructor.isCompleted (store w)
              || existsb completes (Instructor.unanswered saved calls) = true
           /\ forall rest,
                Instructor.conversation (line :: rest) w = (Ok Completed, w1))
  \/ (is_exit line = false
      /\ exists c calls w1,
           service (invocations w) msgs = Reply c calls
           /\ Instructor.isCompleted (store w)
              || existsb completes (Instructor.unanswered saved calls) = false
           /\ forall rest,
                Instructor.conversation (line :: rest) w
                = Instructor.conversation rest w1).
Proof.
  intros saved msgs. destruct (is_exit line) eqn:Hexit.
  - left. split; [ reflexivity | ]. intros rest.
    now rewrite (instructor_conversation_exit _ _ _ Hexit).
  - right. destruct (service (invocations w) msgs) as [c calls|error] eqn:Hservice.
    + right.
      destruct (instructor_conversation_turn line w c calls Hexit Hservice)
        as [run [outputs [botResponse [Hrun [_ Hturn]]]]].
      cbv zeta in Hturn. subst saved msgs run.
      destruct (Instructor.isCompleted (store w)
                || existsb completes
                     (Instructor.unanswered
                        (Instructor.messages (Instructor.checkpointer (store w)))
                        calls)) eqn:Hflag.
      * left. split; [ reflexivity | ]. exists c, calls. eexists.
        split; [ reflexivity | ]. split; [ exact Hflag | exact Hturn ].
      * right. split; [ reflexivity | ]. exists c, calls. eexists.
        split; [ reflexivity | ]. split; [ exact Hflag | exact Hturn ].
    + left. split; [ reflexivity | ]. exists error. eexists.
      split; [ reflexivity | ]. intros rest.
      exact (instructor_conversation_failure line rest w error Hexit Hservice).
Qed.

(** The same for the loop of the string-matching entry point, which has no
    completion to stop at. *)
Lemma chatbot_turn_cases `{Environment} (line : string) (w : world Chatbot.Process) :
  let saved := Chatbot.checkpointer (store w) in
  let msgs :=
    Chatbot.systemMessage (Chatbot.onboardingData saved)
      :: Chatbot.messages saved ++ [HumanMessage line] in
  (is_exit line = true
   /\ forall rest,
        Chatbot.conversation (line :: rest) w
        = (Ok Exited, World (store w) (invocations w)
                            (trace w ++ [EvRead line; EvClose])))
  \/ (is_exit line = false
      /\ exists error w1,
           service (invocations w) msgs = Failure error
           /\ forall rest,
                Chatbot.conversation (line :: rest) w
                = (Throw (ServiceError error), w1))
  \/ (is_exit line = false
      /\ exists c calls w1,
           service (invocations w) msgs = Reply c calls
           /\ forall rest,
                Chatbot.conversation (line :: rest) w = Chatbot.conversation rest w1).
Proof.
  intros saved msgs. destruct (is_exit line) eqn:Hexit.
  - left. split; [ reflexivity | ]. intros rest.
    now rewrite (chatbot_conversation_exit _ _ _ Hexit).
  - right. destruct (service (invocations w) msgs) as [c calls|error] eqn:Hservice.
    + right. split; [ reflexivity | ]. exists c, calls. eexists.
      split; [ reflexivity | ]. intros rest.
      exact (chatbot_conversation_reply line rest w c calls Hexit Hservice).
    + left. split; [ reflexivity | ]. exists error. eexists.
      split; [ reflexivity | ]. intros rest.
      exact (chatbot_conversation_failure line rest w error Hexit Hservice).
Qed.

(** A turn that stops the loop whatever follows stops it with one outcome
    only. *)
Lemma stops_at_outcome {St : Type} (conversation : list string -> M St ending)
  (line : string) (w w0 : world St) (r0 : result ending) :
  (forall rest, conversation (line :: rest) w = (r0, w0)) ->
  forall r, stops_at conversation line w r <-> r = r0.
Proof.
  intros Hturn r. split.
  - intros [w' Hstop]. specialize (Hstop []). rewrite Hturn in Hstop. congruence.
  - intros ->. now exists w0.
Qed.

(** A turn after which the loop goes on to the next line does not end the
    session: what happens next depends on the lines that follow. *)
Lemma goes_on_never_stops {St : Type} (conversation : list string -> M St ending)
  (line : string) (w w1 : world St) :
  (forall rest, conversation (line :: rest) w = conversation rest w1) ->
  fst (conversation [] w1) = Ok InputClosed ->
  fst (conversation ["exit"] w1) = Ok Exited ->
  forall r, ~ stops_at conversation line w r.
Proof.
  intros Hturn Hnone Hexit r [w' Hstop].
  pose proof (Hstop []) as H0. pose proof (Hstop ["exit"]) as H1.
  rewrite Hturn in H0, H1. rewrite H0 in Hnone. rewrite H1 in Hexit.
  cbn [fst] in *. congruence.
Qed.

(** C3, as amended.  The sentinel is "exit" in any mix of cases.  The
    sentinel check is the first thing done with a line, before the request
    of the turn: on the sentinel both loops stop with [Exited], having only
    read the line and closed the reader (no request is sent, the state is
    untouched, the lines that follow are not read); on any other line both
    loops submit the line and send the request of the turn.  The session
    ends at a line with [Exited] exactly when the line is the sentinel; it
    also ends at a line that is not the sentinel, with the service's error
    exactly when the request of the turn fails and, in the tool-calling
    entry point only, with [Completed] exactly when the request is answered
    and the completion flag is set once the graph has run (it was set
    before, or the answer carries a call that the [complete] tool accepts and
    that has no tool message yet).  In no other case does a line end the
    session. *)
Theorem session_ends_at_sentinel_failure_or_completion `{Environment} (line : string) :
  (is_exit line = true <->
   exists e x i t,
     line = String e (String x (String i (String t EmptyString)))
     /\ (e = "e"%char \/ e = "E"%char) /\ (x = "x"%char \/ x = "X"%char)
     /\ (i = "i"%char \/ i = "I"%char) /\ (t = "t"%char \/ t = "T"%char))
  /\ (forall w : world Instructor.Process,
        let saved := Instructor.messages (Instructor.checkpointer (store w)) in
        let msgs := Instructor.systemMessage :: saved ++ [HumanMessage line] in
        (is_exit line = true ->
         forall rest,
           Instructor.conversation (line :: rest) w
           = (Ok Exited, World (store w) (invocations w)
                               (trace w ++ [EvRead line; EvClose])))
        /\ (is_exit line = false ->
            forall rest, exists tail,
              trace (snd (Instructor.conversation (line :: rest) w))
              = trace w
                  ++ [EvRead line; EvSubmit (HumanMessage line); EvInvoke msgs]
                  ++ tail)
        /\ (stops_at Instructor.conversation line w (Ok Exited)
            <-> is_exit line = true)
        /\ (forall e,
              stops_at Instructor.conversation line w (Throw e)
              <-> is_exit line = false
                  /\ exists error,
                       e = ServiceError error
                       /\ service (invocations w) msgs = Failure error)
        /\ (stops_at Instructor.conversation line w (Ok Completed)
            <-> is_exit line = false
                /\ exists c calls,
                     service (invocations w) msgs = Reply c calls
                     /\ Instructor.isCompleted (store w)
                        || existsb completes (Instructor.unanswered saved calls)
                        = true)
        /\ ~ stops_at Instructor.conversation line w (Ok InputClosed))
  /\ (forall w : world Chatbot.Process,
        let saved := Chatbot.checkpointer (store w) in
        let msgs :=
          Chatbot.systemMessage (Chatbot.onboardingData saved)
            :: Chatbot.messages saved ++ [HumanMessage line] in
        (is_exit line = true ->
         forall rest,
           Chatbot.conversation (line :: rest) w
           = (Ok Exited, World (store w) (invocations w)
                               (trace w ++ [EvRead line; EvClose])))
        /\ (is_exit line = false ->
            forall rest, exists tail,
              trace (snd (Chatbot.conversation (line :: rest) w))
              = trace w
                  ++ [EvRead line; EvSubmit (HumanMessage line); EvInvoke msgs]
                  ++ tail)
        /\ (stops_at Chatbot.conversation line w (Ok Exited)
            <-> is_exit line = true)
        /\ (forall e,
              stops_at Chatbot.conversation line w (Throw e)
              <-> is_exit line = false
                  /\ exists error,
                       e = ServiceError error
                       /\ service (invocations w) msgs = Failure error)
        /\ ~ stops_at Chatbot.conversation line w (Ok Completed)
        /\ ~ stops_at Chatbot.conversation line w (Ok InputClosed)).
Proof.
  split; [ apply is_exit_spelling | ]. split.
  - intros w. cbv zeta.
    assert (Hsent : is_exit line = false ->
              forall rest, exists tail,
                trace (snd (Instructor.conversation (line :: rest) w))
                = trace w
                    ++ [EvRead line; EvSubmit (HumanMessage line);
                        EvInvoke
                          (Instructor.systemMessage
                             :: Instructor.messages
                                  (Instructor.checkpointer (store w))
                             ++ [HumanMessage line])]
                    ++ tail).
    { intros Hexit rest.
      destruct (service (invocations w)
                  (Instructor.systemMessage
                     :: Instructor.messages (Instructor.checkpointer (store w))
                     ++ [HumanMessage line])) as [c calls|error] eqn:Hservice.
      - destruct (instructor_conversation_reply line rest w c calls Hexit Hservice)
          as [run [outputs [botResponse [_ [_ Hturn]]]]].
        cbv zeta in Hturn. rewrite Hturn. clear Hturn.
        destruct (Instructor.isCompleted (store w) || existsb completes run).
        + cbn [snd record trace]. rewrite <- !app_assoc. cbn [app].
          eexists. reflexivity.
        + match goal with |- context [Instructor.conversation rest ?w1] =>
            destruct (instructor_conversation_grows rest w1) as [[ext Hext] _] end.
          rewrite Hext. cbn [trace]. rewrite <- !app_assoc. cbn [app].
          eexists. reflexivity.
      - rewrite (instructor_conversation_failure line rest w error Hexit Hservice).
        cbn [snd trace app]. exists []. reflexivity. }
    destruct (instructor_turn_cases line w)
      as [[Hexit Hturn]
         |[[Hexit [error [w1 [Hservice Hturn]]]]
          |[[Hexit [c [calls [w1 [Hservice [Hflag Hturn]]]]]]
           |[Hexit [c [calls [w1 [Hservice [Hflag Hturn]]]]]]]]];
      (split; [ intros He; try exact Hturn; congruence | ]);
      (split; [ exact Hsent | ]).
    + pose proof (stops_at_outcome _ _ _ _ _ Hturn) as Hout.
      split; [ split; [ intros _; exact Hexit | intros _; now apply Hout ] | ].
      split; [ intros e; split;
                 [ intros Hstop; apply Hout in Hstop; discriminate Hstop
                 | intros [He _]; congruence ] | ].
      split; [ split; [ intros Hstop; apply Hout in Hstop; discriminate Hstop
                      | intros [He _]; congruence ] | ].
      intros Hstop. apply Hout in Hstop. discriminate Hstop.
    + pose proof (stops_at_outcome _ _ _ _ _ Hturn) as Hout.
      split; [ split; [ intros Hstop; apply Hout in Hstop; discriminate Hstop
                      | congruence ] | ].
      split.
      { intros e. split.
        - intros Hstop. apply Hout in Hstop. injection Hstop as ->.
          split; [ exact Hexit | ]. now exists error.
        - intros [_ [error' [-> Hfail]]]. apply Hout. congruence. }
      split.
      { split; [ intros Hstop; apply Hout in Hstop; discriminate Hstop | ].
        intros [_ [c [calls [Hreply _]]]]. congruence. }
      intros Hstop. apply Hout in Hstop. discriminate Hstop.
    + pose proof (stops_at_outcome _ _ _ _ _ Hturn) as Hout.
      split; [ split; [ intros Hstop; apply Hout in Hstop; discriminate Hstop
                      | congruence ] | ].
      split.
      { intros e. split; [ intros Hstop; apply Hout in Hstop; discriminate Hstop | ].
        intros [_ [error [_ Hfail]]]. congruence. }
      split.
      { split; [ | intros _; now apply Hout ].
        intros _. split; [ exact Hexit | ]. now exists c, calls. }
      intros Hstop. apply Hout in Hstop. discriminate Hstop.
    + assert (Hnever : forall r, ~ stops_at Instructor.conversation line w r).
      { apply (goes_on_never_stops _ _ _ _ Hturn); [ reflexivity | ].
        now rewrite (instructor_conversation_exit "exit" [] w1 eq_refl). }
      split; [ split; [ intros Hstop; now apply Hnever in Hstop | congruence ] | ].
      split.
      { intros e. split; [ intros Hstop; now apply Hnever in Hstop | ].
        intros [_ [error [_ Hfail]]]. congruence. }
      split.
      { split; [ intros Hstop; now apply Hnever in Hstop | ].
        intros [_ [c' [calls' [Hreply Hset]]]].
        rewrite Hservice in Hreply. injection Hreply as <- <-. congruence. }
      apply Hnever.
  - intros w. cbv zeta.
    assert (Hsent : is_exit line = false ->
              forall rest, exists tail,
                trace (snd (Chatbot.conversation (line :: rest) w))
                = trace w
                    ++ [EvRead line; EvSubmit (HumanMessage line);
                        EvInvoke
                          (Chatbot.systemMessage
                             (Chatbot.onboardingData (Chatbot.checkpointer (store w)))
                             :: Chatbot.messages (Chatbot.checkpointer (store w))
                             ++ [HumanMessage line])]
                    ++ tail).
    { intros Hexit rest.
      destruct (service (invocations w)
                  (Chatbot.systemMessage
                     (Chatbot.onboardingData (Chatbot.checkpointer (store w)))
                     :: Chatbot.messages (Chatbot.checkpointer (store w))
                     ++ [HumanMessage line])) as [c calls|error] eqn:Hservice.
      - rewrite (chatbot_conversation_reply line rest w c calls Hexit Hservice).
        match goal with |- context [Chatbot.conversation rest ?w1] =>
          destruct (chatbot_conversation_grows rest w1) as [[ext Hext] _] end.
        rewrite Hext. cbn [trace]. rewrite <- !app_assoc. cbn [app].
        eexists. reflexivity.
      - rewrite (chatbot_conversation_failure line rest w error Hexit Hservice).
        cbn [snd trace app]. exists []. reflexivity. }
    destruct (chatbot_turn_cases line w)
      as [[Hexit Hturn]
         |[[Hexit [error [w1 [Hservice Hturn]]]]
          |[Hexit [c [calls [w1 [Hservice Hturn]]]]]]];
      (split; [ intros He; try exact Hturn; congruence | ]);
      (split; [ exact Hsent | ]).
    + pose proof (stops_at_outcome _ _ _ _ _ Hturn) as Hout.
      split; [ split; [ intros _; exact Hexit | intros _; now apply Hout ] | ].
      split; [ intros e; split;
                 [ intros Hstop; apply Hout in Hstop; discriminate Hstop
                 | intros [He _]; congruence ] | ].
      split; intros Hstop; apply Hout in Hstop; discriminate Hstop.
    + pose proof (stops_at_outcome _ _ _ _ _ Hturn) as Hout.
      split; [ split; [ intros Hstop; apply Hout in Hstop; discriminate Hstop
                      | congruence ] | ].
      split.
      { intros e. split.
        - intros Hstop. apply Hout in Hstop. injection Hstop as ->.
          split; [ exact Hexit | ]. now exists error.
        - intros [_ [error' [-> Hfail]]]. apply Hout. congruence. }
      split; intros Hstop; apply Hout in Hstop; discriminate Hstop.
    + assert (Hnever : forall r, ~ stops_at Chatbot.conversation line w r).
      { apply (goes_on_never_stops _ _ _ _ Hturn); [ reflexivity | ].
        now rewrite (chatbot_conversation_exit "exit" [] w1 eq_refl). }
      split; [ split; [ intros Hstop; now apply Hnever in Hstop | congruence ] | ].
      split.
      { intros e. split; [ intros Hstop; now apply Hnever in Hstop | ].
        intros [_ [error [_ Hfail]]]. congruence. }
      split; apply Hnever.
Qed.

Lemma session_ends_at_sentinel_failure_or_completion_witness :
  stops_at (@Instructor.conversation (Examples.around Examples.greeter))
    "EXIT" Instructor.initial (Ok Exited)
  /\ ~ stops_at (@Chatbot.conversation (Examples.around Examples.greeter))
         "exit now" Chatbot.initial (Ok Exited).
Proof.
  split.
  - apply (proj1 (proj2 (proj2
             (proj1 (proj2 (@session_ends_at_sentinel_failure_or_completion
                              (Examples.around Examples.greeter) "EXIT"))
                Instructor.initial)))).
    reflexivity.
  - intros Hstop.
    apply (proj1 (proj2 (proj2
             (proj2 (proj2 (@session_ends_at_sentinel_failure_or_completion
                              (Examples.around Examples.greeter) "exit now"))
                Chatbot.initial)))) in Hstop.
    discriminate Hstop.
Defined.

(** C3 as stated fails in the tool-calling entry point: a line that is not
    the sentinel ends the session when the model answers it with a call
    that the [complete] tool accepts.  The user's answer "Acme Cuts" is the
    last line read, whatever follows it. *)
Lemma completion_ends_session_counterexample :
  is_exit "Acme Cuts" = false
  /\ stops_at (@Instructor.conversation (Examples.around Examples.finisher))
       "Acme Cuts"
       (snd (@Instructor.main (Examples.around Examples.finisher) []
               Instructor.initial))
       (Ok Completed)
  /\ fst (@Instructor.program (Examples.around Examples.finisher)
            ["Acme Cuts"; "anything else"]) = Ok Completed
  /\ ~ In (EvRead "anything else")
       (trace (snd (@Instructor.program (Examples.around Examples.finisher)
                      ["Acme Cuts"; "anything else"]))).
Proof.
  split; [ reflexivity | ]. split.
  - destruct (@instructor_conversation_turn (Examples.around Examples.finisher)
                "Acme Cuts"
                (snd (@Instructor.main (Examples.around Examples.finisher) []
                        Instructor.initial))
                (CText EmptyString) [ToolCall "complete" Examples.acme "call_1"]
                eq_refl eq_refl)
      as [run [outputs [botResponse [Hrun [_ Hturn]]]]].
    cbv zeta in Hturn.
    assert (Hset : existsb (@completes (Examples.around Examples.finisher)) run = true)
      by (rewrite Hrun; vm_compute; reflexivity).
    rewrite Hset, orb_true_r in Hturn. eexists. exact Hturn.
  - split; [ vm_compute; reflexivity | ].
    vm_compute. intros Hin.
    repeat (destruct Hin as [Hin | Hin]; [ discriminate Hin | ]). exact Hin.
Qed.

(** ** What is sent to the completion service *)

Lemma thrown_tail_idle {A} (r : result A) :
  forallb idle (match r with Ok _ => [] | Throw e => [EvError e] end) = true
  /\ transcript_of (match r with Ok _ => [] | Throw e => [EvError e] end) = [].
Proof. destruct r; split; reflexivity. Qed.

(** C5, as amended.  Every request carries the system message of the
    entry point exactly once, at the head, followed by the whole
    conversation so far: every message submitted, answered or produced by
    the tool node since the program started.  In the tool-calling entry point
    the system message is the same for every request; in the string-matching
    entry point it is rebuilt for every request from the [onboardingData]
    collected so far. *)
Theorem requests_carry_whole_history `{Environment} (inputs : list string)
  (before after : list event) (msgs : list message) :
  (trace (snd (Instructor.program inputs)) = before ++ EvInvoke msgs :: after ->
   msgs = Instructor.systemMessage :: transcript_of before
   /\ filter is_system msgs = [Instructor.systemMessage])
  /\ (trace (snd (Chatbot.program inputs)) = before ++ EvInvoke msgs :: after ->
      msgs = Chatbot.systemMessage (progress_of before) :: transcript_of before
      /\ filter is_system msgs = [Chatbot.systemMessage (progress_of before)]).
Proof.
  split; intros Htrace.
  - rewrite instructor_program_trace in Htrace.
    destruct (instructor_main_sound inputs) as [Hsound _].
    destruct (thrown_tail_idle (fst (Instructor.main inputs Instructor.initial)))
      as [Hidle Hquiet].
    exact (sound_request_shape _ _ (fun _ : unit => Instructor.systemMessage) _ _
             (fun _ => eq_refl)
             _ _ _ _ _ Hsound Hidle Hquiet Htrace).
  - rewrite chatbot_program_trace in Htrace.
    destruct (chatbot_main_sound inputs) as [Hsound _].
    destruct (thrown_tail_idle (fst (Chatbot.main inputs Chatbot.initial)))
      as [Hidle Hquiet].
    exact (sound_request_shape _ _ Chatbot.systemMessage _ _
             (fun _ => eq_refl)
             _ _ _ _ _ Hsound Hidle Hquiet Htrace).
Qed.

Lemma requests_carry_whole_history_witness :
  trace (snd (@Chatbot.program (Examples.around Examples.namer) ["hi"; "there"]))
  = Examples.namer_before ++ EvInvoke Examples.namer_second :: Examples.namer_after
  /\ Examples.namer_second
     = @Chatbot.systemMessage (Examples.around Examples.namer)
         (@progress_of (Examples.around Examples.namer) Examples.namer_before)
       :: transcript_of Examples.namer_before.
Proof.
  assert (Htrace :
    trace (snd (@Chatbot.program (Examples.around Examples.namer) ["hi"; "there"]))
    = Examples.namer_before ++ EvInvoke Examples.namer_second :: Examples.namer_after)
    by (vm_compute; reflexivity).
  split; [ exact Htrace | ].
  exact (proj1 (proj2 (@requests_carry_whole_history
                         (Examples.around Examples.namer) ["hi"; "there"]
                         Examples.namer_before Examples.namer_after
                         Examples.namer_second) Htrace)).
Defined.

(** C5 as stated fails in the string-matching entry point: whatever the
    number printing and the format checks are, a model that repeats a
    business name makes the second request start with another system message
    than the first one, so no one fixed message heads every request. *)
Lemma system_message_not_fixed_counterexample :
  ~ exists (print : Q -> string) (check : string -> string -> bool),
      forall svc : nat -> list message -> response,
      exists sys : message,
      forall inputs before msgs after,
        trace (snd (@Chatbot.program (Build_Environment print check svc) inputs))
        = before ++ EvInvoke msgs :: after ->
        msgs = sys :: transcript_of before.
Proof.
  intros [print [check Hclaim]].
  destruct (Hclaim Examples.namer) as [sys Hsys].
  pose proof (Hsys ["hi"; "there"]) as Hrun.
  match type of Hrun with
  | forall before msgs after, ?tr = _ -> _ =>
      let t := eval vm_compute in tr in
      assert (Htrace : tr = t) by (vm_compute; reflexivity)
  end.
  rewrite Htrace in Hrun.
  pose proof (Hrun [EvRead "hi"; EvSubmit (HumanMessage "hi")] _ _ eq_refl) as Hfirst.
  pose proof (Hrun [EvRead "hi"; EvSubmit _; EvInvoke _; EvReply _; EvPrint _ _;
                    EvRead "there"; EvSubmit _] _ _ eq_refl) as Hsecond.
  injection Hfirst as Hfirst. injection Hsecond as Hsecond.
  rewrite <- Hfirst in Hsecond.
  apply (f_equal (fun m => match m with
                           | SystemMessage text => String.length text
                           | _ => 0
                           end)) in Hsecond.
  vm_compute in Hsecond. discriminate Hsecond.
Qed.

(** ** Failures of the completion service *)

Lemma instructor_program_result `{Environment} (inputs : list string) :
  fst (Instructor.program inputs) = fst (Instructor.main inputs Instructor.initial).
Proof.
  unfold Instructor.program.
  now destruct (Instructor.main inputs Instructor.initial) as [[e|e] w].
Qed.

Lemma chatbot_program_result `{Environment} (inputs : list string) :
  fst (Chatbot.program inputs) = fst (Chatbot.main inputs Chatbot.initial).
Proof.
  unfold Chatbot.program.
  now destruct (Chatbot.main inputs Chatbot.initial) as [[e|e] w].
Qed.

(** C6. When a request to the completion service fails, nothing in the
    loop catches or retries it: [main] ends with that very error, and the
    only thing that happens after the failed request is the [console.error]
    of the top-level catch.  No further request is sent. *)
Theorem service_failure_is_fatal `{Environment} (inputs : list string)
  (before after : list event) (msgs : list message) (error : string) :
  (trace (snd (Instructor.program inputs)) = before ++ EvInvoke msgs :: after ->
   service (requests before) msgs = Failure error ->
   fst (Instructor.program inputs) = Throw (ServiceError error)
   /\ after = [EvError (ServiceError error)])
  /\ (trace (snd (Chatbot.program inputs)) = before ++ EvInvoke msgs :: after ->
      service (requests before) msgs = Failure error ->
      fst (Chatbot.program inputs) = Throw (ServiceError error)
      /\ after = [EvError (ServiceError error)]).
Proof.
  split; intros Htrace Hfail.
  - rewrite instructor_program_trace in Htrace. rewrite instructor_program_result.
    destruct (instructor_main_sound inputs) as [_ Hsettled].
    exact (failed_request_is_last _ _ _ _ _ _ Hsettled Htrace Hfail).
  - rewrite chatbot_program_trace in Htrace. rewrite chatbot_program_result.
    destruct (chatbot_main_sound inputs) as [_ Hsettled].
    exact (failed_request_is_last _ _ _ _ _ _ Hsettled Htrace Hfail).
Qed.

Lemma service_failure_is_fatal_witness :
  (trace (snd (@Chatbot.program (Examples.around Examples.flaky) ["hi"; "again"; "more"]))
   = Examples.flaky_before ++ EvInvoke Examples.flaky_second
       :: [EvError (ServiceError "503 overloaded")]
   /\ Examples.flaky (requests Examples.flaky_before) Examples.flaky_second
      = Failure "503 overloaded")
  /\ fst (@Chatbot.program (Examples.around Examples.flaky) ["hi"; "again"; "more"])
     = Throw (ServiceError "503 overloaded")
  /\ [EvError (ServiceError "503 overloaded")]
     = [EvError (ServiceError "503 overloaded")].
Proof.
  assert (Htrace :
    trace (snd (@Chatbot.program (Examples.around Examples.flaky)
                  ["hi"; "again"; "more"]))
    = Examples.flaky_before ++ EvInvoke Examples.flaky_second
        :: [EvError (ServiceError "503 overloaded")])
    by (vm_compute; reflexivity).
  assert (Hfail :
    Examples.flaky (requests Examples.flaky_before) Examples.flaky_second
    = Failure "503 overloaded") by reflexivity.
  split; [ split; [ exact Htrace | exact Hfail ] | ].
  exact (proj2 (@service_failure_is_fatal (Examples.around Examples.flaky)
                  ["hi"; "again"; "more"] Examples.flaky_before
                  [EvError (ServiceError "503 overloaded")]
                  Examples.flaky_second "503 overloaded") Htrace Hfail).
Defined.

(** ** The transcript *)

(** C8. The transcript only grows at its end.  Both reducers of
    [messages] are list concatenation; what a node returns is appended to the
    state; and after a run of the graph, and after any number of turns of
    either loop, the saved transcript is the one from before followed by new
    messages, whatever the service answers and also when it fails. *)
Theorem transcript_is_append_only `{Environment} :
  (forall x y, Instructor.messages_reducer x y = x ++ y)
  /\ (forall x y, Chatbot.messages_reducer x y = x ++ y)
  /\ (forall state returned,
         Instructor.messages (Instructor.update state returned)
         = Instructor.messages state ++ returned)
  /\ (forall state returned,
         Chatbot.messages (Chatbot.update state returned)
         = Chatbot.messages state ++ Chatbot.messages returned)
  /\ (forall input w, exists more,
         Instructor.messages
           (Instructor.checkpointer (store (snd (Instructor.app_invoke input w))))
         = Instructor.messages (Instructor.checkpointer (store w)) ++ more)
  /\ (forall input w, exists more,
         Chatbot.messages
           (Chatbot.checkpointer (store (snd (Chatbot.app_invoke input w))))
         = Chatbot.messages (Chatbot.checkpointer (store w)) ++ more)
  /\ (forall inputs w, exists more,
         Instructor.messages
           (Instructor.checkpointer (store (snd (Instructor.conversation inputs w))))
         = Instructor.messages (Instructor.checkpointer (store w)) ++ more)
  /\ (forall inputs w, exists more,
         Chatbot.messages
           (Chatbot.checkpointer (store (snd (Chatbot.conversation inputs w))))
         = Chatbot.messages (Chatbot.checkpointer (store w)) ++ more).
Proof.
  repeat split; try reflexivity.
  - intros input w. apply instructor_app_invoke_grows.
  - intros input w. apply chatbot_app_invoke_grows.
  - intros inputs w. apply instructor_conversation_grows.
  - intros inputs w. apply chatbot_conversation_grows.
Qed.

(** ** The seed request of the tool-calling entry point *)

Lemma instructor_main_starts `{Environment} (inputs : list string) :
  exists rest,
    trace (snd (Instructor.main inputs Instructor.initial))
    = EvSubmit seed :: EvInvoke [Instructor.systemMessage; seed] :: rest.
Proof.
  destruct (service 0 [Instructor.systemMessage; seed]) as [c calls|error] eqn:Hservice.
  - destruct (instructor_main_reply inputs c calls Hservice)
      as [outputs [botResponse [_ Hmain]]].
    cbv zeta in Hmain. rewrite Hmain.
    match goal with |- context [Instructor.conversation inputs ?w1] =>
      destruct (instructor_conversation_grows inputs w1) as [[ext Hext] _] end.
    rewrite Hext. cbn [trace app]. eexists. reflexivity.
  - rewrite (instructor_main_failure inputs error Hservice). cbn [snd trace].
    eexists. reflexivity.
Qed.

(** C10. Every run of the tool-calling entry point starts by submitting
    ['Start onboarding'] and sending the request for it; so at least one
    request is sent in every run, and every line read from the user has a
    request before it, also when the first line is the sentinel. *)
Theorem seed_request_comes_first `{Environment} (inputs : list string) :
  (exists rest,
      trace (snd (Instructor.program inputs))
      = EvSubmit (HumanMessage "Start onboarding")
          :: EvInvoke [Instructor.systemMessage; HumanMessage "Start onboarding"]
          :: rest)
  /\ 1 <= requests (trace (snd (Instructor.program inputs)))
  /\ forall before line after,
       trace (snd (Instructor.program inputs)) = before ++ EvRead line :: after ->
       1 <= requests before.
Proof.
  assert (Hstart : exists rest,
             trace (snd (Instructor.program inputs))
             = EvSubmit seed :: EvInvoke [Instructor.systemMessage; seed] :: rest).
  { rewrite instructor_program_trace.
    destruct (instructor_main_starts inputs) as [rest Hrest]. rewrite Hrest.
    cbn [app]. eexists. reflexivity. }
  destruct Hstart as [rest Hrest].
  split; [ now exists rest | ]. split.
  - rewrite Hrest. unfold requests. cbn. lia.
  - intros before line after Htrace. rewrite Hrest in Htrace.
    destruct before as [|first [|second before]]; try discriminate Htrace.
    injection Htrace as <- <- _. unfold requests. cbn. lia.
Qed.

Lemma seed_request_comes_first_witness :
  trace (snd (@Instructor.program (Examples.around Examples.greeter) ["exit"]))
  = Examples.greeter_before ++ EvRead "exit" :: [EvClose]
  /\ 1 <= requests Examples.greeter_before.
Proof.
  assert (Htrace :
    trace (snd (@Instructor.program (Examples.around Examples.greeter) ["exit"]))
    = Examples.greeter_before ++ EvRead "exit" :: [EvClose])
    by (vm_compute; reflexivity).
  split; [ exact Htrace | ].
  exact (proj2 (proj2 (@seed_request_comes_first
                         (Examples.around Examples.greeter) ["exit"]))
           Examples.greeter_before "exit" [EvClose] Htrace).
Defined.

(** ** Completion *)

Lemma tool_runs_none `{Environment} (calls : list tool_call) :
  existsb completes calls = false -> tool_runs calls = [].
Proof.
  unfold tool_runs. induction calls as [|call calls IH]; [ reflexivity | ].
  cbn [existsb filter]. intros Hnone. apply orb_false_iff in Hnone.
  destruct Hnone as [Hcall Hcalls]. rewrite Hcall. now apply IH.
Qed.

Lemma tool_messages_no_run (outputs : list message) :
  filter is_tool_run (map EvToolMsg outputs) = [].
Proof. induction outputs; simpl; auto. Qed.

Lemma quiet_after_tool_idle (evs : list event) :
  forallb idle evs = true -> quiet_after_tool evs.
Proof.
  induction evs as [|e evs IH]; [ easy | ].
  cbn [forallb]. intros Hidle. apply andb_prop in Hidle. destruct Hidle as [He Hevs].
  destruct e; cbn [quiet_after_tool]; auto. split; [ | auto ].
  now apply requests_idle.
Qed.

Lemma quiet_after_tool_app (a b : list event) :
  filter is_tool_run a = [] -> quiet_after_tool b -> quiet_after_tool (a ++ b).
Proof.
  induction a as [|e a IH]; [ easy | ].
  destruct e; cbn [filter is_tool_run app quiet_after_tool]; auto. discriminate.
Qed.

(** Inside the loop the completion flag does its work: when the loop is
    entered with the flag unset, no request follows a run of the [complete]
    tool body. *)
Lemma instructor_loop_stops_after_completion `{Environment} (inputs : list string)
  (w : world Instructor.Process) :
  Instructor.isCompleted (store w) = false ->
  exists ext,
    trace (snd (Instructor.conversation inputs w)) = trace w ++ ext
    /\ quiet_after_tool ext.
Proof.
  revert w. induction inputs as [|line rest IH]; intros w Hflag.
  - exists []. cbn. now rewrite app_nil_r.
  - destruct (is_exit line) eqn:Hexit.
    + rewrite (instructor_conversation_exit _ _ _ Hexit). cbn.
      eexists. split; [ reflexivity | exact I ].
    + destruct (service (invocations w)
                  (Instructor.systemMessage
                     :: Instructor.messages (Instructor.checkpointer (store w))
                     ++ [HumanMessage line])) as [c calls|error] eqn:Hservice.
      * destruct (instructor_conversation_reply line rest w c calls Hexit Hservice)
          as [run [outputs [botResponse [_ [_ Hturn]]]]].
        cbv zeta in Hturn. rewrite Hturn. clear Hturn. rewrite Hflag. cbn [orb].
        destruct (existsb completes run) eqn:Hdone.
        -- cbn [snd record trace]. rewrite <- !app_assoc. cbn [app].
           eexists. split; [ reflexivity | ].
           cbn [quiet_after_tool]. apply quiet_after_tool_idle.
           rewrite !forallb_app, tool_runs_idle, tool_messages_idle. reflexivity.
        -- match goal with |- context [Instructor.conversation rest ?w1] =>
             destruct (IH w1 eq_refl) as [ext [Hext Hquiet]] end.
           rewrite Hext. cbn [trace]. rewrite <- !app_assoc. cbn [app].
           eexists. split; [ reflexivity | ].
           cbn [quiet_after_tool]. rewrite (tool_runs_none _ Hdone). cbn [app].
           apply quiet_after_tool_app; [ apply tool_messages_no_run | exact Hquiet ].
      * rewrite (instructor_conversation_failure line rest w error Hexit Hservice).
        cbn [snd trace app]. eexists. split; [ reflexivity | exact I ].
Qed.

Lemma quiet_after_tool_then_idle (a b : list event) :
  quiet_after_tool a -> forallb idle b = true -> quiet_after_tool (a ++ b).
Proof.
  intros Ha Hb. induction a as [|e a IH]; [ now apply quiet_after_tool_idle | ].
  destruct e; cbn [app quiet_after_tool] in *; auto.
  destruct Ha as [Hnone Ha]. split; [ | auto ].
  now rewrite requests_app, Hnone, (requests_idle _ Hb).
Qed.

(** The whole program stops asking the model after a completion as long as
    the completion does not happen in the seed invocation: when the reply to the seed request carries
    no accepted call of [complete] (or the seed request fails), no request
    follows a run of the tool body anywhere in the run. *)
Lemma instructor_program_stops_after_completion `{Environment} (inputs : list string) :
  (forall c calls,
      service 0 [Instructor.systemMessage; seed] = Reply c calls ->
      existsb completes calls = false) ->
  quiet_after_tool (trace (snd (Instructor.program inputs))).
Proof.
  intros Hseed. rewrite instructor_program_trace.
  apply quiet_after_tool_then_idle;
    [ | now destruct (fst (Instructor.main inputs Instructor.initial)) ].
  destruct (service 0 [Instructor.systemMessage; seed]) as [c calls|error] eqn:Hservice.
  - destruct (instructor_main_reply inputs c calls Hservice)
      as [outputs [botResponse [_ Hmain]]].
    cbv zeta in Hmain. rewrite Hmain. clear Hmain.
    rewrite (Hseed c calls eq_refl), (tool_runs_none _ (Hseed c calls eq_refl)).
    match goal with |- context [Instructor.conversation inputs ?w1] =>
      destruct (instructor_loop_stops_after_completion inputs w1 eq_refl)
        as [ext [Hext Hquiet]] end.
    rewrite Hext. cbn [trace app quiet_after_tool].
    rewrite <- app_assoc. apply quiet_after_tool_app; [ apply tool_messages_no_run | ].
    exact Hquiet.
  - rewrite (instructor_main_failure inputs error Hservice). exact I.
Qed.

(** The scenario of the specification: the model greets, the user answers,
    the model calls [complete] with the full record.  The flag is set, the
    loop ends with [Completed] after two requests, and the line that follows
    is never read. *)
Example completion_ends_conversation :
  fst (@Instructor.program (Examples.around Examples.finisher)
         ["Acme Cuts, haircuts, Mondays 9 to 5, a@b.com"; "anything else"])
  = Ok Completed
  /\ Instructor.isCompleted
       (store (snd (@Instructor.program (Examples.around Examples.finisher)
                      ["Acme Cuts, haircuts, Mondays 9 to 5, a@b.com"; "anything else"])))
     = true
  /\ filter is_tool_run
       (trace (snd (@Instructor.program (Examples.around Examples.finisher)
                      ["Acme Cuts, haircuts, Mondays 9 to 5, a@b.com"; "anything else"])))
     = [EvTool Examples.acme]
  /\ requests
       (trace (snd (@Instructor.program (Examples.around Examples.finisher)
                      ["Acme Cuts, haircuts, Mondays 9 to 5, a@b.com"; "anything else"])))
     = 2
  /\ ~ In (EvRead "anything else")
       (trace (snd (@Instructor.program (Examples.around Examples.finisher)
                      ["Acme Cuts, haircuts, Mondays 9 to 5, a@b.com"; "anything else"]))).
Proof.
  repeat split; try (vm_compute; reflexivity).
  vm_compute. intros Hin.
  repeat (destruct Hin as [Hin | Hin]; [ discriminate Hin | ]). exact Hin.
Qed.

(** C4, at the input on which the code breaks it.  The model answers the
    seed request with an accepted call of [complete]; the tool body runs and
    sets the flag before the loop is entered; the loop still reads a line and
    sends a second request for it, and only then looks at the flag. *)
Theorem request_after_seed_completion :
  filter is_tool_run
    (trace (snd (@Instructor.program (Examples.around Examples.eager) ["hi"; "there"])))
  = [EvTool Examples.acme]
  /\ fst (@Instructor.program (Examples.around Examples.eager) ["hi"; "there"])
     = Ok Completed
  /\ requests
       (trace (snd (@Instructor.program (Examples.around Examples.eager)
                      ["hi"; "there"]))) = 2
  /\ exists before between msgs after,
       trace (snd (@Instructor.program (Examples.around Examples.eager)
                     ["hi"; "there"]))
       = before ++ EvTool Examples.acme
           :: between ++ EvRead "hi" :: EvSubmit (HumanMessage "hi")
           :: EvInvoke msgs :: after.
Proof.
  split; [ vm_compute; reflexivity | ].
  split; [ vm_compute; reflexivity | ].
  split; [ vm_compute; reflexivity | ].
  eexists [_; _; _], [_; _], _, _. vm_compute. reflexivity.
Qed.

(** C7, as amended.  When the reply to the seed request carries no call
    that the [complete] tool accepts, and the user types the sentinel at the
    first prompt, the loop stops there: the completion flag is still false,
    the tool body has not run, and the seed request is the only request. *)
Theorem exit_at_first_prompt `{Environment} (line : string) (rest : list string)
  (c : content) (calls : list tool_call) :
  is_exit line = true ->
  service 0 [Instructor.systemMessage; HumanMessage "Start onboarding"]
  = Reply c calls ->
  existsb completes calls = false ->
  fst (Instructor.program (line :: rest)) = Ok Exited
  /\ Instructor.isCompleted (store (snd (Instructor.program (line :: rest)))) = false
  /\ filter is_tool_run (trace (snd (Instructor.program (line :: rest)))) = []
  /\ requests (trace (snd (Instructor.program (line :: rest)))) = 1.
Proof.
  intros Hexit Hservice Hnone. unfold Instructor.program.
  destruct (instructor_main_reply (line :: rest) c calls Hservice)
    as [outputs [botResponse [_ Hmain]]].
  cbv zeta in Hmain. rewrite Hmain, (instructor_conversation_exit _ _ _ Hexit).
  rewrite Hnone, (tool_runs_none _ Hnone).
  cbn [fst snd record store trace Instructor.isCompleted app].
  repeat split.
  - cbn [filter is_tool_run]. now rewrite !filter_app, tool_messages_no_run.
  - unfold requests. cbn [filter is_invoke].
    rewrite !filter_app. cbn [List.length].
    assert (Hidle : filter is_invoke (map EvToolMsg outputs) = []).
    { clear. induction outputs; simpl; auto. }
    now rewrite Hidle.
Qed.

Lemma exit_at_first_prompt_witness :
  (is_exit "Exit" = true
   /\ Examples.greeter 0 [@Instructor.systemMessage (Examples.around Examples.greeter);
                          HumanMessage "Start onboarding"]
      = Reply (CText "Hello! What is your business name?") []
   /\ existsb (@completes (Examples.around Examples.greeter)) [] = false)
  /\ fst (@Instructor.program (Examples.around Examples.greeter) ["Exit"; "hello"])
     = Ok Exited
  /\ Instructor.isCompleted
       (store (snd (@Instructor.program (Examples.around Examples.greeter)
                      ["Exit"; "hello"]))) = false
  /\ filter is_tool_run
       (trace (snd (@Instructor.program (Examples.around Examples.greeter)
                      ["Exit"; "hello"]))) = []
  /\ requests
       (trace (snd (@Instructor.program (Examples.around Examples.greeter)
                      ["Exit"; "hello"]))) = 1.
Proof.
  split; [ repeat split | ].
  apply (@exit_at_first_prompt (Examples.around Examples.greeter) "Exit" ["hello"]
           (CText "Hello! What is your business name?") []); reflexivity.
Defined.

(** C7 as stated fails when the model answers the seed request with an
    accepted call of [complete]: the user types the sentinel at the first
    prompt and the loop stops, yet the flag is set and the tool body ran. *)
Lemma exit_after_seed_completion_counterexample :
  is_exit "exit" = true
  /\ fst (@Instructor.program (Examples.around Examples.eager) ["exit"]) = Ok Exited
  /\ Instructor.isCompleted
       (store (snd (@Instructor.program (Examples.around Examples.eager) ["exit"])))
     = true
  /\ filter is_tool_run
       (trace (snd (@Instructor.program (Examples.around Examples.eager) ["exit"])))
     = [EvTool Examples.acme].
Proof. repeat split; vm_compute; reflexivity. Qed.

(** * Further properties of the code *)

(** ** The schema and the record types agree *)

Lemma day_name_allowed `{Environment} (d : Essentials.DayOfWeek) :
  existsb (json_eqb (JStr (Essentials.day_name d))) (map JStr dayNames) = true.
Proof. destruct d; reflexivity. Qed.

Ltac pick_entry := simpl; repeat (first [ left; reflexivity | right ]).

Lemma none_nil (more : list (string * json)) :
  Essentials.none more = true <-> more = [].
Proof. destruct more; split; intros Hm; try reflexivity; discriminate Hm. Qed.

Lemma hours_json_valid `{Environment} (h : Essentials.HoursForDay) :
  Essentials.hoursFurther h = [] ->
  validate
    (JObj
       [("type", JStr "object");
        ("properties",
         JObj
           [("startTime24hr", typed "string");
            ("endTime24hr", typed "string");
            ("dayOfWeek",
             JObj [("type", JStr "string"); ("enum", strings dayNames)])]);
        ("required", strings hoursFields);
        ("additionalProperties", JBool false)])
    (Essentials.hours_json h) = true.
Proof.
  destruct h as [s e d more]. cbn [Essentials.hoursFurther]. intros ->.
  cbn -[existsb json_eqb dayNames].
  unfold strings. now rewrite day_name_allowed.
Qed.

(** An object that a schema with [additionalProperties: false] accepts has
    no property under a name that the schema does not declare. *)
Lemma closed_has_no_further `{Environment} keywords (names : list string)
  (fields more : list (string * json)) :
  validate (JObj keywords) (JObj (fields ++ more)) = true ->
  In ("additionalProperties", JBool false) keywords ->
  declared keywords = names ->
  Essentials.other_names names more = true ->
  more = [].
Proof.
  intros V Hclosed Hnames Hother. destruct more as [|[k x] more]; [ reflexivity | ].
  exfalso. cbn [Essentials.other_names forallb fst] in Hother.
  apply andb_prop in Hother. destruct Hother as [Hk _].
  assert (Hin : In k (declared keywords)).
  { apply (validate_closed _ _ _ V Hclosed). unfold obj_keys.
    rewrite map_app, in_app_iff. right. now left. }
  rewrite Hnames in Hin. apply mem_string_In in Hin. now rewrite Hin in Hk.
Qed.

(** An object of the type [OnboardTenantEssentials] (the declared
    properties with their declared types and finite numbers, a day of the
    week being one of the seven members of the union, and possibly further
    properties under other names) is accepted by the schema exactly when its
    email address passes the format check and it has no further property, at
    the top, in [firstServices] or in an entry of [businessHours]. *)
Theorem record_is_accepted_iff_exact `{Environment}
  (r : Essentials.OnboardTenantEssentials) :
  Essentials.well_formed r = true ->
  validate onboardInstructorEssentialsSchema (Essentials.to_json r) = true
  <-> format_valid "email" (Essentials.yourEmailAddress r) = true
      /\ Essentials.exact r = true.
Proof.
  intros Hwf. unfold Essentials.well_formed in Hwf.
  apply andb_prop in Hwf. destruct Hwf as [Hwf Hwf3].
  apply andb_prop in Hwf. destruct Hwf as [Hwf1 Hwf2].
  destruct r as [name [sn dur p cur smore] hours email pay more].
  cbn [Essentials.yourEmailAddress Essentials.further Essentials.firstServices
       Essentials.serviceFurther Essentials.businessHours] in *.
  unfold Essentials.exact.
  cbn [Essentials.further Essentials.firstServices Essentials.serviceFurther
       Essentials.businessHours].
  split.
  - intros V. unfold onboardInstructorEssentialsSchema, Essentials.to_json in V.
    cbn [Essentials.businessHours Essentials.firstServices Essentials.businessName
         Essentials.yourEmailAddress Essentials.further
         Essentials.doYouWantUsToTakePaymentsDirectlyFromYourCustomers] in V.
    assert (Hmore : more = []).
    { apply (closed_has_no_further _ requiredFields _ _ V);
        [ pick_entry | reflexivity | exact Hwf1 ]. }
    subst more.
    pose proof (validate_property _ _ _ "yourEmailAddress" _ (JStr email) V
                  ltac:(pick_entry) ltac:(pick_entry) eq_refl) as Vemail.
    pose proof (validate_property _ _ _ "firstServices" _ _ V
                  ltac:(pick_entry) ltac:(pick_entry) eq_refl) as Vservice.
    pose proof (validate_property _ _ _ "businessHours" _ _ V
                  ltac:(pick_entry) ltac:(pick_entry) eq_refl) as Vhours.
    split.
    + cbn in Vemail. now rewrite andb_true_r in Vemail.
    + assert (Hsmore : smore = []).
      { unfold Essentials.service_json in Vservice.
        cbn [Essentials.serviceFurther] in Vservice.
        apply (closed_has_no_further _ serviceFields _ _ Vservice);
          [ pick_entry | reflexivity | exact Hwf2 ]. }
      subst smore. cbn [Essentials.none andb].
      apply forallb_forall. intros h Hh. apply none_nil.
      rewrite forallb_forall in Hwf3.
      assert (Vh : validate
                     (JObj
                        [("type", JStr "object");
                         ("properties",
                          JObj
                            [("startTime24hr", typed "string");
                             ("endTime24hr", typed "string");
                             ("dayOfWeek",
                              JObj [("type", JStr "string");
                                    ("enum", strings dayNames)])]);
                         ("required", strings hoursFields);
                         ("additionalProperties", JBool false)])
                     (Essentials.hours_json h) = true).
      { apply (validate_items _ _ _ _ Vhours); [ pick_entry | ].
        now apply in_map. }
      unfold Essentials.hours_json in Vh.
      apply (closed_has_no_further _ hoursFields _ _ Vh);
        [ pick_entry | reflexivity | now apply Hwf3 ].
  - intros [Hemail Hexact].
    apply andb_prop in Hexact. destruct Hexact as [Hexact Hnone3].
    apply andb_prop in Hexact. destruct Hexact as [Hnone1 Hnone2].
    apply none_nil in Hnone1. apply none_nil in Hnone2. subst more smore.
    unfold onboardInstructorEssentialsSchema, Essentials.to_json.
    assert (Hhours :
      forallb
        (validate
           (JObj
              [("type", JStr "object");
               ("properties",
                JObj
                  [("startTime24hr", typed "string");
                   ("endTime24hr", typed "string");
                   ("dayOfWeek",
                    JObj [("type", JStr "string"); ("enum", strings dayNames)])]);
               ("required", strings hoursFields);
               ("additionalProperties", JBool false)]))
        (map Essentials.hours_json hours) = true).
    { apply forallb_forall. intros x Hin. apply in_map_iff in Hin.
      destruct Hin as [h [<- Hh]]. apply hours_json_valid. apply none_nil.
      rewrite forallb_forall in Hnone3. now apply Hnone3. }
    cbn [Essentials.businessHours Essentials.firstServices Essentials.businessName
         Essentials.yourEmailAddress Essentials.further
         Essentials.doYouWantUsToTakePaymentsDirectlyFromYourCustomers].
    remember (map Essentials.hours_json hours) as entries eqn:Hentries.
    clear Hentries hours Hwf3 Hnone3.
    cbn in Hhours |- *. now rewrite Hhours, Hemail.
Qed.

(** The scenario's record is accepted; with a note added to it, it is a
    value of the type still, and it is rejected. *)
Lemma record_is_accepted_iff_exact_witness :
  (Essentials.well_formed Examples.acme_record = true
   /\ @validate (Examples.around Examples.greeter) onboardInstructorEssentialsSchema
        (Essentials.to_json Examples.acme_record) = true)
  /\ (Essentials.well_formed Examples.acme_noted = true
      /\ @validate (Examples.around Examples.greeter)
           onboardInstructorEssentialsSchema
           (Essentials.to_json Examples.acme_noted) <> true).
Proof.
  split; (split; [ reflexivity | ]).
  - apply (@record_is_accepted_iff_exact (Examples.around Examples.greeter)
             Examples.acme_record eq_refl).
    split; reflexivity.
  - intros V.
    apply (@record_is_accepted_iff_exact (Examples.around Examples.greeter)
             Examples.acme_noted eq_refl) in V.
    destruct V as [_ Hexact]. discriminate Hexact.
Defined.


Lemma required_property `{Environment} keywords names props fields
  (k : string) (sub : json) :
  validate (JObj keywords) (JObj fields) = true ->
  In ("required", strings names) keywords -> In k names ->
  In ("properties", JObj props) keywords -> In (k, sub) props ->
  exists x, obj_get k fields = Some x /\ validate sub x = true.
Proof.
  intros V Hreq Hk Hprops Hsub.
  assert (Hin : In k (obj_keys fields)).
  { apply (validate_required _ _ _ _ V Hreq). unfold strings. now apply in_map. }
  apply obj_get_keys in Hin. destruct Hin as [x Hx]. exists x. split; [ exact Hx | ].
  exact (validate_property _ _ _ _ _ _ V Hprops Hsub Hx).
Qed.

Lemma typed_string `{Environment} (x : json) :
  validate (typed "string") x = true -> exists s, x = JStr s.
Proof. destruct x; cbn; try discriminate. intros _. now eexists. Qed.

Lemma typed_number `{Environment} (x : json) :
  validate (typed "number") x = true -> exists q, x = JNum q.
Proof. destruct x; cbn; try discriminate. intros _. now eexists. Qed.

Lemma typed_boolean `{Environment} (x : json) :
  validate (typed "boolean") x = true -> exists b, x = JBool b.
Proof. destruct x; cbn; try discriminate. intros _. now eexists. Qed.

(** Every payload that the schema accepts is type-correct: the five
    fields are there with a string, an object, an array, a string that
    passes the email format check and a boolean; the service has its two
    strings and two numbers; every entry of the hours has its two strings
    and one of the seven day names. *)
Theorem accepted_payload_is_typed `{Environment} (payload : json) :
  validate onboardInstructorEssentialsSchema payload = true ->
  exists name service hours email pay,
    get_prop "businessName" payload = Some (JStr name)
    /\ get_prop "firstServices" payload = Some service
    /\ get_prop "businessHours" payload = Some (JArr hours)
    /\ get_prop "yourEmailAddress" payload = Some (JStr email)
    /\ get_prop "doYouWantUsToTakePaymentsDirectlyFromYourCustomers" payload
       = Some (JBool pay)
    /\ format_valid "email" email = true
    /\ (exists sn dur p cur,
           get_prop "serviceName" service = Some (JStr sn)
           /\ get_prop "durationInMinutes" service = Some (JNum dur)
           /\ get_prop "price" service = Some (JNum p)
           /\ get_prop "priceCurrency" service = Some (JStr cur))
    /\ (forall e, In e hours ->
        exists st en day,
          get_prop "startTime24hr" e = Some (JStr st)
          /\ get_prop "endTime24hr" e = Some (JStr en)
          /\ get_prop "dayOfWeek" e = Some (JStr day)
          /\ In day dayNames).
Proof.
  intros V. unfold onboardInstructorEssentialsSchema in V.
  destruct (has_type_object _ (validate_type _ _ _ V (or_introl eq_refl)))
    as [fields ->].
  cbn [get_prop].
  destruct (required_property _ requiredFields _ _ "businessName" _ V
              ltac:(pick_entry) ltac:(pick_entry) ltac:(pick_entry) ltac:(pick_entry))
    as [x1 [H1 V1]].
  destruct (required_property _ requiredFields _ _ "firstServices" _ V
              ltac:(pick_entry) ltac:(pick_entry) ltac:(pick_entry) ltac:(pick_entry))
    as [service [H2 V2]].
  destruct (required_property _ requiredFields _ _ "businessHours" _ V
              ltac:(pick_entry) ltac:(pick_entry) ltac:(pick_entry) ltac:(pick_entry))
    as [x3 [H3 V3]].
  destruct (required_property _ requiredFields _ _ "yourEmailAddress" _ V
              ltac:(pick_entry) ltac:(pick_entry) ltac:(pick_entry) ltac:(pick_entry))
    as [x4 [H4 V4]].
  destruct (required_property _ requiredFields _ _
              "doYouWantUsToTakePaymentsDirectlyFromYourCustomers" _ V
              ltac:(pick_entry) ltac:(pick_entry) ltac:(pick_entry) ltac:(pick_entry))
    as [x5 [H5 V5]].
  destruct (typed_string _ V1) as [name ->].
  destruct (typed_boolean _ V5) as [pay ->].
  destruct (has_type_array _ (validate_type _ _ _ V3 (or_introl eq_refl)))
    as [hours ->].
  assert (Hemail : exists email, x4 = JStr email /\ format_valid "email" email = true).
  { destruct x4; try discriminate V4. exists s. split; [ reflexivity | ].
    cbn in V4. now rewrite andb_true_r in V4. }
  destruct Hemail as [email [-> Hemail]].
  exists name, service, hours, email, pay.
  repeat (split; [ assumption | ]). split.
  - destruct (has_type_object _ (validate_type _ _ _ V2 (or_introl eq_refl)))
      as [sfields ->].
    cbn [get_prop].
    destruct (required_property _ serviceFields _ _ "serviceName" _ V2
                ltac:(pick_entry) ltac:(pick_entry) ltac:(pick_entry) ltac:(pick_entry))
      as [y1 [G1 W1]].
    destruct (required_property _ serviceFields _ _ "durationInMinutes" _ V2
                ltac:(pick_entry) ltac:(pick_entry) ltac:(pick_entry) ltac:(pick_entry))
      as [y2 [G2 W2]].
    destruct (required_property _ serviceFields _ _ "price" _ V2
                ltac:(pick_entry) ltac:(pick_entry) ltac:(pick_entry) ltac:(pick_entry))
      as [y3 [G3 W3]].
    destruct (required_property _ serviceFields _ _ "priceCurrency" _ V2
                ltac:(pick_entry) ltac:(pick_entry) ltac:(pick_entry) ltac:(pick_entry))
      as [y4 [G4 W4]].
    destruct (typed_string _ W1) as [sn ->]. destruct (typed_number _ W2) as [dur ->].
    destruct (typed_number _ W3) as [p ->]. destruct (typed_string _ W4) as [cur ->].
    now exists sn, dur, p, cur.
  - intros e He.
    pose proof (validate_items _ _ _ _ V3 ltac:(pick_entry) He) as Ve.
    destruct (has_type_object _ (validate_type _ _ _ Ve (or_introl eq_refl)))
      as [efields ->].
    cbn [get_prop].
    destruct (required_property _ hoursFields _ _ "startTime24hr" _ Ve
                ltac:(pick_entry) ltac:(pick_entry) ltac:(pick_entry) ltac:(pick_entry))
      as [z1 [K1 U1]].
    destruct (required_property _ hoursFields _ _ "endTime24hr" _ Ve
                ltac:(pick_entry) ltac:(pick_entry) ltac:(pick_entry) ltac:(pick_entry))
      as [z2 [K2 U2]].
    destruct (required_property _ hoursFields _ _ "dayOfWeek" _ Ve
                ltac:(pick_entry) ltac:(pick_entry) ltac:(pick_entry) ltac:(pick_entry))
      as [z3 [K3 U3]].
    destruct (typed_string _ U1) as [st ->]. destruct (typed_string _ U2) as [en ->].
    destruct (validate_enum _ _ _ U3 (or_intror (or_introl eq_refl)))
      as [a [Ha Heq]].
    unfold strings in Ha. apply in_map_iff in Ha. destruct Ha as [day [<- Hday]].
    apply json_eqb_string in Heq. subst z3.
    now exists st, en, day.
Qed.

Lemma accepted_payload_is_typed_witness :
  @validate (Examples.around Examples.greeter) onboardInstructorEssentialsSchema
     Examples.acme = true
  /\ exists name service hours email pay,
       get_prop "businessName" Examples.acme = Some (JStr name)
       /\ get_prop "firstServices" Examples.acme = Some service
       /\ get_prop "businessHours" Examples.acme = Some (JArr hours)
       /\ get_prop "yourEmailAddress" Examples.acme = Some (JStr email)
       /\ get_prop "doYouWantUsToTakePaymentsDirectlyFromYourCustomers" Examples.acme
          = Some (JBool pay)
       /\ @format_valid (Examples.around Examples.greeter) "email" email = true
       /\ (exists sn dur p cur,
              get_prop "serviceName" service = Some (JStr sn)
              /\ get_prop "durationInMinutes" service = Some (JNum dur)
              /\ get_prop "price" service = Some (JNum p)
              /\ get_prop "priceCurrency" service = Some (JStr cur))
       /\ (forall e, In e hours ->
           exists st en day,
             get_prop "startTime24hr" e = Some (JStr st)
             /\ get_prop "endTime24hr" e = Some (JStr en)
             /\ get_prop "dayOfWeek" e = Some (JStr day)
             /\ In day dayNames).
Proof.
  split; [ reflexivity | ].
  apply (@accepted_payload_is_typed (Examples.around Examples.greeter) Examples.acme).
  reflexivity.
Defined.

(** ** The completion flag of the tool-calling entry point *)

Lemma tool_payloads_app (a b : list event) :
  tool_payloads (a ++ b) = tool_payloads a ++ tool_payloads b.
Proof. unfold tool_payloads. apply flat_map_app. Qed.

Lemma tool_payloads_In (tr : list event) (payload : json) :
  In (EvTool payload) tr <-> In payload (tool_payloads tr).
Proof.
  unfold tool_payloads. rewrite in_flat_map. split.
  - intros Hin. exists (EvTool payload). split; [ assumption | now left ].
  - intros [e [He Hp]]. destruct e; cbn in Hp; try contradiction.
    destruct Hp as [<- | []]. assumption.
Qed.

Lemma tool_runs_ran `{Environment} (calls : list tool_call) :
  existsb is_tool_run (tool_runs calls) = existsb completes calls.
Proof.
  unfold tool_runs. induction calls as [|call calls IH]; [ reflexivity | ].
  cbn [filter existsb]. destruct (completes call); cbn; auto.
Qed.

Lemma tool_runs_valid `{Environment} (calls : list tool_call) :
  forallb (validate onboardInstructorEssentialsSchema) (tool_payloads (tool_runs calls))
  = true.
Proof.
  unfold tool_runs. induction calls as [|call calls IH]; [ reflexivity | ].
  cbn [filter]. destruct (completes call) eqn:Hcall; [ | exact IH ].
  cbn [map tool_payloads flat_map app forallb]. fold (tool_payloads
    (map (fun call0 => EvTool (call_args call0)) (filter completes calls))).
  rewrite IH. unfold completes in Hcall. apply andb_prop in Hcall.
  destruct Hcall as [_ Hvalid]. now rewrite Hvalid.
Qed.

Lemma tool_messages_no_payload (outputs : list message) :
  tool_payloads (map EvToolMsg outputs) = []
  /\ existsb is_tool_run (map EvToolMsg outputs) = false.
Proof. induction outputs as [|m outputs [IH1 IH2]]; cbn; auto. Qed.

(** What a turn with an answer adds to the trace, seen by the flag. *)
Lemma flag_agrees_reply `{Environment} (w : world Instructor.Process)
  (p' : Instructor.Process) (n : nat) (pre : list event) (h : message)
  (msgs : list message) (answer : message) (calls : list tool_call)
  (outputs : list message) (text : string) :
  flag_agrees w ->
  forallb idle pre = true -> existsb is_tool_run pre = false ->
  Instructor.isCompleted p' = Instructor.isCompleted (store w) || existsb completes calls ->
  flag_agrees
    (World p' n
       (trace w ++ pre ++ [EvSubmit h; EvInvoke msgs; EvReply answer]
          ++ (tool_runs calls ++ map EvToolMsg outputs ++ [EvPrint Yellow text]))).
Proof.
  intros [Hflag Hvalid] Hpre Hnone Hp'. unfold flag_agrees. cbn [store trace].
  destruct (tool_messages_no_payload outputs) as [Hpay Hrun].
  assert (Hprepay : tool_payloads pre = []).
  { clear - Hnone. induction pre as [|e pre IH]; [ reflexivity | ].
    cbn [existsb] in Hnone. apply orb_false_iff in Hnone. destruct Hnone as [He Hpre].
    destruct e; try discriminate He; cbn; auto. }
  split.
  - rewrite Hp', Hflag, !existsb_app, Hnone, tool_runs_ran, Hrun. cbn.
    now rewrite !orb_false_r.
  - rewrite !tool_payloads_app, Hprepay, Hpay. cbn [app tool_payloads flat_map].
    rewrite app_nil_r, forallb_app, Hvalid. apply tool_runs_valid.
Qed.

Lemma flag_agrees_quiet `{Environment} (w : world Instructor.Process)
  (p' : Instructor.Process) (n : nat) (evs : list event) :
  flag_agrees w -> existsb is_tool_run evs = false ->
  Instructor.isCompleted p' = Instructor.isCompleted (store w) ->
  flag_agrees (World p' n (trace w ++ evs)).
Proof.
  intros [Hflag Hvalid] Hnone Hp'. unfold flag_agrees. cbn [store trace].
  assert (Hpay : tool_payloads evs = []).
  { clear - Hnone. induction evs as [|e evs IH]; [ reflexivity | ].
    cbn [existsb] in Hnone. apply orb_false_iff in Hnone. destruct Hnone as [He Hevs].
    destruct e; try discriminate He; cbn; auto. }
  rewrite existsb_app, tool_payloads_app, Hnone, Hpay, app_nil_r, orb_false_r.
  split; congruence.
Qed.

Lemma instructor_conversation_flag `{Environment} (inputs : list string)
  (w : world Instructor.Process) :
  flag_agrees w ->
  flag_agrees (snd (Instructor.conversation inputs w))
  /\ (fst (Instructor.conversation inputs w) = Ok Completed ->
      Instructor.isCompleted (store (snd (Instructor.conversation inputs w))) = true
      /\ exists tr,
           trace (snd (Instructor.conversation inputs w))
           = tr ++ [EvPrint Green "Onboarding completed!"; EvClose]).
Proof.
  revert w. induction inputs as [|line rest IH]; intros w Hw.
  - split; [ exact Hw | discriminate ].
  - destruct (is_exit line) eqn:Hexit.
    + rewrite (instructor_conversation_exit _ _ _ Hexit). cbn [fst snd record].
      split; [ | discriminate ]. now apply flag_agrees_quiet.
    + destruct (service (invocations w)
                  (Instructor.systemMessage
                     :: Instructor.messages (Instructor.checkpointer (store w))
                     ++ [HumanMessage line])) as [c calls|error] eqn:Hservice.
      * destruct (instructor_conversation_reply line rest w c calls Hexit Hservice)
          as [run [outputs [botResponse [_ [_ Hturn]]]]].
        cbv zeta in Hturn. rewrite Hturn. clear Hturn.
        match goal with |- context [Instructor.conversation rest ?w1] =>
          set (w' := w1) end.
        assert (Hw' : flag_agrees w').
        { apply flag_agrees_reply; try assumption; reflexivity. }
        destruct (Instructor.isCompleted (store w) || existsb completes run)
          eqn:Hdone.
        -- cbn [fst snd record]. split.
           ++ apply flag_agrees_quiet; [ exact Hw' | reflexivity | reflexivity ].
           ++ intros _. split; [ reflexivity | ].
              cbn [store trace]. eexists. reflexivity.
        -- now apply IH.
      * rewrite (instructor_conversation_failure line rest w error Hexit Hservice).
        cbn [fst snd]. split; [ | discriminate ].
        apply (flag_agrees_quiet w _ _ ([EvRead line]
                 ++ [EvSubmit (HumanMessage line); EvInvoke _]));
          [ exact Hw | reflexivity | reflexivity ].
Qed.

Lemma instructor_main_flag `{Environment} (inputs : list string) :
  flag_agrees (snd (Instructor.main inputs Instructor.initial))
  /\ (fst (Instructor.main inputs Instructor.initial) = Ok Completed ->
      Instructor.isCompleted (store (snd (Instructor.main inputs Instructor.initial)))
      = true
      /\ exists tr,
           trace (snd (Instructor.main inputs Instructor.initial))
           = tr ++ [EvPrint Green "Onboarding completed!"; EvClose]).
Proof.
  assert (Hinit : flag_agrees Instructor.initial) by (split; reflexivity).
  destruct (service 0 [Instructor.systemMessage; seed]) as [c calls|error] eqn:Hservice.
  - destruct (instructor_main_reply inputs c calls Hservice)
      as [outputs [botResponse [_ Hmain]]].
    cbv zeta in Hmain. rewrite Hmain. clear Hmain.
    apply instructor_conversation_flag.
    apply (flag_agrees_reply Instructor.initial _ _ [] seed _ _ calls outputs _ Hinit);
      reflexivity.
  - rewrite (instructor_main_failure inputs error Hservice). cbn [fst snd].
    split; [ | discriminate ].
    apply (flag_agrees_quiet Instructor.initial _ _
             [EvSubmit seed; EvInvoke [Instructor.systemMessage; seed]] Hinit);
      reflexivity.
Qed.

Lemma instructor_program_flag `{Environment} (inputs : list string) :
  flag_agrees (snd (Instructor.program inputs)).
Proof.
  destruct (instructor_main_flag inputs) as [Hflag _].
  unfold Instructor.program.
  destruct (Instructor.main inputs Instructor.initial) as [[e|e] w]; cbn [snd] in *;
    [ exact Hflag | ].
  apply flag_agrees_quiet; [ exact Hflag | reflexivity | reflexivity ].
Qed.

(** At the end of every run the completion flag says whether the body of
    the [complete] tool ran: it is set by nothing else and never reset. *)
Theorem completion_flag_tracks_tool_runs `{Environment} (inputs : list string) :
  Instructor.isCompleted (store (snd (Instructor.program inputs)))
  = existsb is_tool_run (trace (snd (Instructor.program inputs))).
Proof. exact (proj1 (instructor_program_flag inputs)). Qed.

(** The body of the [complete] tool only ever runs on a payload that the
    schema accepts, whatever the model sends. *)
Theorem tool_body_runs_on_valid_payloads `{Environment} (inputs : list string)
  (payload : json) :
  In (EvTool payload) (trace (snd (Instructor.program inputs))) ->
  validate onboardInstructorEssentialsSchema payload = true.
Proof.
  intros Hin. apply tool_payloads_In in Hin.
  destruct (instructor_program_flag inputs) as [_ Hvalid].
  rewrite forallb_forall in Hvalid. now apply Hvalid.
Qed.

Lemma tool_body_runs_on_valid_payloads_witness :
  In (EvTool Examples.acme)
     (trace (snd (@Instructor.program (Examples.around Examples.finisher)
                    ["Acme Cuts"; "more"])))
  /\ @validate (Examples.around Examples.finisher) onboardInstructorEssentialsSchema
       Examples.acme = true.
Proof.
  assert (Hin : In (EvTool Examples.acme)
                   (trace (snd (@Instructor.program (Examples.around Examples.finisher)
                                  ["Acme Cuts"; "more"])))).
  { vm_compute. do 8 right. left. reflexivity. }
  split; [ exact Hin | ].
  exact (@tool_body_runs_on_valid_payloads (Examples.around Examples.finisher)
           ["Acme Cuts"; "more"] Examples.acme Hin).
Defined.

(** When the program reports completion, the flag is set, the tool body
    ran on a payload that the schema accepts, and the last things the
    program did were to print ['Onboarding completed!'] and to close the
    reader. *)
Theorem reported_completion_is_real `{Environment} (inputs : list string) :
  fst (Instructor.program inputs) = Ok Completed ->
  Instructor.isCompleted (store (snd (Instructor.program inputs))) = true
  /\ (exists payload,
         In (EvTool payload) (trace (snd (Instructor.program inputs)))
         /\ validate onboardInstructorEssentialsSchema payload = true)
  /\ exists tr,
       trace (snd (Instructor.program inputs))
       = tr ++ [EvPrint Green "Onboarding completed!"; EvClose].
Proof.
  intros Hdone.
  pose proof (proj1 (instructor_program_flag inputs)) as Hflag.
  assert (Hmain : fst (Instructor.main inputs Instructor.initial) = Ok Completed)
    by now rewrite <- instructor_program_result.
  destruct (instructor_main_flag inputs) as [_ Hend].
  destruct (Hend Hmain) as [Hset [tr Htr]].
  assert (Hsame : snd (Instructor.program inputs)
                  = snd (Instructor.main inputs Instructor.initial)).
  { unfold Instructor.program.
    destruct (Instructor.main inputs Instructor.initial) as [[e|e] w];
      [ reflexivity | discriminate Hmain ]. }
  rewrite Hsame in *. split; [ exact Hset | ]. split; [ | now exists tr ].
  rewrite Hset in Hflag. symmetry in Hflag. apply existsb_exists in Hflag.
  destruct Hflag as [e [He Hrun]]. destruct e; try discriminate Hrun.
  exists input. split; [ exact He | ].
  rewrite <- Hsame in He. apply tool_payloads_In in He.
  destruct (instructor_program_flag inputs) as [_ Hvalid].
  rewrite forallb_forall in Hvalid. now apply Hvalid.
Qed.

Lemma reported_completion_is_real_witness :
  fst (@Instructor.program (Examples.around Examples.finisher) ["Acme Cuts"; "more"])
  = Ok Completed
  /\ Instructor.isCompleted
       (store (snd (@Instructor.program (Examples.around Examples.finisher)
                      ["Acme Cuts"; "more"]))) = true
  /\ (exists payload,
         In (EvTool payload)
            (trace (snd (@Instructor.program (Examples.around Examples.finisher)
                           ["Acme Cuts"; "more"])))
         /\ @validate (Examples.around Examples.finisher)
              onboardInstructorEssentialsSchema payload = true)
  /\ exists tr,
       trace (snd (@Instructor.program (Examples.around Examples.finisher)
                     ["Acme Cuts"; "more"]))
       = tr ++ [EvPrint Green "Onboarding completed!"; EvClose].
Proof.
  assert (Hdone :
    fst (@Instructor.program (Examples.around Examples.finisher) ["Acme Cuts"; "more"])
    = Ok Completed) by (vm_compute; reflexivity).
  split; [ exact Hdone | ].
  exact (@reported_completion_is_real (Examples.around Examples.finisher)
           ["Acme Cuts"; "more"] Hdone).
Defined.

(** ** How the programs can fail *)

(** Neither program ever fails with anything but the error of a failed
    request: taking the second piece of the split content, reading the last
    message of a state, and routing in the graph never throw, the graph never
    reaches its recursion limit, and what a tool throws never leaves the
    tool node. *)
Theorem programs_fail_only_with_service_errors `{Environment}
  (inputs : list string) (e : exn) :
  fst (Instructor.program inputs) = Throw e \/ fst (Chatbot.program inputs) = Throw e ->
  exists error, e = ServiceError error.
Proof.
  intros [Hthrow | Hthrow].
  - rewrite instructor_program_result in Hthrow.
    destruct (instructor_main_sound inputs) as [_ Hsettled].
    rewrite Hthrow in Hsettled. destruct Hsettled as [error [-> _]]. now exists error.
  - rewrite chatbot_program_result in Hthrow.
    destruct (chatbot_main_sound inputs) as [_ Hsettled].
    rewrite Hthrow in Hsettled. destruct Hsettled as [error [-> _]]. now exists error.
Qed.

Lemma programs_fail_only_with_service_errors_witness :
  (fst (@Instructor.program (Examples.around Examples.flaky) ["hi"])
   = Throw (ServiceError "503 overloaded")
   \/ fst (@Chatbot.program (Examples.around Examples.flaky) ["hi"])
      = Throw (ServiceError "503 overloaded"))
  /\ exists error, ServiceError "503 overloaded" = ServiceError error.
Proof.
  assert (Hthrow :
    fst (@Instructor.program (Examples.around Examples.flaky) ["hi"])
    = Throw (ServiceError "503 overloaded")
    \/ fst (@Chatbot.program (Examples.around Examples.flaky) ["hi"])
       = Throw (ServiceError "503 overloaded"))
    by (left; vm_compute; reflexivity).
  split; [ exact Hthrow | ].
  exact (@programs_fail_only_with_service_errors (Examples.around Examples.flaky)
           ["hi"] _ Hthrow).
Defined.

(** ** Lines read and requests sent *)

Lemma lines_read_app (a b : list event) :
  lines_read (a ++ b) = lines_read a ++ lines_read b.
Proof. unfold lines_read. apply flat_map_app. Qed.

Lemma lines_read_none (evs : list event) :
  (forall line, ~ In (EvRead line) evs) -> lines_read evs = [].
Proof.
  induction evs as [|e evs IH]; [ reflexivity | ].
  intros Hnone. cbn [lines_read flat_map].
  fold (lines_read evs). rewrite IH.
  - destruct e; try reflexivity. exfalso. apply (Hnone line). now left.
  - intros line Hin. apply (Hnone line). now right.
Qed.

Lemma tool_events_read_nothing `{Environment} (calls : list tool_call)
  (outputs : list message) :
  lines_read (tool_runs calls) = [] /\ lines_read (map EvToolMsg outputs) = []
  /\ requests (tool_runs calls) = 0 /\ requests (map EvToolMsg outputs) = 0.
Proof.
  repeat apply conj.
  - apply lines_read_none. intros line Hin. unfold tool_runs in Hin.
    apply in_map_iff in Hin. destruct Hin as [call [Heq _]]. discriminate Heq.
  - apply lines_read_none. intros line Hin.
    apply in_map_iff in Hin. destruct Hin as [m [Heq _]]. discriminate Heq.
  - apply requests_idle, tool_runs_idle.
  - apply requests_idle, tool_messages_idle.
Qed.

Lemma reads_explain_cons (line : string) (rest consumed : list string)
  (r : result ending) :
  is_exit line = false ->
  reads_explain rest consumed r ->
  reads_explain (line :: rest) (line :: consumed) r.
Proof.
  intros Hexit Hr. assert (Hline : not_exit line = true)
    by (unfold not_exit; now rewrite Hexit).
  destruct r as [[| |]|e]; cbn [reads_explain] in *.
  - destruct Hr as [before [last [-> [Hbefore Hlast]]]].
    exists (line :: before), last. cbn [forallb app]. now rewrite Hline.
  - destruct Hr as [Hne Hall]. split; [ discriminate | ].
    cbn [forallb]. now rewrite Hline.
  - destruct Hr as [-> Hall]. split; [ reflexivity | ].
    cbn [forallb]. now rewrite Hline.
  - cbn [forallb]. now rewrite Hline.
Qed.

Ltac count_requests := unfold requests in *; cbn in *; lia.

Ltac read_lines :=
  cbn [lines_read flat_map app]; rewrite <- ?app_assoc, ?app_nil_r; cbn [app];
  rewrite ?app_nil_r; reflexivity.

Lemma chatbot_conversation_accounts `{Environment} (inputs : list string)
  (w : world Chatbot.Process) :
  exists consumed rest,
    inputs = consumed ++ rest
    /\ lines_read (trace (snd (Chatbot.conversation inputs w)))
       = lines_read (trace w) ++ consumed
    /\ requests (trace (snd (Chatbot.conversation inputs w)))
       = requests (trace w) + List.length (filter not_exit consumed)
    /\ reads_explain inputs consumed (fst (Chatbot.conversation inputs w))
    /\ fst (Chatbot.conversation inputs w) <> Ok Completed.
Proof.
  revert w. induction inputs as [|line rest IH]; intros w.
  - exists [], []. cbn. rewrite app_nil_r, Nat.add_0_r.
    repeat apply conj; try reflexivity. discriminate.
  - destruct (is_exit line) eqn:Hexit.
    + rewrite (chatbot_conversation_exit _ _ _ Hexit). cbn [fst snd record trace].
      exists [line], rest. rewrite lines_read_app, requests_app.
      cbn [filter]. unfold not_exit. rewrite Hexit. cbn [negb List.length].
      apply conj; [ reflexivity | ]. apply conj; [ reflexivity | ].
      apply conj; [ count_requests | ]. apply conj; [ | discriminate ].
      exists [], line. now repeat split.
    + assert (Hline : not_exit line = true) by (unfold not_exit; now rewrite Hexit).
      destruct (service (invocations w)
                  (Chatbot.systemMessage
                     (Chatbot.onboardingData (Chatbot.checkpointer (store w)))
                     :: Chatbot.messages (Chatbot.checkpointer (store w))
                     ++ [HumanMessage line])) as [c calls|error] eqn:Hservice.
      * rewrite (chatbot_conversation_reply line rest w c calls Hexit Hservice).
        match goal with |- context [Chatbot.conversation rest ?w1] =>
          destruct (IH w1) as [consumed [rest' [Hin [Hread [Hreq [Hwhy Hnot]]]]]] end.
        exists (line :: consumed), rest'. rewrite Hread, Hreq.
        cbn [trace filter]. rewrite Hline, !lines_read_app, !requests_app.
        apply conj; [ now rewrite Hin | ].
        apply conj; [ cbn; now rewrite <- app_assoc | ].
        apply conj; [ count_requests | ].
        apply conj; [ now apply reads_explain_cons | exact Hnot ].
      * rewrite (chatbot_conversation_failure line rest w error Hexit Hservice).
        cbn [fst snd trace]. exists [line], rest.
        rewrite !lines_read_app, !requests_app. cbn [filter]. rewrite Hline.
        apply conj; [ reflexivity | ]. apply conj; [ reflexivity | ].
        apply conj; [ count_requests | ]. apply conj; [ | discriminate ].
        cbn. now rewrite Hline.
Qed.

Lemma instructor_conversation_accounts `{Environment} (inputs : list string)
  (w : world Instructor.Process) :
  exists consumed rest,
    inputs = consumed ++ rest
    /\ lines_read (trace (snd (Instructor.conversation inputs w)))
       = lines_read (trace w) ++ consumed
    /\ requests (trace (snd (Instructor.conversation inputs w)))
       = requests (trace w) + List.length (filter not_exit consumed)
    /\ reads_explain inputs consumed (fst (Instructor.conversation inputs w)).
Proof.
  revert w. induction inputs as [|line rest IH]; intros w.
  - exists [], []. cbn. rewrite app_nil_r, Nat.add_0_r.
    repeat apply conj; reflexivity.
  - destruct (is_exit line) eqn:Hexit.
    + rewrite (instructor_conversation_exit _ _ _ Hexit). cbn [fst snd record trace].
      exists [line], rest. rewrite lines_read_app, requests_app.
      cbn [filter]. unfold not_exit. rewrite Hexit. cbn [negb List.length].
      apply conj; [ reflexivity | ]. apply conj; [ read_lines | ].
      apply conj; [ count_requests | ].
      exists [], line. now repeat split.
    + assert (Hline : not_exit line = true) by (unfold not_exit; now rewrite Hexit).
      destruct (service (invocations w)
                  (Instructor.systemMessage
                     :: Instructor.messages (Instructor.checkpointer (store w))
                     ++ [HumanMessage line])) as [c calls|error] eqn:Hservice.
      * destruct (instructor_conversation_reply line rest w c calls Hexit Hservice)
          as [run [outputs [botResponse [_ [_ Hturn]]]]].
        cbv zeta in Hturn. rewrite Hturn. clear Hturn.
        destruct (tool_events_read_nothing run outputs) as [Hr1 [Hr2 [Hq1 Hq2]]].
        destruct (Instructor.isCompleted (store w) || existsb completes run).
        -- cbn [fst snd record trace]. exists [line], rest.
           rewrite !lines_read_app, !requests_app, Hr1, Hr2, Hq1, Hq2.
           cbn [filter]. rewrite Hline.
           apply conj; [ reflexivity | ]. apply conj; [ read_lines | ].
           apply conj; [ count_requests | ].
           split; [ discriminate | ]. cbn. now rewrite Hline.
        -- match goal with |- context [Instructor.conversation rest ?w1] =>
             destruct (IH w1) as [consumed [rest' [Hin [Hread [Hreq Hwhy]]]]] end.
           exists (line :: consumed), rest'. rewrite Hread, Hreq.
           cbn [trace filter].
           rewrite Hline, !lines_read_app, !requests_app, Hr1, Hr2, Hq1, Hq2.
           apply conj; [ now rewrite Hin | ].
           apply conj; [ read_lines | ].
           apply conj; [ count_requests | now apply reads_explain_cons ].
      * rewrite (instructor_conversation_failure line rest w error Hexit Hservice).
        cbn [fst snd trace]. exists [line], rest.
        rewrite !lines_read_app, !requests_app. cbn [filter]. rewrite Hline.
        apply conj; [ reflexivity | ]. apply conj; [ read_lines | ].
        apply conj; [ count_requests | ].
        cbn. now rewrite Hline.
Qed.

Lemma thrown_tail_reads {A} (r : result A) :
  lines_read (match r with Ok _ => [] | Throw e => [EvError e] end) = []
  /\ requests (match r with Ok _ => [] | Throw e => [EvError e] end) = 0.
Proof. destruct r; split; reflexivity. Qed.

(** In the string-matching entry point the lines are read in order and
    none is skipped; every line read that is not the sentinel costs exactly
    one request and the sentinel costs none; and the way the program stops
    is explained by the lines read: it never reports completion. *)
Theorem chatbot_turn_accounting `{Environment} (inputs : list string) :
  (exists rest, inputs = lines_read (trace (snd (Chatbot.program inputs))) ++ rest)
  /\ requests (trace (snd (Chatbot.program inputs)))
     = List.length (filter not_exit (lines_read (trace (snd (Chatbot.program inputs)))))
  /\ reads_explain inputs (lines_read (trace (snd (Chatbot.program inputs))))
       (fst (Chatbot.program inputs))
  /\ fst (Chatbot.program inputs) <> Ok Completed.
Proof.
  rewrite chatbot_program_trace, chatbot_program_result.
  destruct (thrown_tail_reads (fst (Chatbot.main inputs Chatbot.initial)))
    as [Hread Hreq].
  rewrite lines_read_app, requests_app, Hread, Hreq, app_nil_r, Nat.add_0_r.
  destruct (chatbot_conversation_accounts inputs Chatbot.initial)
    as [consumed [rest [Hin [Hlines [Hcount [Hwhy Hnot]]]]]].
  unfold Chatbot.main. rewrite Hlines, Hcount. cbn [Chatbot.initial trace lines_read
    flat_map app requests filter List.length Nat.add].
  split; [ now exists rest | ]. now repeat (split; [ assumption | ]).
Qed.

(** In the tool-calling entry point the lines are read in order and none
    is skipped; the seed costs one request, every line read that is not the
    sentinel one more, and the sentinel none; and the way the program stops
    is explained by the lines read. *)
Theorem instructor_turn_accounting `{Environment} (inputs : list string) :
  (exists rest, inputs = lines_read (trace (snd (Instructor.program inputs))) ++ rest)
  /\ requests (trace (snd (Instructor.program inputs)))
     = 1 + List.length
             (filter not_exit (lines_read (trace (snd (Instructor.program inputs)))))
  /\ reads_explain inputs (lines_read (trace (snd (Instructor.program inputs))))
       (fst (Instructor.program inputs)).
Proof.
  rewrite instructor_program_trace, instructor_program_result.
  destruct (thrown_tail_reads (fst (Instructor.main inputs Instructor.initial)))
    as [Hread Hreq].
  rewrite lines_read_app, requests_app, Hread, Hreq, app_nil_r, Nat.add_0_r.
  destruct (service 0 [Instructor.systemMessage; seed]) as [c calls|error] eqn:Hservice.
  - destruct (instructor_main_reply inputs c calls Hservice)
      as [outputs [botResponse [_ Hmain]]].
    cbv zeta in Hmain. rewrite Hmain. clear Hmain.
    match goal with |- context [Instructor.conversation inputs ?w1] =>
      destruct (instructor_conversation_accounts inputs w1)
        as [consumed [rest [Hin [Hlines [Hcount Hwhy]]]]] end.
    rewrite Hlines, Hcount. cbn [trace].
    destruct (tool_events_read_nothing calls outputs) as [Hr1 [Hr2 [Hq1 Hq2]]].
    rewrite !lines_read_app, !requests_app, Hr1, Hr2, Hq1, Hq2.
    cbn [lines_read flat_map app].
    apply conj; [ now exists rest | ]. apply conj; [ count_requests | exact Hwhy ].
  - rewrite (instructor_main_failure inputs error Hservice). cbn [fst snd trace].
    apply conj; [ now exists inputs | ]. apply conj; reflexivity.
Qed.

(** ** The data collected by the string-matching entry point *)

Lemma parsed_only_name `{Environment} (c : content) :
  Chatbot.firstServices (parsed c) = None
  /\ Chatbot.businessHours (parsed c) = None
  /\ Chatbot.yourEmailAddress (parsed c) = None
  /\ Chatbot.doYouWantUsToTakePaymentsDirectlyFromYourCustomers (parsed c) = None.
Proof.
  destruct (parseResponseForData_shape c) as [d [Hparse [H1 [H2 [H3 [H4 _]]]]]].
  unfold parsed. rewrite Hparse. now repeat split.
Qed.

Lemma learn_only_name `{Environment} (tr : list event) (d : Chatbot.PartialEssentials) :
  Chatbot.firstServices (fold_left learn tr d) = Chatbot.firstServices d
  /\ Chatbot.businessHours (fold_left learn tr d) = Chatbot.businessHours d
  /\ Chatbot.yourEmailAddress (fold_left learn tr d) = Chatbot.yourEmailAddress d
  /\ Chatbot.doYouWantUsToTakePaymentsDirectlyFromYourCustomers (fold_left learn tr d)
     = Chatbot.doYouWantUsToTakePaymentsDirectlyFromYourCustomers d.
Proof.
  revert d. induction tr as [|e tr IH]; intros d; [ now repeat split | ].
  cbn [fold_left]. destruct (IH (learn d e)) as [H1 [H2 [H3 H4]]].
  rewrite H1, H2, H3, H4. destruct e; try now repeat split.
  cbn [learn]. destruct (parsed_only_name (message_content m)) as [P1 [P2 [P3 P4]]].
  cbn [Chatbot.onboardingData_reducer Chatbot.firstServices Chatbot.businessHours
       Chatbot.yourEmailAddress
       Chatbot.doYouWantUsToTakePaymentsDirectlyFromYourCustomers].
  rewrite P1, P2, P3, P4. now repeat split.
Qed.

Lemma chatbot_program_store `{Environment} (inputs : list string) :
  store (snd (Chatbot.program inputs))
  = store (snd (Chatbot.main inputs Chatbot.initial)).
Proof.
  unfold Chatbot.program.
  now destruct (Chatbot.main inputs Chatbot.initial) as [[e|e] w].
Qed.

Lemma instructor_program_store `{Environment} (inputs : list string) :
  store (snd (Instructor.program inputs))
  = store (snd (Instructor.main inputs Instructor.initial)).
Proof.
  unfold Instructor.program.
  now destruct (Instructor.main inputs Instructor.initial) as [[e|e] w].
Qed.

(** Whatever the model says and however long the conversation lasts, the
    saved [onboardingData] of the string-matching entry point never holds
    anything but a business name: the four other fields stay absent, so the
    test for a complete record in [shouldContinue] never succeeds. *)
Theorem chatbot_collects_only_the_business_name `{Environment} (inputs : list string) :
  Chatbot.firstServices
    (Chatbot.onboardingData (Chatbot.checkpointer (store (snd (Chatbot.program inputs)))))
  = None
  /\ Chatbot.businessHours
       (Chatbot.onboardingData
          (Chatbot.checkpointer (store (snd (Chatbot.program inputs))))) = None
  /\ Chatbot.yourEmailAddress
       (Chatbot.onboardingData
          (Chatbot.checkpointer (store (snd (Chatbot.program inputs))))) = None
  /\ Chatbot.doYouWantUsToTakePaymentsDirectlyFromYourCustomers
       (Chatbot.onboardingData
          (Chatbot.checkpointer (store (snd (Chatbot.program inputs))))) = None.
Proof.
  rewrite chatbot_program_store.
  destruct (chatbot_main_sound inputs) as [[_ [_ [Hdata _]]] _].
  cbv beta in Hdata. rewrite Hdata.
  exact (learn_only_name _ Chatbot.empty).
Qed.

(** The reducer of [onboardingData] makes the partial records a monoid in
    which the later record wins: merging is associative, the empty object is
    neutral on both sides, and merging a record with itself changes
    nothing. *)
Theorem onboardingData_reducer_laws (a b c : Chatbot.PartialEssentials) :
  Chatbot.onboardingData_reducer (Chatbot.onboardingData_reducer a b) c
  = Chatbot.onboardingData_reducer a (Chatbot.onboardingData_reducer b c)
  /\ Chatbot.onboardingData_reducer Chatbot.empty a = a
  /\ Chatbot.onboardingData_reducer a Chatbot.empty = a
  /\ Chatbot.onboardingData_reducer a a = a.
Proof.
  destruct a as [[?|] [?|] [?|] [?|] [?|]], b as [[?|] [?|] [?|] [?|] [?|]],
    c as [[?|] [?|] [?|] [?|] [?|]]; repeat split; reflexivity.
Qed.

(** ** What is saved *)

Lemma chatbot_conversation_mirror `{Environment} (inputs : list string)
  (w : world Chatbot.Process) :
  Chatbot.conversationHistory (store w)
  = map without_tool_calls (Chatbot.messages (Chatbot.checkpointer (store w))) ->
  Chatbot.conversationHistory (store (snd (Chatbot.conversation inputs w)))
  = map without_tool_calls
      (Chatbot.messages
         (Chatbot.checkpointer (store (snd (Chatbot.conversation inputs w))))).
Proof.
  revert w. induction inputs as [|line rest IH]; intros w Hw; [ exact Hw | ].
  destruct (is_exit line) eqn:Hexit.
  - now rewrite (chatbot_conversation_exit _ _ _ Hexit).
  - destruct (service (invocations w)
                (Chatbot.systemMessage
                   (Chatbot.onboardingData (Chatbot.checkpointer (store w)))
                   :: Chatbot.messages (Chatbot.checkpointer (store w))
                   ++ [HumanMessage line])) as [c calls|error] eqn:Hservice.
    + rewrite (chatbot_conversation_reply line rest w c calls Hexit Hservice).
      apply IH. cbn [store Chatbot.conversationHistory Chatbot.checkpointer
                     Chatbot.messages].
      now rewrite !map_app, Hw.
    + rewrite (chatbot_conversation_failure line rest w error Hexit Hservice).
      cbn [snd store Chatbot.conversationHistory Chatbot.checkpointer
           Chatbot.messages].
      now rewrite map_app, Hw.
Qed.

(** In the string-matching entry point the local [conversationHistory]
    always mirrors the saved transcript: the same messages in the same order,
    the answers of the model without their tool calls.  This also holds when
    the run ends in a failure. *)
Theorem conversationHistory_mirrors_the_transcript `{Environment}
  (inputs : list string) :
  Chatbot.conversationHistory (store (snd (Chatbot.program inputs)))
  = map without_tool_calls
      (Chatbot.messages (Chatbot.checkpointer (store (snd (Chatbot.program inputs))))).
Proof.
  rewrite chatbot_program_store. unfold Chatbot.main.
  now apply chatbot_conversation_mirror.
Qed.

(** In both entry points the saved transcript is exactly the conversation
    that took place (every message submitted, answered or produced by the
    tool node, in order), and the system message is never saved in it. *)
Theorem saved_transcript_is_the_conversation `{Environment} (inputs : list string) :
  (Instructor.messages (Instructor.checkpointer (store (snd (Instructor.program inputs))))
   = transcript_of (trace (snd (Instructor.program inputs)))
   /\ forallb not_system
        (Instructor.messages
           (Instructor.checkpointer (store (snd (Instructor.program inputs))))) = true)
  /\ (Chatbot.messages (Chatbot.checkpointer (store (snd (Chatbot.program inputs))))
      = transcript_of (trace (snd (Chatbot.program inputs)))
      /\ forallb not_system
           (Chatbot.messages
              (Chatbot.checkpointer (store (snd (Chatbot.program inputs))))) = true).
Proof.
  split.
  - rewrite instructor_program_store, instructor_program_trace, transcript_of_app.
    destruct (thrown_tail_idle (fst (Instructor.main inputs Instructor.initial)))
      as [_ Hquiet].
    rewrite Hquiet, app_nil_r.
    destruct (instructor_main_sound inputs) as [[_ [Hsaved [_ [_ Hsys]]]] _].
    cbv beta in Hsaved. now rewrite Hsaved.
  - rewrite chatbot_program_store, chatbot_program_trace, transcript_of_app.
    destruct (thrown_tail_idle (fst (Chatbot.main inputs Chatbot.initial)))
      as [_ Hquiet].
    rewrite Hquiet, app_nil_r.
    destruct (chatbot_main_sound inputs) as [[_ [Hsaved [_ [_ Hsys]]]] _].
    cbv beta in Hsaved. now rewrite Hsaved.
Qed.

(** ** More on [parseResponseForData] *)

Local Notation "a +++ b" := (String.append a b) (at level 60, right associativity).

Lemma contains_inside (lead s trail piece : string) :
  JsString.contains s piece -> JsString.contains (lead +++ s +++ trail) piece.
Proof.
  intros [before [after ->]]. exists (lead +++ before), (after +++ trail).
  now rewrite !append_assoc.
Qed.

Lemma split_free (sep : ascii) (s : string) :
  ~ JsString.contains s (String sep EmptyString) -> JsString.split sep s = [s].
Proof.
  intros Hfree.
  destruct (split_first sep s) as [piece [pieces [Hsplit [_ [[-> ->] | [s' [Hs _]]]]]]].
  - exact Hsplit.
  - exfalso. apply Hfree. exists piece, s'. now rewrite Hs.
Qed.

Lemma split_append (sep : ascii) (before s' : string) :
  ~ JsString.contains before (String sep EmptyString) ->
  JsString.split sep (before +++ String sep s') = before :: JsString.split sep s'.
Proof.
  induction before as [|c before IH]; intros Hfree; cbn [String.append JsString.split].
  - now rewrite Ascii.eqb_refl.
  - destruct (Ascii.eqb_spec c sep) as [->|Hne].
    + exfalso. apply Hfree. now exists EmptyString, before.
    + rewrite IH; [ reflexivity | ].
      intros [pre [post Heq]]. apply Hfree. exists (String c pre), post.
      cbn. now rewrite Heq.
Qed.

Lemma trim_blank (s : string) :
  JsString.all_white s = true -> JsString.trim s = EmptyString.
Proof.
  unfold JsString.trim. induction s as [|c s IH]; [ reflexivity | ].
  cbn [JsString.all_white JsString.trimStart]. intros Hs. apply andb_prop in Hs.
  destruct Hs as [Hc Hs]. rewrite Hc. now apply IH.
Qed.

(** The business name that [parseResponseForData] extracts is tidy: no
    white space at either end and no [":"] inside. *)
Theorem parsed_business_name_is_tidy `{Environment} (c : content)
  (newData : Chatbot.PartialEssentials) (name : string) :
  Chatbot.parseResponseForData c = Ok newData ->
  Chatbot.businessName newData = Some name ->
  JsString.starts_white name = false
  /\ JsString.ends_white name = false
  /\ ~ JsString.contains name ":".
Proof.
  intros Hparse Hname.
  destruct (parseResponseForData_shape c) as [d [Hd [_ [_ [_ [_ [_ Hshape]]]]]]].
  rewrite Hparse in Hd. injection Hd as <-.
  destruct (Hshape name Hname) as [before [between [rest [_ [_ [Hfree [_ ->]]]]]]].
  destruct (trim_spec between) as [lead [trail [Hbetween [_ [_ [Hstart Hend]]]]]].
  repeat split; try assumption.
  intros Hcolon. apply Hfree. rewrite Hbetween. now apply contains_inside.
Qed.

Lemma parsed_business_name_is_tidy_witness :
  (@Chatbot.parseResponseForData (Examples.around Examples.greeter)
     (CText "Your business name:   Acme Cuts  : welcome!")
   = Ok {| Chatbot.businessName := Some "Acme Cuts";
           Chatbot.firstServices := None; Chatbot.businessHours := None;
           Chatbot.yourEmailAddress := None;
           Chatbot.doYouWantUsToTakePaymentsDirectlyFromYourCustomers := None |}
   /\ Some "Acme Cuts" = Some "Acme Cuts")
  /\ JsString.starts_white "Acme Cuts" = false
  /\ JsString.ends_white "Acme Cuts" = false
  /\ ~ JsString.contains "Acme Cuts" ":".
Proof.
  split; [ split; reflexivity | ].
  apply (@parsed_business_name_is_tidy (Examples.around Examples.greeter)
           (CText "Your business name:   Acme Cuts  : welcome!")
           {| Chatbot.businessName := Some "Acme Cuts";
              Chatbot.firstServices := None; Chatbot.businessHours := None;
              Chatbot.yourEmailAddress := None;
              Chatbot.doYouWantUsToTakePaymentsDirectlyFromYourCustomers := None |}
           "Acme Cuts");
    reflexivity.
Defined.

(** The result of [parseResponseForData] on any text that mentions
    ["business name"]: cut the text at its first [":"] and again at the next
    [":"], or at the end when there is none; the record holds the trimmed
    middle piece as business name and nothing else. *)
Theorem parseResponseForData_computes `{Environment} (before between rest : string) :
  ~ JsString.contains before ":" ->
  ~ JsString.contains between ":" ->
  rest = EmptyString \/ (exists rest', rest = (":" ++ rest')%string) ->
  JsString.contains (before ++ ":" ++ between ++ rest)%string "business name" ->
  Chatbot.parseResponseForData (CText (before ++ ":" ++ between ++ rest)%string)
  = Ok {| Chatbot.businessName := Some (JsString.trim between);
          Chatbot.firstServices := None; Chatbot.businessHours := None;
          Chatbot.yourEmailAddress := None;
          Chatbot.doYouWantUsToTakePaymentsDirectlyFromYourCustomers := None |}.
Proof.
  intros Hbefore Hbetween Hrest Hname.
  unfold Chatbot.parseResponseForData. cbn [Chatbot.contentString].
  apply includes_contains in Hname. rewrite Hname.
  assert (Hcolon : JsString.includes (before +++ ":" +++ between +++ rest) ":" = true).
  { apply includes_contains. now exists before, (between +++ rest). }
  rewrite Hcolon. cbn [andb].
  change (before +++ ":" +++ between +++ rest)
    with (before +++ String ":" (between +++ rest)).
  rewrite (split_append ":" before _ Hbefore). cbn [nth_error].
  destruct Hrest as [-> | [rest' ->]].
  - rewrite append_nil_r, (split_free ":" between Hbetween). reflexivity.
  - change (between +++ ":" +++ rest') with (between +++ String ":" rest').
    rewrite (split_append ":" between _ Hbetween). reflexivity.
Qed.

Lemma parseResponseForData_computes_witness :
  (~ JsString.contains "Your business name" ":"
   /\ ~ JsString.contains "   Acme Cuts  " ":"
   /\ (": welcome!" = EmptyString
       \/ exists rest', ": welcome!" = (":" ++ rest')%string)
   /\ JsString.contains
        ("Your business name" ++ ":" ++ "   Acme Cuts  " ++ ": welcome!")%string
        "business name")
  /\ @Chatbot.parseResponseForData (Examples.around Examples.greeter)
       (CText ("Your business name" ++ ":" ++ "   Acme Cuts  " ++ ": welcome!")%string)
     = Ok {| Chatbot.businessName := Some (JsString.trim "   Acme Cuts  ");
             Chatbot.firstServices := None; Chatbot.businessHours := None;
             Chatbot.yourEmailAddress := None;
             Chatbot.doYouWantUsToTakePaymentsDirectlyFromYourCustomers := None |}.
Proof.
  assert (H1 : ~ JsString.contains "Your business name" ":").
  { intros Hc. apply includes_contains in Hc. discriminate Hc. }
  assert (H2 : ~ JsString.contains "   Acme Cuts  " ":").
  { intros Hc. apply includes_contains in Hc. discriminate Hc. }
  assert (H3 : ": welcome!" = EmptyString
               \/ exists rest', ": welcome!" = (":" ++ rest')%string).
  { right. now exists " welcome!". }
  assert (H4 : JsString.contains
                 ("Your business name" ++ ":" ++ "   Acme Cuts  " ++ ": welcome!")%string
                 "business name").
  { apply includes_contains. reflexivity. }
  split; [ now repeat split | ].
  exact (@parseResponseForData_computes (Examples.around Examples.greeter)
           "Your business name" "   Acme Cuts  " ": welcome!" H1 H2 H3 H4).
Defined.

(** An edge of the parsing: when nothing but white space stands between the
    first [":"] and the next one (or the end), the business name is recorded
    as present but empty, which the test in [shouldContinue] takes for
    missing. *)
Theorem blank_business_name_is_recorded_empty `{Environment}
  (before blank rest : string) :
  ~ JsString.contains before ":" ->
  JsString.all_white blank = true ->
  rest = EmptyString \/ (exists rest', rest = (":" ++ rest')%string) ->
  JsString.contains (before ++ ":" ++ blank ++ rest)%string "business name" ->
  exists newData,
    Chatbot.parseResponseForData (CText (before ++ ":" ++ blank ++ rest)%string)
    = Ok newData
    /\ Chatbot.businessName newData = Some EmptyString
    /\ Chatbot.truthy_string (Chatbot.businessName newData) = false.
Proof.
  intros Hbefore Hblank Hrest Hname.
  assert (Hfree : ~ JsString.contains blank ":").
  { clear - Hblank. intros [pre [post ->]].
    induction pre as [|c pre IH]; cbn in Hblank.
    - discriminate Hblank.
    - apply andb_prop in Hblank. now apply IH. }
  unfold Chatbot.parseResponseForData. cbn [Chatbot.contentString].
  apply includes_contains in Hname. rewrite Hname.
  assert (Hcolon : JsString.includes (before +++ ":" +++ blank +++ rest) ":" = true).
  { apply includes_contains. now exists before, (blank +++ rest). }
  rewrite Hcolon. cbn [andb].
  change (before +++ ":" +++ blank +++ rest)
    with (before +++ String ":" (blank +++ rest)).
  rewrite (split_append ":" before _ Hbefore). cbn [nth_error].
  assert (Hpiece : exists pieces,
             JsString.split ":" (blank +++ rest) = blank :: pieces).
  { destruct Hrest as [-> | [rest' ->]].
    - rewrite append_nil_r, (split_free ":" blank Hfree). now eexists.
    - change (blank +++ ":" +++ rest') with (blank +++ String ":" rest').
      rewrite (split_append ":" blank _ Hfree). now eexists. }
  destruct Hpiece as [pieces ->]. rewrite (trim_blank _ Hblank).
  eexists. repeat split.
Qed.

Lemma blank_business_name_is_recorded_empty_witness :
  (~ JsString.contains "What is your business name" ":"
   /\ JsString.all_white "  " = true
   /\ (EmptyString = EmptyString
       \/ exists rest', EmptyString = (":" ++ rest')%string)
   /\ JsString.contains ("What is your business name" ++ ":" ++ "  " ++ EmptyString)%string
        "business name")
  /\ exists newData,
       @Chatbot.parseResponseForData (Examples.around Examples.greeter)
         (CText ("What is your business name" ++ ":" ++ "  " ++ EmptyString)%string)
       = Ok newData
       /\ Chatbot.businessName newData = Some EmptyString
       /\ Chatbot.truthy_string (Chatbot.businessName newData) = false.
Proof.
  assert (H1 : ~ JsString.contains "What is your business name" ":").
  { intros Hc. apply includes_contains in Hc. discriminate Hc. }
  assert (H4 : JsString.contains
                 ("What is your business name" ++ ":" ++ "  " ++ EmptyString)%string
                 "business name").
  { apply includes_contains. reflexivity. }
  split; [ repeat split; [ exact H1 | now left | exact H4 ] | ].
  exact (@blank_business_name_is_recorded_empty (Examples.around Examples.greeter)
           "What is your business name" "  " EmptyString
           H1 eq_refl (or_introl eq_refl) H4).
Defined.

(** ** Turns of the tool-calling entry point in which the model calls a tool *)

Ltac run_instructor :=
  cbv beta iota zeta
    delta [Instructor.app_invoke Instructor.callModel Instructor.toolNodeForGraph
           Instructor.runToolCalls Instructor.runToolCall
           Instructor.onboardingCompleted Instructor.shouldContinue
           Instructor.update Instructor.messages_reducer Instructor.save
           Instructor.push Instructor.set_isCompleted Instructor.messages
           Instructor.checkpointer Instructor.isCompleted
           Instructor.conversationHistory
           bind gets log_all log modify model_invoke record lift ret throw
           try_catch last_content message_content botText
           store invocations trace call_name call_args call_id].

(** The calls that the tool node runs in the turn of a line. *)
Lemma unanswered_turn (saved : list message) (line : string) (c : content)
  (calls asked : list tool_call) :
  Instructor.unanswered ((saved ++ [HumanMessage line]) ++ [AIMessage c calls]) asked
  = Instructor.unanswered saved asked.
Proof. now rewrite unanswered_answer, unanswered_line. Qed.

Lemma unanswered_one (saved : list message) (call : tool_call) :
  mem_string (call_id call) (Instructor.toolMessageIds saved) = false ->
  Instructor.unanswered saved [call] = [call].
Proof. intros Hnew. unfold Instructor.unanswered. cbn [filter]. now rewrite Hnew. Qed.

(** A turn in which the model calls [complete] with a payload that the schema
    accepts, under an id that has no tool message yet: the tool body runs,
    the tool node answers with the payload as JSON text, that text is what
    the user sees as the reply, and the loop stops with [Completed] without
    reading another line. *)
Theorem completing_turn_prints_the_payload `{Environment} (line : string)
  (rest : list string) (w : world Instructor.Process) (c : content)
  (payload : json) (id : string) :
  is_exit line = false ->
  service (invocations w)
    (Instructor.systemMessage
       :: Instructor.messages (Instructor.checkpointer (store w)) ++ [HumanMessage line])
  = Reply c [ToolCall "complete" payload id] ->
  validate onboardInstructorEssentialsSchema payload = true ->
  mem_string id
    (Instructor.toolMessageIds (Instructor.messages (Instructor.checkpointer (store w))))
  = false ->
  Instructor.conversation (line :: rest) w
  = (Ok Completed,
     World
       {| Instructor.isCompleted := true;
          Instructor.checkpointer :=
            {| Instructor.messages :=
                 Instructor.messages (Instructor.checkpointer (store w))
                   ++ [HumanMessage line;
                       AIMessage c [ToolCall "complete" payload id];
                       ToolMessage (JSON.stringify payload) "complete" id] |};
          Instructor.conversationHistory :=
            Instructor.conversationHistory (store w)
              ++ [HumanMessage line; AIMessage (CText (JSON.stringify payload)) []] |}
       (S (invocations w))
       (trace w
          ++ [EvRead line; EvSubmit (HumanMessage line);
              EvInvoke (Instructor.systemMessage
                          :: Instructor.messages (Instructor.checkpointer (store w))
                          ++ [HumanMessage line]);
              EvReply (AIMessage c [ToolCall "complete" payload id]);
              EvTool payload;
              EvToolMsg (ToolMessage (JSON.stringify payload) "complete" id);
              EvPrint Yellow (String.append "Bot: " (JSON.stringify payload));
              EvPrint Green "Onboarding completed!";
              EvClose])).
Proof.
  intros Hexit Hservice Hvalid Hnew. destruct w as [[flag [saved] history] n tr].
  cbn [store invocations trace Instructor.messages Instructor.checkpointer
       Instructor.conversationHistory] in *.
  cbn [Instructor.conversation]. rewrite Hexit. run_instructor.
  rewrite Hservice. run_instructor.
  rewrite ?rev_app_distr. cbn [rev app Instructor.lastToolCalls]. run_instructor.
  cbn [String.eqb Ascii.eqb Bool.eqb]. run_instructor.
  rewrite ?rev_app_distr. cbn [rev app Instructor.lastToolCalls].
  rewrite unanswered_turn, (unanswered_one saved (ToolCall "complete" payload id) Hnew).
  run_instructor.
  cbn [String.eqb Ascii.eqb Bool.eqb]. rewrite Hvalid. run_instructor.
  cbn [map app]. rewrite ?rev_app_distr. cbn [rev app]. run_instructor.
  repeat (rewrite <- app_assoc; cbn [app]). reflexivity.
Qed.

Lemma completing_turn_prints_the_payload_witness :
  (is_exit "hi" = false
   /\ Examples.eager 0
        (@Instructor.systemMessage (Examples.around Examples.eager)
           :: [] ++ [HumanMessage "hi"])
      = Reply (CText EmptyString) [ToolCall "complete" Examples.acme "call_1"]
   /\ @validate (Examples.around Examples.eager) onboardInstructorEssentialsSchema
        Examples.acme = true
   /\ mem_string "call_1" (Instructor.toolMessageIds []) = false)
  /\ fst (@Instructor.conversation (Examples.around Examples.eager)
            ["hi"; "there"] Instructor.initial) = Ok Completed.
Proof.
  split; [ repeat split | ].
  rewrite (@completing_turn_prints_the_payload (Examples.around Examples.eager)
             "hi" ["there"] Instructor.initial (CText EmptyString)
             Examples.acme "call_1" eq_refl eq_refl eq_refl eq_refl).
  reflexivity.
Defined.

(** A turn in which the model makes a tool call that is not an accepted
    call of [complete] (another tool name, or a payload that the schema
    rejects), under an id that has no tool message yet: the tool body does
    not run and the flag stays unset; the tool node answers with the error
    as a tool message, which goes into the transcript and is shown to the
    user as the reply; and the loop goes on with the next line. *)
Theorem rejected_tool_call_keeps_the_loop_going `{Environment} (line : string)
  (rest : list string) (w : world Instructor.Process) (c : content)
  (call : tool_call) :
  is_exit line = false ->
  service (invocations w)
    (Instructor.systemMessage
       :: Instructor.messages (Instructor.checkpointer (store w)) ++ [HumanMessage line])
  = Reply c [call] ->
  completes call = false ->
  Instructor.isCompleted (store w) = false ->
  mem_string (call_id call)
    (Instructor.toolMessageIds (Instructor.messages (Instructor.checkpointer (store w))))
  = false ->
  let text :=
    String.concat EmptyString
      ["Error: ";
       exn_message (if call_name call =? "complete"
                    then ToolInputParsingException
                    else ToolNotFound (call_name call));
       JsString.newline; " Please fix your mistakes."] in
  Instructor.conversation (line :: rest) w
  = Instructor.conversation rest
      (World
         {| Instructor.isCompleted := false;
            Instructor.checkpointer :=
              {| Instructor.messages :=
                   Instructor.messages (Instructor.checkpointer (store w))
                     ++ [HumanMessage line; AIMessage c [call];
                         ToolMessage text (call_name call) (call_id call)] |};
            Instructor.conversationHistory :=
              Instructor.conversationHistory (store w)
                ++ [HumanMessage line; AIMessage (CText text) []] |}
         (S (invocations w))
         (trace w
            ++ [EvRead line; EvSubmit (HumanMessage line);
                EvInvoke (Instructor.systemMessage
                            :: Instructor.messages (Instructor.checkpointer (store w))
                            ++ [HumanMessage line]);
                EvReply (AIMessage c [call]);
                EvToolMsg (ToolMessage text (call_name call) (call_id call));
                EvPrint Yellow (String.append "Bot: " text)])).
Proof.
  intros Hexit Hservice Hcall Hflag Hnew text. subst text.
  destruct w as [[flag [saved] history] n tr].
  cbn [store invocations trace Instructor.messages Instructor.checkpointer
       Instructor.conversationHistory Instructor.isCompleted] in *.
  subst flag. unfold completes in Hcall.
  cbn [Instructor.conversation]. rewrite Hexit. run_instructor.
  rewrite Hservice. run_instructor.
  rewrite ?rev_app_distr. cbn [rev app Instructor.lastToolCalls]. run_instructor.
  cbn [String.eqb Ascii.eqb Bool.eqb]. run_instructor.
  rewrite ?rev_app_distr. cbn [rev app Instructor.lastToolCalls].
  rewrite unanswered_turn, (unanswered_one saved call Hnew).
  destruct call as [name args id]. cbn [call_name call_args call_id] in *.
  run_instructor.
  destruct (name =? "complete") eqn:Hname.
  - cbn [andb] in Hcall. rewrite Hcall. run_instructor.
    cbn [map app]. rewrite ?rev_app_distr. cbn [rev app]. run_instructor.
    apply String.eqb_eq in Hname. subst name.
    repeat (rewrite <- app_assoc; cbn [app]). reflexivity.
  - run_instructor.
    cbn [map app]. rewrite ?rev_app_distr. cbn [rev app]. run_instructor.
    repeat (rewrite <- app_assoc; cbn [app]). reflexivity.
Qed.

Lemma rejected_tool_call_keeps_the_loop_going_witness :
  (is_exit "hi" = false
   /\ Examples.careless 0
        (@Instructor.systemMessage (Examples.around Examples.careless)
           :: [] ++ [HumanMessage "hi"])
      = Reply (CText EmptyString) [ToolCall "complete" Examples.acme_funday "call_1"]
   /\ @completes (Examples.around Examples.careless)
        (ToolCall "complete" Examples.acme_funday "call_1") = false
   /\ Instructor.isCompleted (store Instructor.initial) = false
   /\ mem_string "call_1" (Instructor.toolMessageIds []) = false)
  /\ trace (snd (@Instructor.conversation (Examples.around Examples.careless)
                   ["hi"] Instructor.initial))
     = [EvRead "hi"; EvSubmit (HumanMessage "hi");
        EvInvoke [@Instructor.systemMessage (Examples.around Examples.careless);
                  HumanMessage "hi"];
        EvReply (AIMessage (CText EmptyString)
                   [ToolCall "complete" Examples.acme_funday "call_1"]);
        EvToolMsg
          (ToolMessage
             (String.concat EmptyString
                ["Error: Received tool input did not match expected schema";
                 JsString.newline; " Please fix your mistakes."])
             "complete" "call_1");
        EvPrint Yellow
          (String.concat EmptyString
             ["Bot: Error: Received tool input did not match expected schema";
              JsString.newline; " Please fix your mistakes."])].
Proof.
  split; [ repeat split | ].
  rewrite (@rejected_tool_call_keeps_the_loop_going (Examples.around Examples.careless)
             "hi" [] Instructor.initial (CText EmptyString)
             (ToolCall "complete" Examples.acme_funday "call_1")
             eq_refl eq_refl eq_refl eq_refl eq_refl).
  reflexivity.
Defined.

(** A turn in which the answer carries no tool call that is still to be run:
    no tool call at all, or only calls under ids that already have a tool
    message in the transcript, be they calls that the [complete] tool would
    accept.  Nothing is run and no tool message is made: the flag is as it
    was, the transcript grows by the line and the answer, and the answer's
    own content is what the user sees. *)
Theorem turn_without_pending_calls `{Environment} (line : string)
  (w : world Instructor.Process) (c : content) (calls : list tool_call) :
  is_exit line = false ->
  service (invocations w)
    (Instructor.systemMessage
       :: Instructor.messages (Instructor.checkpointer (store w)) ++ [HumanMessage line])
  = Reply c calls ->
  Instructor.unanswered
    (Instructor.messages (Instructor.checkpointer (store w))) calls = [] ->
  let w' :=
    World
      {| Instructor.isCompleted := Instructor.isCompleted (store w);
         Instructor.checkpointer :=
           {| Instructor.messages :=
                Instructor.messages (Instructor.checkpointer (store w))
                  ++ [HumanMessage line; AIMessage c calls] |};
         Instructor.conversationHistory :=
           Instructor.conversationHistory (store w)
             ++ [HumanMessage line; AIMessage c []] |}
      (S (invocations w))
      (trace w
         ++ [EvRead line; EvSubmit (HumanMessage line);
             EvInvoke (Instructor.systemMessage
                         :: Instructor.messages (Instructor.checkpointer (store w))
                         ++ [HumanMessage line]);
             EvReply (AIMessage c calls);
             EvPrint Yellow (String.append "Bot: " (botText c))]) in
  forall rest,
    Instructor.conversation (line :: rest) w
    = if Instructor.isCompleted (store w)
      then (Ok Completed, record [EvPrint Green "Onboarding completed!"; EvClose] w')
      else Instructor.conversation rest w'.
Proof.
  intros Hexit Hservice Hnone w' rest. subst w'.
  destruct w as [[flag [saved] history] n tr].
  cbn [store invocations trace Instructor.messages Instructor.checkpointer
       Instructor.conversationHistory Instructor.isCompleted] in *.
  cbn [Instructor.conversation]. rewrite Hexit. run_instructor.
  rewrite Hservice. run_instructor.
  rewrite ?rev_app_distr. cbn [rev app Instructor.lastToolCalls]. run_instructor.
  destruct calls as [|call calls].
  - cbn [String.eqb Ascii.eqb Bool.eqb END]. run_instructor.
    rewrite ?rev_app_distr. cbn [rev app]. run_instructor.
    destruct flag; run_instructor;
      repeat (rewrite <- app_assoc; cbn [app]); reflexivity.
  - cbn [String.eqb Ascii.eqb Bool.eqb]. run_instructor.
    rewrite ?rev_app_distr. cbn [rev app Instructor.lastToolCalls].
    rewrite unanswered_turn, Hnone. run_instructor.
    cbn [map app]. rewrite ?app_nil_r.
    rewrite ?rev_app_distr. cbn [rev app]. run_instructor.
    destruct flag; run_instructor;
      repeat (rewrite <- app_assoc; cbn [app]); reflexivity.
Qed.

(** With [repeater] the second call of [complete] carries the scenario's
    payload, which the schema accepts, under the id of the call that was
    turned down: it is not run, and the loop goes on. *)
Lemma turn_without_pending_calls_witness :
  let w :=
    snd (@Instructor.main (Examples.around Examples.repeater) ["a"] Instructor.initial)
  in
  (is_exit "b" = false
   /\ Examples.repeater (invocations w)
        (@Instructor.systemMessage (Examples.around Examples.repeater)
           :: Instructor.messages (Instructor.checkpointer (store w))
           ++ [HumanMessage "b"])
      = Reply (CText "All set.") [ToolCall "complete" Examples.acme "call_1"]
   /\ @validate (Examples.around Examples.repeater) onboardInstructorEssentialsSchema
        Examples.acme = true
   /\ Instructor.unanswered
        (Instructor.messages (Instructor.checkpointer (store w)))
        [ToolCall "complete" Examples.acme "call_1"] = [])
  /\ fst (@Instructor.conversation (Examples.around Examples.repeater) ["b"] w)
     = Ok InputClosed
  /\ Instructor.isCompleted
       (store (snd (@Instructor.conversation (Examples.around Examples.repeater)
                      ["b"] w))) = false.
Proof.
  intros w.
  assert (Hservice :
    Examples.repeater (invocations w)
      (@Instructor.systemMessage (Examples.around Examples.repeater)
         :: Instructor.messages (Instructor.checkpointer (store w))
         ++ [HumanMessage "b"])
    = Reply (CText "All set.") [ToolCall "complete" Examples.acme "call_1"])
    by (vm_compute; reflexivity).
  assert (Hnone :
    Instructor.unanswered
      (Instructor.messages (Instructor.checkpointer (store w)))
      [ToolCall "complete" Examples.acme "call_1"] = [])
    by (vm_compute; reflexivity).
  assert (Hflag : Instructor.isCompleted (store w) = false)
    by (vm_compute; reflexivity).
  split; [ repeat split; assumption || reflexivity | ].
  rewrite (@turn_without_pending_calls (Examples.around Examples.repeater)
             "b" w (CText "All set.") [ToolCall "complete" Examples.acme "call_1"]
             eq_refl Hservice Hnone []).
  rewrite Hflag. split; reflexivity.
Defined.

(** ** What the loops keep *)

Lemma names_parsed_app `{Environment} (a b : list event) :
  names_parsed (a ++ b) = names_parsed a ++ names_parsed b.
Proof. unfold names_parsed. apply flat_map_app. Qed.

Lemma last_cons_default {A} (x : A) (l : list A) (d : A) :
  List.last (x :: l) d = List.last l x.
Proof.
  revert x d. induction l as [|y l IH]; intros x d; [ reflexivity | ].
  change (List.last (x :: y :: l) d) with (List.last (y :: l) d).
  now rewrite !IH.
Qed.

Lemma last_app_default {A} (a b : list A) (d : A) :
  List.last (a ++ b) d = List.last b (List.last a d).
Proof.
  revert d. induction a as [|x a IH]; intros d; [ reflexivity | ].
  cbn [app]. now rewrite !last_cons_default, IH.
Qed.

(** Once a business name is saved, the field stays present: after any
    number of further turns it holds the name that [parseResponseForData]
    found in the latest answer that carried one, and the earlier name when no
    answer carried one.  The empty [onboardingData] that [main] passes with
    every line never resets it; an answer can replace it by any name, the
    empty one included.  This holds also when the run ends in a failure. *)
Theorem business_name_holds_latest_parsed_name `{Environment} (inputs : list string)
  (w : world Chatbot.Process) (name : string) :
  Chatbot.businessName (Chatbot.onboardingData (Chatbot.checkpointer (store w)))
  = Some name ->
  exists ext,
    trace (snd (Chatbot.conversation inputs w)) = trace w ++ ext
    /\ Chatbot.businessName
         (Chatbot.onboardingData
            (Chatbot.checkpointer (store (snd (Chatbot.conversation inputs w)))))
       = Some (List.last (names_parsed ext) name).
Proof.
  revert w name. induction inputs as [|line rest IH]; intros w name Hname.
  - exists []. cbn. now rewrite app_nil_r.
  - destruct (is_exit line) eqn:Hexit.
    + rewrite (chatbot_conversation_exit _ _ _ Hexit). cbn [snd record trace store].
      eexists. split; [ reflexivity | exact Hname ].
    + destruct (service (invocations w)
                  (Chatbot.systemMessage
                     (Chatbot.onboardingData (Chatbot.checkpointer (store w)))
                     :: Chatbot.messages (Chatbot.checkpointer (store w))
                     ++ [HumanMessage line])) as [c calls|error] eqn:Hservice.
      * rewrite (chatbot_conversation_reply line rest w c calls Hexit Hservice).
        match goal with |- context [Chatbot.conversation rest ?w1] =>
          set (w' := w1) end.
        assert (Hname' :
          Chatbot.businessName
            (Chatbot.onboardingData (Chatbot.checkpointer (store w')))
          = Some (List.last (names_parsed [EvReply (AIMessage c calls)]) name)).
        { subst w'. cbn [store Chatbot.checkpointer Chatbot.onboardingData
                         Chatbot.onboardingData_reducer Chatbot.businessName
                         Chatbot.spread names_parsed flat_map app].
          rewrite Hname.
          destruct (Chatbot.businessName (parsed c)); reflexivity. }
        destruct (IH w' _ Hname') as [ext [Hext Hlast]].
        rewrite Hext, Hlast. subst w'. cbn [trace].
        eexists. split; [ rewrite <- !app_assoc; reflexivity | ].
        rewrite !names_parsed_app, !last_app_default.
        cbn [names_parsed flat_map app List.last]. reflexivity.
      * rewrite (chatbot_conversation_failure line rest w error Hexit Hservice).
        cbn [snd trace store Chatbot.checkpointer Chatbot.onboardingData].
        eexists. split; [ reflexivity | exact Hname ].
Qed.

(** With [asker] the name "Acme" is replaced by the empty name, which
    [shouldContinue] takes for a missing one. *)
Lemma business_name_holds_latest_parsed_name_witness :
  Chatbot.businessName
    (Chatbot.onboardingData (Chatbot.checkpointer (store Examples.knows_acme)))
  = Some "Acme"
  /\ Chatbot.businessName
       (Chatbot.onboardingData
          (Chatbot.checkpointer
             (store (snd (@Chatbot.conversation (Examples.around Examples.asker)
                            ["hi"] Examples.knows_acme)))))
     = Some EmptyString
  /\ Chatbot.truthy_string (Some EmptyString) = false.
Proof.
  split; [ reflexivity | ]. split; [ | reflexivity ].
  destruct (@business_name_holds_latest_parsed_name (Examples.around Examples.asker)
              ["hi"] Examples.knows_acme "Acme" eq_refl) as [ext [Hext Hlast]].
  rewrite Hlast. cbn [Examples.knows_acme trace app] in Hext. rewrite <- Hext.
  vm_compute. reflexivity.
Defined.

(** With [finisher] the tool body runs in the turn of the first line, and
    the line that follows is not read. *)
Lemma instructor_program_stops_after_completion_witness :
  (forall c calls,
      Examples.finisher 0
        [@Instructor.systemMessage (Examples.around Examples.finisher); seed]
      = Reply c calls ->
      existsb (@completes (Examples.around Examples.finisher)) calls = false)
  /\ filter is_tool_run
       (trace (snd (@Instructor.program (Examples.around Examples.finisher)
                      ["Acme Cuts"; "anything else"])))
     = [EvTool Examples.acme]
  /\ quiet_after_tool
       (trace (snd (@Instructor.program (Examples.around Examples.finisher)
                      ["Acme Cuts"; "anything else"]))).
Proof.
  assert (Hseed : forall c calls,
    Examples.finisher 0
      [@Instructor.systemMessage (Examples.around Examples.finisher); seed]
    = Reply c calls ->
    existsb (@completes (Examples.around Examples.finisher)) calls = false).
  { intros c calls Heq. injection Heq as _ <-. reflexivity. }
  split; [ exact Hseed | ]. split; [ vm_compute; reflexivity | ].
  exact (@instructor_program_stops_after_completion
           (Examples.around Examples.finisher) ["Acme Cuts"; "anything else"] Hseed).
Defined.
